(** * uamqp: client facade, CBS token handling and management operations

    A shallow embedding of the Python sources
    [uamqp/authentication.py], [uamqp/async/authentication_async.py],
    [uamqp/mgmt_operation.py], [uamqp/async/mgmt_operation_async.py],
    [uamqp/sender.py] and [uamqp/client.py].

    Python objects become records, attribute assignment becomes explicit
    state passing in a small state-and-exception monad, and everything the
    C layer ([c_uamqp]) decides — the status a CBS poll reports, the
    readings of a [TickCounter], what one transport pass delivers — is an
    oracle stored next to a read position, so each call consumes the next
    observation.  Loops that wait on the network take fuel. *)

From Stdlib Require Import ZArith QArith Lia.
From stdpp Require Import gmap strings list functions.

Set Default Proof Using "Type".
Local Open Scope Z_scope.

(** ** Exceptions and outcomes *)

Inductive exn : Type :=
| AuthenticationException
| TokenExpired
| TokenAuthFailure
| TimeoutError
| ValueError
| KeyError
| AttributeError
| AMQPConnectionError
| MessageSendFailed
| SenderError.

#[global] Instance exn_eq_dec : EqDecision exn.
Proof. solve_decision. Defined.

(** What a call does: return a value, raise, or still be looping when the
    fuel given to a waiting loop is used up. *)
Inductive result (A : Type) : Type :=
| Return (a : A)
| Raise (e : exn)
| OutOfFuel.
Arguments Return {A} a.
Arguments Raise {A} e.
Arguments OutOfFuel {A}.

Definition M (S A : Type) : Type := S -> result A * S.

Definition ret {S A} (a : A) : M S A := fun s => (Return a, s).
Definition raise {S A} (e : exn) : M S A := fun s => (Raise e, s).
Definition diverge {S A} : M S A := fun s => (OutOfFuel, s).
Definition bind {S A B} (m : M S A) (k : A -> M S B) : M S B :=
  fun s =>
    match m s with
    | (Return a, s') => k a s'
    | (Raise e, s') => (Raise e, s')
    | (OutOfFuel, s') => (OutOfFuel, s')
    end.
Definition get {S} : M S S := fun s => (Return s, s).
Definition gets {S A} (f : S -> A) : M S A := fun s => (Return (f s), s).
Definition modify {S} (f : S -> S) : M S unit := fun s => (Return tt, f s).

(** [try: m except e: h] — one [except] clause for one exception class. *)
Definition try_except {S A} (m : M S A) (e : exn) (h : M S A) : M S A :=
  fun s =>
    match m s with
    | (Raise e', s') => if decide (e' = e) then h s' else (Raise e', s')
    | r => r
    end.

(** [try: m finally: f] — [f] runs on return and on raise. *)
Definition try_finally {S A} (m : M S A) (f : M S unit) : M S A :=
  fun s =>
    match m s with
    | (Return a, s') =>
        match f s' with
        | (Return _, s'') => (Return a, s'')
        | (Raise e, s'') => (Raise e, s'')
        | (OutOfFuel, s'') => (OutOfFuel, s'')
        end
    | (Raise e, s') =>
        match f s' with
        | (Return _, s'') => (Raise e, s'')
        | (Raise e', s'') => (Raise e', s'')
        | (OutOfFuel, s'') => (OutOfFuel, s'')
        end
    | (OutOfFuel, s') => (OutOfFuel, s')
    end.

(** Run a computation on a component [T] stored inside [S]. *)
Definition zoom {S T A} (proj : S -> T) (upd : T -> S -> S) (m : M T A) : M S A :=
  fun s => let '(r, t) := m (proj s) in (r, upd t s).

Declare Scope monad_scope.
Delimit Scope monad_scope with monad.
Notation "x <- m ;; k" := (bind m (fun x => k))
  (at level 100, m at next level, right associativity) : monad_scope.
Notation "m ;; k" := (bind m (fun _ => k))
  (at level 100, right associativity) : monad_scope.
Local Open Scope monad_scope.

(** ** TickCounter

    [c_uamqp.TickCounter]: [get_current_ms()] returns the next reading of a
    millisecond clock. *)
Module TickCounter.
Record t : Type := { readings : nat -> Z; reads : nat }.
Definition get_current_ms : M t Z :=
  fun c => (Return (readings c (reads c)),
            {| readings := readings c; reads := S (reads c) |}).
End TickCounter.

(** ** CBS authentication ([uamqp/authentication.py]) *)

Module CBSAuthStatus.
Inductive t : Type :=
| Ok | Idle | InProgress | Timeout | RefreshRequired | Expired | Error | Failure.
#[global] Instance eq_dec : EqDecision t.
Proof. solve_decision. Defined.
End CBSAuthStatus.

Module TokenRetryPolicy.
(** [backoff] is kept as the millisecond count passed to [__init__]; the
    source stores [float(backoff)/1000] seconds. *)
Record t : Type := { retries : Z; backoff : Z }.
Definition __init__ (retries backoff : Z) : t :=
  {| retries := retries; backoff := backoff |}.
Definition default : t := __init__ 3 0.
End TokenRetryPolicy.

(** [c_uamqp.CBSTokenAuth]: the C object polled by [handle_token].
    [get_status()] yields the next raw status; [None] stands for a raw
    value that [constants.CBSAuthStatus(...)] rejects with [ValueError].
    The other calls have no result the Python code inspects and are
    recorded in [calls]. *)
Module CBSTokenAuth.
Inductive call : Type :=
| Authenticate
| Refresh (token_version : nat)
| GetFailureInfo
| Sleep (backoff : Z).
Record t : Type := {
  status_feed : nat -> option CBSAuthStatus.t;
  polls : nat;
  calls : list call
}.
Definition get_status : M t (option CBSAuthStatus.t) :=
  fun c => (Return (status_feed c (polls c)),
            {| status_feed := status_feed c; polls := S (polls c); calls := calls c |}).
Definition record (x : call) : M t unit :=
  modify (fun c => {| status_feed := status_feed c; polls := polls c;
                      calls := calls c ++ [x] |}).
End CBSTokenAuth.

(** [SASTokenAuth] with the [CBSAuthMixin] methods.  The lock taken around
    the body of [handle_token] is free on entry and released by [finally]
    on every exit; with one thread of control it is left out. *)
Module SASTokenAuth.
Record t : Type := {
  _retry_policy : TokenRetryPolicy.t;
  retries : Z;
  username : option string;
  password : option string;
  token_version : nat;
  _cbs_auth : CBSTokenAuth.t
}.

Definition set_retries (n : Z) (a : t) : t :=
  {| _retry_policy := _retry_policy a; retries := n; username := username a;
     password := password a; token_version := token_version a;
     _cbs_auth := _cbs_auth a |}.
Definition set_token_version (v : nat) (a : t) : t :=
  {| _retry_policy := _retry_policy a; retries := retries a; username := username a;
     password := password a; token_version := v; _cbs_auth := _cbs_auth a |}.
Definition set_cbs_auth (c : CBSTokenAuth.t) (a : t) : t :=
  {| _retry_policy := _retry_policy a; retries := retries a; username := username a;
     password := password a; token_version := token_version a; _cbs_auth := c |}.

Definition cbs {A} (m : M CBSTokenAuth.t A) : M t A := zoom _cbs_auth set_cbs_auth m.

(** Python truthiness of an optional string: [None] and [""] are false. *)
Definition truthy (s : option string) : bool :=
  match s with
  | None => false
  | Some s => negb (String.eqb s EmptyString)
  end.

(** [SASTokenAuth.__init__]: [self.retries = 0]. *)
Definition __init__ (retry_policy : TokenRetryPolicy.t)
    (username password : option string) (cbs_auth : CBSTokenAuth.t) : t :=
  {| _retry_policy := retry_policy; retries := 0; username := username;
     password := password; token_version := O; _cbs_auth := cbs_auth |}.

(** [SASTokenAuth.update_token]: needs a username and a password, then
    issues a new token. *)
Definition update_token : M t unit :=
  a <- get ;;
  if negb (truthy (username a)) || negb (truthy (password a))
  then raise TokenExpired
  else modify (set_token_version (S (token_version a))).

(** The status dispatch shared by the two variants; [invalid] is what the
    last [elif auth_status != Ok] branch raises. *)
Definition dispatch (invalid : exn) (auth_status : CBSAuthStatus.t) : M t (bool * bool) :=
  if decide (auth_status = CBSAuthStatus.Error) then
    a <- get ;;
    if TokenRetryPolicy.retries (_retry_policy a) <=? retries a then
      cbs (CBSTokenAuth.record CBSTokenAuth.GetFailureInfo) ;;
      raise TokenAuthFailure
    else
      modify (set_retries (retries a + 1)) ;;
      cbs (CBSTokenAuth.record (CBSTokenAuth.Sleep (TokenRetryPolicy.backoff (_retry_policy a)))) ;;
      cbs (CBSTokenAuth.record CBSTokenAuth.Authenticate) ;;
      ret (false, true)
  else if decide (auth_status = CBSAuthStatus.Failure) then
    (* errors.AuthenticationException("...") is built and dropped: no raise *)
    ret (false, false)
  else if decide (auth_status = CBSAuthStatus.Expired) then
    raise TokenExpired
  else if decide (auth_status = CBSAuthStatus.Timeout) then
    ret (true, false)
  else if decide (auth_status = CBSAuthStatus.InProgress) then
    ret (false, true)
  else if decide (auth_status = CBSAuthStatus.RefreshRequired) then
    update_token ;;
    a <- get ;;
    cbs (CBSTokenAuth.record (CBSTokenAuth.Refresh (token_version a))) ;;
    ret (false, false)
  else if decide (auth_status = CBSAuthStatus.Idle) then
    cbs (CBSTokenAuth.record CBSTokenAuth.Authenticate) ;;
    ret (false, true)
  else if decide (auth_status <> CBSAuthStatus.Ok) then
    raise invalid
  else ret (false, false).

Definition poll_and_dispatch (invalid : exn) : M t (bool * bool) :=
  try_except
    (raw <- cbs CBSTokenAuth.get_status ;;
     match raw with
     | None => raise ValueError
     | Some auth_status => dispatch invalid auth_status
     end)
    ValueError
    (raise AuthenticationException).

(** [CBSAuthMixin.handle_token]: returns [(timeout, in_progress)]. *)
Definition handle_token : M t (bool * bool) :=
  poll_and_dispatch AuthenticationException.

(** [CBSAsyncAuthMixin.handle_token_async]: the same steps awaited one
    after another; the last branch raises [ValueError], which the
    [except ValueError] clause turns into [AuthenticationException]. *)
Definition handle_token_async : M t (bool * bool) :=
  poll_and_dispatch ValueError.

(** The authenticator after [n] consecutive calls, whatever they did. *)
Definition after_calls (h : M t (bool * bool)) (n : nat) (a : t) : t :=
  Nat.iter n (fun a => snd (h a)) a.

(** The status the next poll will report. *)
Definition next_status (a : t) : option CBSAuthStatus.t :=
  CBSTokenAuth.status_feed (_cbs_auth a) (CBSTokenAuth.polls (_cbs_auth a)).
End SASTokenAuth.

(** ** Messages *)

Module MessageState.
Inductive t : Type := WaitingToBeSent | WaitingForAck | Complete | Failed.
#[global] Instance eq_dec : EqDecision t.
Proof. solve_decision. Defined.
End MessageState.

(** [uamqp.Message] objects live in a store indexed by object identity
    [ref]; [t] holds the two attributes the client reads and writes. *)
Module Message.
Abbreviation ref := nat (only parsing).
Record t : Type := { state : MessageState.t; idle_time : Z }.
Definition set_state (s : MessageState.t) (m : t) : t :=
  {| state := s; idle_time := idle_time m |}.
Definition set_idle_time (z : Z) (m : t) : t :=
  {| state := state m; idle_time := z |}.
End Message.

(** ** Management operations ([uamqp/mgmt_operation.py]) *)


Module MgmtOperation.
(** The two values the source stores in [mgmt_error]. *)
Inductive error : Type :=
| OpenFailed       (* AMQPConnectionError, set by __init__ *)
| OperationError.  (* ValueError, set by _management_operation_error *)
Definition exn_of (e : error) : exn :=
  match e with
  | OpenFailed => AMQPConnectionError
  | OperationError => ValueError
  end.

(** What one [connection.work()] pass brings to the management link pair:
    the [on_complete] callbacks it fires (operation id and wrapped
    response) and whether [_management_operation_error] fires. *)
Record pass : Type := { completed : list (string * Message.ref); link_error : bool }.

Record t : Type := {
  _responses : gmap string (option Message.ref);
  mgmt_error : option error;
  _counter : TickCounter.t;
  submitted : list string;   (* requests handed to _mgmt_op.execute, callback pending *)
  network : nat -> pass;
  works : nat
}.

Definition set_responses (r : gmap string (option Message.ref)) (op : t) : t :=
  {| _responses := r; mgmt_error := mgmt_error op; _counter := _counter op;
     submitted := submitted op; network := network op; works := works op |}.
Definition set_mgmt_error (e : option error) (op : t) : t :=
  {| _responses := _responses op; mgmt_error := e; _counter := _counter op;
     submitted := submitted op; network := network op; works := works op |}.
Definition set_counter (c : TickCounter.t) (op : t) : t :=
  {| _responses := _responses op; mgmt_error := mgmt_error op; _counter := c;
     submitted := submitted op; network := network op; works := works op |}.
Definition set_submitted (l : list string) (op : t) : t :=
  {| _responses := _responses op; mgmt_error := mgmt_error op; _counter := _counter op;
     submitted := l; network := network op; works := works op |}.
Definition set_works (n : nat) (op : t) : t :=
  {| _responses := _responses op; mgmt_error := mgmt_error op; _counter := _counter op;
     submitted := submitted op; network := network op; works := n |}.

Definition get_current_ms : M t Z := zoom _counter set_counter TickCounter.get_current_ms.

(** The closure [on_complete] of the request [operation_id]:
    [self._responses[operation_id] = Message(message=wrapped_message)].
    It exists once the request was submitted and is called once. *)
Definition on_complete (op : t) (c : string * Message.ref) : t :=
  let '(operation_id, wrapped_message) := c in
  if decide (operation_id ∈ submitted op) then
    set_submitted (filter (fun i => i <> operation_id) (submitted op))
      (set_responses (<[operation_id := Some wrapped_message]> (_responses op)) op)
  else op.

(** [_management_operation_error]. *)
Definition _management_operation_error (op : t) : t :=
  set_mgmt_error (Some OperationError) op.

(** [self.connection.work()]. *)
Definition work : M t unit :=
  fun op =>
    let p := network op (works op) in
    let op1 := fold_left on_complete (completed p) op in
    let op2 := if link_error p then _management_operation_error op1 else op1 in
    (Return tt, set_works (S (works op)) op2).

(** Truthiness of [self._responses[operation_id]]: the placeholder [None]
    is false, a [Message] object is true. *)
Definition truthy (r : option Message.ref) : bool :=
  match r with Some _ => true | None => false end.

(** The [while not self._responses[operation_id] and not self.mgmt_error]
    loop of [execute]. *)
Fixpoint wait_response (fuel : nat) (operation_id : string) (start_time timeout : Z)
    : M t unit :=
  op <- get ;;
  match _responses op !! operation_id with
  | None => raise KeyError
  | Some r =>
      if negb (truthy r) && negb (bool_decide (is_Some (mgmt_error op))) then
        match fuel with
        | O => diverge
        | S fuel' =>
            (if 0 <? timeout then
               now <- get_current_ms ;;
               if timeout <=? now - start_time then raise TimeoutError else ret tt
             else ret tt) ;;
            work ;;
            wait_response fuel' operation_id start_time timeout
        end
      else ret tt
  end.

(** [MgmtOperation.execute].  [operation_id] is the [str(uuid.uuid4())]
    drawn by the call; the request payload ([operation], [op_type],
    [message]) only travels to the C layer. *)
Definition execute (operation_id : string) (timeout : Z) (fuel : nat)
    : M t (option Message.ref) :=
  start_time <- get_current_ms ;;
  modify (fun op => set_responses (<[operation_id := None]> (_responses op)) op) ;;
  modify (fun op => set_submitted (submitted op ++ [operation_id]) op) ;;
  wait_response fuel operation_id start_time timeout ;;
  op <- get ;;
  match mgmt_error op with
  | Some e => raise (exn_of e)
  | None =>
      match _responses op !! operation_id with
      | None => raise KeyError
      | Some response =>
          modify (fun op => set_responses (delete operation_id (_responses op)) op) ;;
          ret response
      end
  end.

(** [MgmtOperationAsync.execute_async] has the same body with
    [await self.connection.work_async()] as its tick. *)
Definition execute_async (operation_id : string) (timeout : Z) (fuel : nat)
    : M t (option Message.ref) :=
  execute operation_id timeout fuel.
End MgmtOperation.

(** ** Client facade ([uamqp/client.py]) *)

(** The link states as [sender._state_changed] stores them: a member of
    the enum, or the raw integer when the enum rejects it. *)
Module MessageSenderState.
Inductive t : Type := Idle | Opening | Open | Closing | Error | Raw (value : Z).
#[global] Instance eq_dec : EqDecision t.
Proof. solve_decision. Defined.
End MessageSenderState.

Module MessageReceiverState.
Inductive t : Type := Idle | Opening | Open | Closing | Error | Raw (value : Z).
#[global] Instance eq_dec : EqDecision t.
Proof. solve_decision. Defined.
End MessageReceiverState.

Module MessageSendResult.
Inductive t : Type := Ok | Error | Timeout.
#[global] Instance eq_dec : EqDecision t.
Proof. solve_decision. Defined.
End MessageSendResult.

(** [uamqp.Connection].  [cbs] is the truth value of [connection.cbs].
    A [pass] is what one [connection.work()] makes the C layer do: the
    state-changed callbacks of the links, the send-completion callbacks,
    the message-received callbacks, and which [send] calls issued ahead of
    this pass the sender rejects by raising. *)
Module Connection.
Record t : Type := { cbs : bool }.
Record pass : Type := {
  sender_state : option MessageSenderState.t;
  receiver_state : option MessageReceiverState.t;
  settled : list (Message.ref * MessageSendResult.t);
  arrived : list Message.ref;
  refused : Message.ref -> bool
}.
End Connection.

(** [self._auth]: a SASL authentication, or one with the [CBSAuthMixin]. *)
Module Auth.
Inductive t : Type := SASL | CBS (a : SASTokenAuth.t).
Definition is_cbs (a : t) : bool :=
  match a with CBS _ => true | SASL => false end.
End Auth.

(** The session a client holds: the one of the CBS authenticator
    ([self._auth._session]) or one of its own ([self.session_type(...)]). *)
Inductive Session : Type := CbsSession | ClientSession.

(** Calls into the C layer that a client makes and whose result it does
    not inspect. *)
Inductive event : Type :=
| ConnectionWork
| ConnectionDestroy
| SessionDestroy (s : Session)
| CbsAuthDestroy
| SenderOpen
| SenderDestroy
| SenderSend (message : Message.ref) (timeout : Q)
| ReceiverOpen
| ReceiverDestroy.

(** Python's [None] next to the booleans [_client_run] returns. *)
Definition truth (r : option bool) : bool :=
  match r with Some b => b | None => false end.

Module AMQPClient.
Record t : Type := {
  _auth : Auth.t;
  _shutdown : bool;
  _connection : option Connection.t;
  _ext_connection : bool;
  _session : option Session;
  _counter : TickCounter.t;
  network : nat -> Connection.pass;
  works : nat;
  log : list event
}.

Definition set_auth (x : Auth.t) (c : t) : t :=
  {| _auth := x; _shutdown := _shutdown c; _connection := _connection c;
     _ext_connection := _ext_connection c; _session := _session c;
     _counter := _counter c; network := network c; works := works c; log := log c |}.
Definition set_shutdown (x : bool) (c : t) : t :=
  {| _auth := _auth c; _shutdown := x; _connection := _connection c;
     _ext_connection := _ext_connection c; _session := _session c;
     _counter := _counter c; network := network c; works := works c; log := log c |}.
Definition set_connection (x : option Connection.t) (c : t) : t :=
  {| _auth := _auth c; _shutdown := _shutdown c; _connection := x;
     _ext_connection := _ext_connection c; _session := _session c;
     _counter := _counter c; network := network c; works := works c; log := log c |}.
Definition set_ext_connection (x : bool) (c : t) : t :=
  {| _auth := _auth c; _shutdown := _shutdown c; _connection := _connection c;
     _ext_connection := x; _session := _session c;
     _counter := _counter c; network := network c; works := works c; log := log c |}.
Definition set_session (x : option Session) (c : t) : t :=
  {| _auth := _auth c; _shutdown := _shutdown c; _connection := _connection c;
     _ext_connection := _ext_connection c; _session := x;
     _counter := _counter c; network := network c; works := works c; log := log c |}.
Definition set_counter (x : TickCounter.t) (c : t) : t :=
  {| _auth := _auth c; _shutdown := _shutdown c; _connection := _connection c;
     _ext_connection := _ext_connection c; _session := _session c;
     _counter := x; network := network c; works := works c; log := log c |}.
Definition set_works (x : nat) (c : t) : t :=
  {| _auth := _auth c; _shutdown := _shutdown c; _connection := _connection c;
     _ext_connection := _ext_connection c; _session := _session c;
     _counter := _counter c; network := network c; works := x; log := log c |}.
Definition set_log (x : list event) (c : t) : t :=
  {| _auth := _auth c; _shutdown := _shutdown c; _connection := _connection c;
     _ext_connection := _ext_connection c; _session := _session c;
     _counter := _counter c; network := network c; works := works c; log := x |}.

Definition emit (e : event) : M t unit := modify (fun c => set_log (log c ++ [e]) c).
Definition get_current_ms : M t Z := zoom _counter set_counter TickCounter.get_current_ms.

(** [AMQPClient.__init__]; [auth] is what [self._auth] ends up holding,
    the other two arguments are the world behind the client. *)
Definition __init__ (auth : Auth.t) (counter : TickCounter.t)
    (network : nat -> Connection.pass) : t :=
  {| _auth := auth; _shutdown := false; _connection := None;
     _ext_connection := false; _session := None; _counter := counter;
     network := network; works := O; log := [] |}.

(** [AMQPClient.open(connection)]; an existing connection comes with its
    [auth].  The constructors of the C layer are taken to succeed. *)
Definition open (connection : option (Connection.t * Auth.t)) : M t unit :=
  c <- get ;;
  if bool_decide (is_Some (_session c)) then ret tt
  else
    match connection with
    | Some (conn, auth) =>
        modify (set_auth auth) ;;
        modify (set_ext_connection true) ;;
        modify (set_connection (Some conn))
    | None => modify (set_connection (Some {| Connection.cbs := false |}))
    end ;;
    c <- get ;;
    match _connection c with
    | None => raise AttributeError
    | Some conn =>
        if negb (Connection.cbs conn) && Auth.is_cbs (_auth c) then
          modify (set_connection (Some {| Connection.cbs := true |})) ;;
          modify (set_session (Some CbsSession))
        else if Connection.cbs conn then
          match _auth c with
          | Auth.CBS _ => modify (set_session (Some CbsSession))
          | Auth.SASL => raise AttributeError
          end
        else modify (set_session (Some ClientSession))
    end.

(** [self._auth.close_authenticator()]: destroys the CBS object, then its
    session. *)
Definition close_authenticator : M t unit :=
  c <- get ;;
  match _auth c with
  | Auth.SASL => raise AttributeError
  | Auth.CBS _ => emit CbsAuthDestroy ;; emit (SessionDestroy CbsSession)
  end.

(** [AMQPClient.close]. *)
Definition close : M t unit :=
  c <- get ;;
  match _session c with
  | None => ret tt
  | Some session =>
      match _connection c with
      | None => raise AttributeError
      | Some conn =>
          (if Connection.cbs conn && negb (_ext_connection c) then
             close_authenticator ;;
             modify (set_connection (Some {| Connection.cbs := false |}))
           else if negb (Connection.cbs conn) then
             emit (SessionDestroy session)
           else ret tt) ;;
          modify (set_session None) ;;
          (if negb (_ext_connection c) then emit ConnectionDestroy else ret tt) ;;
          modify (set_connection None)
      end
  end.

(** The C side of [self._connection.work()]: the pass the network has
    next, for a connection that exists. *)
Definition transport_pass : M t Connection.pass :=
  c <- get ;;
  match _connection c with
  | None => raise AttributeError
  | Some _ =>
      emit ConnectionWork ;;
      modify (set_works (S (works c))) ;;
      ret (network c (works c))
  end.

(** [self._auth.handle_token()]. *)
Definition handle_token : M t (bool * bool) :=
  c <- get ;;
  match _auth c with
  | Auth.SASL => raise AttributeError
  | Auth.CBS a =>
      zoom (fun _ => a) (fun a' c => set_auth (Auth.CBS a') c) SASTokenAuth.handle_token
  end.
End AMQPClient.

(** The interface the subclasses implement: where the [AMQPClient] part of
    the object is (writing it and reading it back gives what was written),
    the two overridden hooks, and the callbacks this client has registered
    with the C layer. *)
Class Client (C : Type) : Type := {
  super : C -> AMQPClient.t;
  set_super : AMQPClient.t -> C -> C;
  client_ready : M C bool;
  client_run : M C (option bool);
  callbacks : Connection.pass -> C -> C;
  super_set_super : forall b c, super (set_super b c) = b
}.

Definition on_super {C} `{Client C} {A} (m : M AMQPClient.t A) : M C A :=
  zoom super set_super m.

(** [self._connection.work()]: one transport pass, whose callbacks land in
    this client. *)
Definition connection_work {C} `{Client C} : M C unit :=
  p <- on_super AMQPClient.transport_pass ;;
  modify (callbacks p).

(** [AMQPClient.do_work]. *)
Definition do_work {C} `{Client C} : M C (option bool) :=
  c <- get ;;
  match AMQPClient._connection (super c) with
  | None => raise AttributeError
  | Some conn =>
      status <- (if Connection.cbs conn then on_super AMQPClient.handle_token
                 else ret (false, false)) ;;
      let '(timeout, auth_in_progress) := status in
      c <- get ;;
      if AMQPClient._shutdown (super c) then ret (Some false)
      else if timeout then raise TimeoutError
      else if auth_in_progress then connection_work ;; ret (Some true)
      else
        ready <- client_ready ;;
        if negb ready then connection_work ;; ret (Some true)
        else client_run
  end.

(** The base class: always ready, and its run step is one transport pass
    (the method has no [return], so the result is [None]). *)
#[global] Instance AMQPClient_Client : Client AMQPClient.t := {
  super := fun c => c;
  set_super := fun b _ => b;
  client_ready := ret true;
  client_run := (AMQPClient.transport_pass ;; ret None);
  callbacks := fun _ c => c;
  super_set_super := fun _ _ => eq_refl
}.

(** ** SendClient *)

(** [uamqp.sender.MessageSender] as the client sees it: the link state
    kept by [on_state_changed], and [unsettled].

    Modelled from the spec: the C message sender behind [self._sender] is
    not part of these sources.  The spec has [send_async] enqueue the
    message and its completion "reported later via the message's own state
    transition"; [unsettled] lists the messages handed over whose
    completion callback is still owed. *)
Module MessageSender.
Record t : Type := { _state : MessageSenderState.t; unsettled : list Message.ref }.
End MessageSender.

(** [list.remove(x)] with the [ValueError] of a missing element swallowed,
    as [_client_run] does. *)
Fixpoint list_remove_first (x : Message.ref) (l : list Message.ref) : list Message.ref :=
  match l with
  | [] => []
  | y :: l' => if decide (x = y) then l' else y :: list_remove_first x l'
  end.

(** [try: m except Exception as exp: h exp]. *)
Definition try_except_Exception {S A} (m : M S A) (h : exn -> M S A) : M S A :=
  fun s =>
    match m s with
    | (Raise e, s') => h e s'
    | r => r
    end.

Fixpoint for_each {S A} (l : list A) (body : A -> M S unit) : M S unit :=
  match l with
  | [] => ret tt
  | x :: l' => body x ;; for_each l' body
  end.

Definition Qlt_bool (a b : Q) : bool := negb (Qle_bool b a).

Module SendClient.
Record t : Type := {
  client : AMQPClient.t;
  _msg_timeout : Z;
  _pending_messages : list Message.ref;
  _message_sender : option MessageSender.t;
  messages : Message.ref -> Message.t
}.

Definition set_client (x : AMQPClient.t) (c : t) : t :=
  {| client := x; _msg_timeout := _msg_timeout c;
     _pending_messages := _pending_messages c;
     _message_sender := _message_sender c; messages := messages c |}.
Definition set_pending_messages (x : list Message.ref) (c : t) : t :=
  {| client := client c; _msg_timeout := _msg_timeout c; _pending_messages := x;
     _message_sender := _message_sender c; messages := messages c |}.
Definition set_message_sender (x : option MessageSender.t) (c : t) : t :=
  {| client := client c; _msg_timeout := _msg_timeout c;
     _pending_messages := _pending_messages c;
     _message_sender := x; messages := messages c |}.
Definition set_messages (x : Message.ref -> Message.t) (c : t) : t :=
  {| client := client c; _msg_timeout := _msg_timeout c;
     _pending_messages := _pending_messages c;
     _message_sender := _message_sender c; messages := x |}.

(** Attribute writes on the message object [m]. *)
Definition update_message (m : Message.ref) (f : Message.t -> Message.t) (c : t) : t :=
  set_messages (<[m := f (messages c m)]> (messages c)) c.

Definition amqp {A} (x : M AMQPClient.t A) : M t A := zoom client set_client x.

(** [SendClient.__init__]. *)
Definition __init__ (auth : Auth.t) (counter : TickCounter.t)
    (network : nat -> Connection.pass) (msg_timeout : Z)
    (messages : Message.ref -> Message.t) : t :=
  {| client := AMQPClient.__init__ auth counter network;
     _msg_timeout := msg_timeout; _pending_messages := [];
     _message_sender := None; messages := messages |}.

Section WithMessageClass.
(** [Message._on_message_sent(result, error)] is a method of the message
    class, which is not part of these sources; it acts on the attributes
    of the message it is called on. *)
Variable _on_message_sent :
  MessageSendResult.t -> option exn -> Message.t -> Message.t.

(** [MessageSender.on_state_changed], reached from the C sender. *)
Definition on_state_changed (new_state : MessageSenderState.t) (c : t) : t :=
  match _message_sender c with
  | None => c
  | Some s =>
      set_message_sender
        (Some {| MessageSender._state := new_state;
                 MessageSender.unsettled := MessageSender.unsettled s |}) c
  end.

(** The completion callback of one submitted message: the C sender calls
    [message._on_message_sent(result)] for a message it holds, once. *)
Definition on_settled (c : t) (x : Message.ref * MessageSendResult.t) : t :=
  let '(m, r) := x in
  match _message_sender c with
  | None => c
  | Some s =>
      if decide (m ∈ MessageSender.unsettled s) then
        update_message m (_on_message_sent r None)
          (set_message_sender
             (Some {| MessageSender._state := MessageSender._state s;
                      MessageSender.unsettled :=
                        list_remove_first m (MessageSender.unsettled s) |}) c)
      else c
  end.

Definition sender_callbacks (p : Connection.pass) (c : t) : t :=
  fold_left on_settled (Connection.settled p)
    (match Connection.sender_state p with
     | Some st => on_state_changed st c
     | None => c
     end).

(** [SendClient._client_ready]. *)
Definition _client_ready : M t bool :=
  c <- get ;;
  match _message_sender c with
  | None =>
      match AMQPClient._session (client c) with
      | None => raise AttributeError
      | Some _ =>
          modify (set_message_sender
                    (Some {| MessageSender._state := MessageSenderState.Idle;
                             MessageSender.unsettled := [] |})) ;;
          amqp (AMQPClient.emit SenderOpen) ;;
          ret false
      end
  | Some s =>
      if decide (MessageSender._state s = MessageSenderState.Error) then
        raise AMQPConnectionError
      else if decide (MessageSender._state s <> MessageSenderState.Open) then
        ret false
      else ret true
  end.

(** [MessageSender.send_async(message, timeout)]: the call reaches the C
    sender, which either takes the message or raises. *)
Definition send_async (message : Message.ref) (timeout : Q) : M t unit :=
  c <- get ;;
  match _message_sender c with
  | None => raise AttributeError
  | Some s =>
      amqp (AMQPClient.emit (SenderSend message timeout)) ;;
      if Connection.refused
           (AMQPClient.network (client c) (AMQPClient.works (client c))) message
      then raise SenderError
      else
        modify (set_message_sender
                  (Some {| MessageSender._state := MessageSender._state s;
                           MessageSender.unsettled :=
                             MessageSender.unsettled s ++ [message] |}))
  end.

(** The body of the [for message in self._pending_messages[:]] loop. *)
Definition send_pending (message : Message.ref) : M t unit :=
  c <- get ;;
  let state := Message.state (messages c message) in
  if bool_decide (state ∈ [MessageState.Complete; MessageState.Failed]) then
    modify (fun c => set_pending_messages
                       (list_remove_first message (_pending_messages c)) c)
  else if decide (state = MessageState.WaitingToBeSent) then
    modify (update_message message (Message.set_state MessageState.WaitingForAck)) ;;
    try_except_Exception
      (current_time <- amqp AMQPClient.get_current_ms ;;
       c <- get ;;
       let elapsed_time :=
         (inject_Z (current_time - Message.idle_time (messages c message))
          / inject_Z 1000)%Q in
       if (0 <? _msg_timeout c)
          && Qlt_bool (inject_Z (_msg_timeout c)) elapsed_time then
         modify (update_message message
                   (_on_message_sent MessageSendResult.Timeout None))
       else
         let timeout :=
           if 0 <? _msg_timeout c
           then (inject_Z (_msg_timeout c) - elapsed_time)%Q
           else inject_Z 0 in
         send_async message timeout)
      (fun exp =>
         modify (update_message message
                   (_on_message_sent MessageSendResult.Error (Some exp))))
  else ret tt.

(** [SendClient._client_run]: the loop over a copy of the pending list,
    then [self._connection.work()] (a transport pass whose callbacks land
    in this client), then [return True]. *)
Definition _client_run : M t (option bool) :=
  c <- get ;;
  for_each (_pending_messages c) send_pending ;;
  p <- amqp AMQPClient.transport_pass ;;
  modify (sender_callbacks p) ;;
  ret (Some true).

#[local] Instance SendClient_Client : Client t := {
  super := client;
  set_super := set_client;
  client_ready := _client_ready;
  client_run := _client_run;
  callbacks := sender_callbacks;
  super_set_super := fun _ _ => eq_refl
}.

(** [SendClient.close]. *)
Definition close : M t unit :=
  c <- get ;;
  match _message_sender c with
  | Some _ =>
      amqp (AMQPClient.emit SenderDestroy) ;;
      modify (set_message_sender None)
  | None => ret tt
  end ;;
  amqp AMQPClient.close ;;
  modify (set_pending_messages []).

(** [SendClient.queue_message(messages)]; the argument is
    [messages.gather()]. *)
Definition queue_message (gathered : list Message.ref) : M t unit :=
  for_each gathered
    (fun message =>
       now <- amqp AMQPClient.get_current_ms ;;
       modify (update_message message (Message.set_idle_time now)) ;;
       modify (fun c => set_pending_messages (_pending_messages c ++ [message]) c)).

(** [SendClient.messages_pending]. *)
Definition messages_pending (c : t) : bool :=
  match _pending_messages c with [] => false | _ :: _ => true end.

(** [SendClient.wait]. *)
Fixpoint wait (fuel : nat) : M t unit :=
  c <- get ;;
  if messages_pending c then
    match fuel with
    | O => diverge
    | S fuel' => do_work ;; wait fuel'
    end
  else ret tt.

(** [SendClient.send_all_messages(close_on_done)]. *)
Definition send_all_messages (close_on_done : bool) (fuel : nat)
    : M t (list MessageState.t) :=
  amqp (AMQPClient.open None) ;;
  try_finally
    (c <- get ;;
     let messages_ := _pending_messages c in
     wait fuel ;;
     c <- get ;;
     ret (map (fun m => Message.state (messages c m)) messages_))
    (if close_on_done then close else ret tt).
End WithMessageClass.

(** Modelled from the spec: [Message._on_message_sent] is missing from the
    sources.  The spec records per-message failures (send timeout,
    transport rejection) on the message's own state: a timeout or an error
    leaves the message [Failed], a successful send [Complete]. *)
Definition _on_message_sent (result : MessageSendResult.t) (error : option exn)
    (m : Message.t) : Message.t :=
  match result, error with
  | MessageSendResult.Ok, None => Message.set_state MessageState.Complete m
  | _, _ => Message.set_state MessageState.Failed m
  end.
End SendClient.

(** ** ReceiveClient *)

Module MessageReceiver.
Record t : Type := { _state : MessageReceiverState.t }.
End MessageReceiver.

Module ReceiveClient.
Record t : Type := {
  client : AMQPClient.t;
  _timeout : Z;
  _message_receiver : option MessageReceiver.t;
  _last_activity_timestamp : option Z;
  _was_message_received : bool;
  _message_received_callback : option (Message.ref -> option Message.ref);
  _received_messages : option (list Message.ref);
  _prefetch : Z
}.

Definition set_client (x : AMQPClient.t) (c : t) : t :=
  {| client := x; _timeout := _timeout c; _message_receiver := _message_receiver c;
     _last_activity_timestamp := _last_activity_timestamp c;
     _was_message_received := _was_message_received c;
     _message_received_callback := _message_received_callback c;
     _received_messages := _received_messages c; _prefetch := _prefetch c |}.
Definition set_message_receiver (x : option MessageReceiver.t) (c : t) : t :=
  {| client := client c; _timeout := _timeout c; _message_receiver := x;
     _last_activity_timestamp := _last_activity_timestamp c;
     _was_message_received := _was_message_received c;
     _message_received_callback := _message_received_callback c;
     _received_messages := _received_messages c; _prefetch := _prefetch c |}.
Definition set_last_activity_timestamp (x : option Z) (c : t) : t :=
  {| client := client c; _timeout := _timeout c;
     _message_receiver := _message_receiver c;
     _last_activity_timestamp := x;
     _was_message_received := _was_message_received c;
     _message_received_callback := _message_received_callback c;
     _received_messages := _received_messages c; _prefetch := _prefetch c |}.
Definition set_was_message_received (x : bool) (c : t) : t :=
  {| client := client c; _timeout := _timeout c;
     _message_receiver := _message_receiver c;
     _last_activity_timestamp := _last_activity_timestamp c;
     _was_message_received := x;
     _message_received_callback := _message_received_callback c;
     _received_messages := _received_messages c; _prefetch := _prefetch c |}.
Definition set_message_received_callback
    (x : option (Message.ref -> option Message.ref)) (c : t) : t :=
  {| client := client c; _timeout := _timeout c;
     _message_receiver := _message_receiver c;
     _last_activity_timestamp := _last_activity_timestamp c;
     _was_message_received := _was_message_received c;
     _message_received_callback := x;
     _received_messages := _received_messages c; _prefetch := _prefetch c |}.
Definition set_received_messages (x : option (list Message.ref)) (c : t) : t :=
  {| client := client c; _timeout := _timeout c;
     _message_receiver := _message_receiver c;
     _last_activity_timestamp := _last_activity_timestamp c;
     _was_message_received := _was_message_received c;
     _message_received_callback := _message_received_callback c;
     _received_messages := x; _prefetch := _prefetch c |}.

Definition amqp {A} (x : M AMQPClient.t A) : M t A := zoom client set_client x.

(** [ReceiveClient.__init__]: [self._prefetch = prefetch or 300]. *)
Definition __init__ (auth : Auth.t) (counter : TickCounter.t)
    (network : nat -> Connection.pass) (timeout : Z) (prefetch : option Z) : t :=
  {| client := AMQPClient.__init__ auth counter network;
     _timeout := timeout; _message_receiver := None;
     _last_activity_timestamp := None; _was_message_received := false;
     _message_received_callback := None; _received_messages := None;
     _prefetch := match prefetch with
                  | Some n => if n =? 0 then 300 else n
                  | None => 300
                  end |}.

(** [ReceiveClient._message_received(message)].  A [queue.Queue] object is
    true whatever it holds, so [if self._received_messages] asks whether
    the queue exists. *)
Definition _message_received (c : t) (message : Message.ref) : t :=
  let c := set_was_message_received true c in
  let wrapped_message :=
    match _message_received_callback c with
    | Some callback =>
        match callback message with
        | Some replaced => replaced
        | None => message
        end
    | None => message
    end in
  match _received_messages c with
  | Some q => set_received_messages (Some (q ++ [wrapped_message])) c
  | None => c
  end.

(** The callbacks of the receiver link: state changes, then deliveries. *)
Definition receiver_callbacks (p : Connection.pass) (c : t) : t :=
  match _message_receiver c with
  | None => c
  | Some r =>
      fold_left _message_received (Connection.arrived p)
        (match Connection.receiver_state p with
         | Some st => set_message_receiver (Some {| MessageReceiver._state := st |}) c
         | None => c
         end)
  end.

(** [ReceiveClient._client_ready]. *)
Definition _client_ready : M t bool :=
  c <- get ;;
  match _message_receiver c with
  | None =>
      match AMQPClient._session (client c) with
      | None => raise AttributeError
      | Some _ =>
          modify (set_message_receiver
                    (Some {| MessageReceiver._state := MessageReceiverState.Idle |})) ;;
          amqp (AMQPClient.emit ReceiverOpen) ;;
          ret false
      end
  | Some r =>
      if decide (MessageReceiver._state r = MessageReceiverState.Error) then
        raise AMQPConnectionError
      else if decide (MessageReceiver._state r <> MessageReceiverState.Open) then
        now <- amqp AMQPClient.get_current_ms ;;
        modify (set_last_activity_timestamp (Some now)) ;;
        ret false
      else ret true
  end.

(** Truthiness of [self._last_activity_timestamp]: [None] and [0] are
    false. *)
Definition truthy (x : option Z) : bool :=
  match x with Some z => negb (z =? 0) | None => false end.

(** [ReceiveClient._client_run]: [self._connection.work()] first, then the
    idle-timeout bookkeeping. *)
Definition _client_run : M t (option bool) :=
  p <- amqp AMQPClient.transport_pass ;;
  modify (receiver_callbacks p) ;;
  c <- get ;;
  (if 0 <? _timeout c then
     now <- amqp AMQPClient.get_current_ms ;;
     c <- get ;;
     if truthy (_last_activity_timestamp c) && negb (_was_message_received c) then
       let timespan := now - default 0 (_last_activity_timestamp c) in
       if _timeout c <=? timespan
       then amqp (modify (AMQPClient.set_shutdown true))
       else ret tt
     else modify (set_last_activity_timestamp (Some now))
   else ret tt) ;;
  modify (set_was_message_received false) ;;
  ret (Some true).

#[global] Instance ReceiveClient_Client : Client t := {
  super := client;
  set_super := set_client;
  client_ready := _client_ready;
  client_run := _client_run;
  callbacks := receiver_callbacks;
  super_set_super := fun _ _ => eq_refl
}.

(** [self._received_messages.qsize()]. *)
Definition qsize : M t Z :=
  c <- get ;;
  match _received_messages c with
  | None => raise AttributeError
  | Some q => ret (Z.of_nat (length q))
  end.

(** [while not self._received_messages.empty() and len(batch) < max_batch_size:
       batch.append(self._received_messages.get())]. *)
Fixpoint take_batch (q batch : list Message.ref) (max_batch_size : Z)
    : list Message.ref * list Message.ref :=
  match q with
  | [] => (q, batch)
  | m :: q' =>
      if Z.of_nat (length batch) <? max_batch_size
      then take_batch q' (batch ++ [m]) max_batch_size
      else (q, batch)
  end.

Definition drain (batch : list Message.ref) (max_batch_size : Z)
    : M t (list Message.ref) :=
  c <- get ;;
  match _received_messages c with
  | None => raise AttributeError
  | Some q =>
      let '(q', batch') := take_batch q batch max_batch_size in
      modify (set_received_messages (Some q')) ;;
      ret batch'
  end.

(** [if timeout > 0 and self._counter.get_current_ms() > timeout]: the
    clock is read only when a deadline was set. *)
Definition deadline_passed (timeout : Z) : M t bool :=
  if 0 <? timeout then
    now <- amqp AMQPClient.get_current_ms ;;
    ret (timeout <? now)
  else ret false.

(** The inner [while receiving and qsize() < max_batch_size] loop; the
    result is [(receiving, expired)]. *)
Fixpoint tick_until_queued (fuel : nat) (timeout max_batch_size : Z)
    (receiving : bool) : M t (bool * bool) :=
  again <- (if receiving then size <- qsize ;; ret (size <? max_batch_size)
            else ret false) ;;
  if again then
    match fuel with
    | O => diverge
    | S fuel' =>
        late <- deadline_passed timeout ;;
        if late then ret (receiving, true)
        else
          before <- qsize ;;
          r <- do_work ;;
          after <- qsize ;;
          let received := after - before in
          if (0 <? after) && (received =? 0) then ret (truth r, true)
          else tick_until_queued fuel' timeout max_batch_size (truth r)
    end
  else ret (receiving, false).

(** The outer [while receiving and not expired and len(batch) < max_batch_size]
    loop. *)
Fixpoint fill_batch (fuel : nat) (timeout max_batch_size : Z)
    (receiving expired : bool) (batch : list Message.ref)
    : M t (list Message.ref) :=
  if receiving && negb expired && (Z.of_nat (length batch) <? max_batch_size) then
    match fuel with
    | O => diverge
    | S fuel' =>
        flags <- tick_until_queued fuel timeout max_batch_size receiving ;;
        let '(receiving, expired) := flags in
        batch <- drain batch max_batch_size ;;
        fill_batch fuel' timeout max_batch_size receiving expired batch
    end
  else ret batch.

(** [max_batch_size = max_batch_size or self._prefetch]. *)
Definition effective_batch_size (max_batch_size : option Z) (c : t) : Z :=
  match max_batch_size with
  | Some n => if n =? 0 then _prefetch c else n
  | None => _prefetch c
  end.

(** [timeout = self._counter.get_current_ms() + timeout if timeout else 0]. *)
Definition batch_deadline (timeout : Z) : M t Z :=
  if timeout =? 0 then ret 0
  else
    now <- amqp AMQPClient.get_current_ms ;;
    ret (now + timeout).

(** [ReceiveClient.receive_message_batch]. *)
Definition receive_message_batch (max_batch_size : option Z)
    (on_message_received : option (Message.ref -> option Message.ref))
    (timeout : Z) (fuel : nat) : M t (list Message.ref) :=
  modify (set_message_received_callback on_message_received) ;;
  c <- get ;;
  let max_batch_size := effective_batch_size max_batch_size c in
  if _prefetch c <? max_batch_size then raise ValueError
  else
    timeout <- batch_deadline timeout ;;
    modify (fun c => set_received_messages
                       (Some (default [] (_received_messages c))) c) ;;
    amqp (AMQPClient.open None) ;;
    batch <- drain [] max_batch_size ;;
    if max_batch_size <=? Z.of_nat (length batch) then ret batch
    else fill_batch fuel timeout max_batch_size true false batch.

(** [ReceiveClient.close]. *)
Definition close : M t unit :=
  c <- get ;;
  match _message_receiver c with
  | Some _ =>
      amqp (AMQPClient.emit ReceiverDestroy) ;;
      modify (set_message_receiver None)
  | None => ret tt
  end ;;
  amqp AMQPClient.close ;;
  amqp (modify (AMQPClient.set_shutdown false)) ;;
  modify (set_last_activity_timestamp None) ;;
  modify (set_was_message_received false).
End ReceiveClient.

(** ** Reading the effect log *)

(** The destroy calls on the Connection, a Session or the CBS
    authenticator. *)
Definition is_core_destroy (e : event) : bool :=
  match e with
  | ConnectionDestroy | SessionDestroy _ | CbsAuthDestroy => true
  | _ => false
  end.
Definition core_destroys (l : list event) : list event :=
  List.filter is_core_destroy l.

(** ** The subclasses' [close], around the base [close]

    What [SendClient.close] and [ReceiveClient.close] do before calling
    [super().close()], and what [ReceiveClient.close] does after it. *)

Definition SendClient_before_close (c : SendClient.t) : SendClient.t :=
  match SendClient._message_sender c with
  | Some _ =>
      SendClient.set_message_sender None
        (SendClient.set_client
           (AMQPClient.set_log
              (AMQPClient.log (SendClient.client c) ++ [SenderDestroy])
              (SendClient.client c)) c)
  | None => c
  end.

Definition ReceiveClient_before_close (c : ReceiveClient.t) : ReceiveClient.t :=
  match ReceiveClient._message_receiver c with
  | Some _ =>
      ReceiveClient.set_message_receiver None
        (ReceiveClient.set_client
           (AMQPClient.set_log
              (AMQPClient.log (ReceiveClient.client c) ++ [ReceiverDestroy])
              (ReceiveClient.client c)) c)
  | None => c
  end.

Definition ReceiveClient_after_close (b : AMQPClient.t) (c : ReceiveClient.t)
    : ReceiveClient.t :=
  ReceiveClient.set_was_message_received false
    (ReceiveClient.set_last_activity_timestamp None
       (ReceiveClient.set_client (AMQPClient.set_shutdown false b) c)).

(** ** The send run step, one message

    The message as [send_pending] has it when it looks at the clock:
    already marked [WaitingForAck], the reading taken. *)
Definition marked (message : Message.ref) (c : SendClient.t) : SendClient.t :=
  snd (SendClient.amqp AMQPClient.get_current_ms
         (SendClient.update_message message
            (Message.set_state MessageState.WaitingForAck) c)).

(** The reading the next [get_current_ms()] of the client returns. *)
Definition current_time (c : SendClient.t) : Z :=
  TickCounter.readings (AMQPClient._counter (SendClient.client c))
    (TickCounter.reads (AMQPClient._counter (SendClient.client c))).

(** [(current_time - message.idle_time)/1000], in seconds. *)
Definition elapsed_time (message : Message.ref) (c : SendClient.t) : Q :=
  (inject_Z (current_time c - Message.idle_time (SendClient.messages c message))
   / inject_Z 1000)%Q.

(** What [_client_run] passes as [timeout] to [send_async]. *)
Definition time_budget (message : Message.ref) (c : SendClient.t) : Q :=
  if 0 <? SendClient._msg_timeout c
  then (inject_Z (SendClient._msg_timeout c) - elapsed_time message c)%Q
  else inject_Z 0.

(** ** The pending queue and the sender, in step

    A message state that ends a send. *)
Definition terminal (st : MessageState.t) : Prop :=
  st = MessageState.Complete \/ st = MessageState.Failed.

(** What a [SendClient] keeps true between calls, relative to a list
    [snapshot] of messages of interest: the sender owes a callback only for
    messages marked [WaitingForAck], each once; and a message of the
    snapshot is still pending unless its state is terminal. *)
Definition in_step (snapshot : list Message.ref) (c : SendClient.t) : Prop :=
  (forall s, SendClient._message_sender c = Some s ->
     NoDup (MessageSender.unsettled s) /\
     forall m, m ∈ MessageSender.unsettled s ->
       Message.state (SendClient.messages c m) = MessageState.WaitingForAck) /\
  (forall m, m ∈ snapshot ->
     m ∈ SendClient._pending_messages c \/
     terminal (Message.state (SendClient.messages c m))).

(** A run of [queue_message] calls, one per argument. *)
Definition queue_all (calls : list (list Message.ref)) : M SendClient.t unit :=
  for_each calls SendClient.queue_message.

(** ** Sample worlds *)

Module Sample.
Definition quiet_pass : Connection.pass :=
  {| Connection.sender_state := None; Connection.receiver_state := None;
     Connection.settled := []; Connection.arrived := [];
     Connection.refused := fun _ => false |}.

Definition clock (step : Z) : TickCounter.t :=
  {| TickCounter.readings := fun n => step * Z.of_nat n; TickCounter.reads := O |}.

Definition cbs_object (status : CBSAuthStatus.t) : CBSTokenAuth.t :=
  {| CBSTokenAuth.status_feed := fun _ => Some status;
     CBSTokenAuth.polls := O; CBSTokenAuth.calls := [] |}.

(** An authenticator whose every poll reports [status]. *)
Definition authenticator (status : CBSAuthStatus.t) (retries : Z) : SASTokenAuth.t :=
  SASTokenAuth.__init__ (TokenRetryPolicy.__init__ retries 0)
    (Some "key-name"%string) (Some "key"%string) (cbs_object status).

(** A management link that never completes a request, with a clock that
    advances 60 ms per reading. *)
Definition silent_mgmt : MgmtOperation.t :=
  {| MgmtOperation._responses := ∅; MgmtOperation.mgmt_error := None;
     MgmtOperation._counter := clock 60; MgmtOperation.submitted := [];
     MgmtOperation.network :=
       fun _ => {| MgmtOperation.completed := []; MgmtOperation.link_error := false |};
     MgmtOperation.works := O |}.

(** A receive client that was opened over CBS, has reached its idle
    timeout (so [_client_run] set [_shutdown]) and whose CBS object now
    reports [status]. *)
Definition shut_down_receiver (status : CBSAuthStatus.t) : ReceiveClient.t :=
  let c := ReceiveClient.__init__ (Auth.CBS (authenticator status 3))
             (clock 1) (fun _ => quiet_pass) 1000 None in
  ReceiveClient.set_client
    (AMQPClient.set_shutdown true
       (snd (AMQPClient.open None (ReceiveClient.client c)))) c.

(** A source with messages [7] and [8] ready: the first pass opens the
    receiver link, the second delivers both, later passes bring nothing. *)
Definition two_ready (n : nat) : Connection.pass :=
  match n with
  | O => {| Connection.sender_state := None;
            Connection.receiver_state := Some MessageReceiverState.Open;
            Connection.settled := []; Connection.arrived := [];
            Connection.refused := fun _ => false |}
  | S O => {| Connection.sender_state := None; Connection.receiver_state := None;
              Connection.settled := []; Connection.arrived := [7; 8]%nat;
              Connection.refused := fun _ => false |}
  | _ => quiet_pass
  end.

(** [ReceiveClient(source, prefetch=prefetch)] in front of that source. *)
Definition receiver (prefetch : Z) : ReceiveClient.t :=
  ReceiveClient.__init__ Auth.SASL (clock 1) two_ready 0 (Some prefetch).

(** The scenario of the spec: exactly three messages available and no
    more arriving.  The link opens on the first pass, the three messages
    come with the second, and nothing follows. *)
Definition three_then_nothing (n : nat) : Connection.pass :=
  match n with
  | O => {| Connection.sender_state := None;
            Connection.receiver_state := Some MessageReceiverState.Open;
            Connection.settled := []; Connection.arrived := [];
            Connection.refused := fun _ => false |}
  | S O => {| Connection.sender_state := None; Connection.receiver_state := None;
              Connection.settled := []; Connection.arrived := [1; 2; 3]%nat;
              Connection.refused := fun _ => false |}
  | _ => quiet_pass
  end.

Definition stalled_receiver : ReceiveClient.t :=
  ReceiveClient.__init__ Auth.SASL (clock 1) three_then_nothing 0 (Some 10).

(** That client inside [receive_message_batch(max_batch_size=10)], after
    the two passes that opened the link and queued the three messages. *)
Definition three_queued : ReceiveClient.t :=
  let opened :=
    ReceiveClient.set_client
      (snd (AMQPClient.open None (ReceiveClient.client stalled_receiver)))
      (ReceiveClient.set_received_messages (Some []) stalled_receiver) in
  snd (do_work (snd (do_work opened))).

(** A send link that opens on the first pass and, on the second, settles
    message [1] and rejects message [2]. *)
Definition settle_two (n : nat) : Connection.pass :=
  match n with
  | O => {| Connection.sender_state := Some MessageSenderState.Open;
            Connection.receiver_state := None;
            Connection.settled := []; Connection.arrived := [];
            Connection.refused := fun _ => false |}
  | S O => {| Connection.sender_state := None; Connection.receiver_state := None;
              Connection.settled := [(1%nat, MessageSendResult.Ok);
                                     (2%nat, MessageSendResult.Error)];
              Connection.arrived := []; Connection.refused := fun _ => false |}
  | _ => quiet_pass
  end.

Definition fresh_message : Message.t :=
  {| Message.state := MessageState.WaitingToBeSent; Message.idle_time := 0 |}.

(** [SendClient(target, msg_timeout=msg_timeout)] in front of that link;
    the clock advances [step] ms per reading. *)
Definition sender (msg_timeout step : Z) : SendClient.t :=
  SendClient.__init__ Auth.SASL (clock step) settle_two msg_timeout
    (fun _ => fresh_message).

(** A client with [msg_timeout=1] whose link is open and whose message [1]
    was queued at reading 0; the clock now advances 1500 ms per reading. *)
Definition stalled_sender : SendClient.t :=
  SendClient.set_pending_messages [1%nat]
    (SendClient.set_message_sender
       (Some {| MessageSender._state := MessageSenderState.Open;
                MessageSender.unsettled := [] |})
       (SendClient.set_client
          (AMQPClient.set_counter
             {| TickCounter.readings := fun n => 1500 * Z.of_nat n;
                TickCounter.reads := 1 |}
             (snd (AMQPClient.open None (SendClient.client (sender 1 1500)))))
          (sender 1 1500))).
End Sample.
(** * More of the client code *)

(** ** The async gate ([uamqp/async/client_async.py]) *)

Module AMQPClientAsync.
(** [await self._auth.handle_token_async()]. *)
Definition handle_token_async : M AMQPClient.t (bool * bool) :=
  c <- get ;;
  match AMQPClient._auth c with
  | Auth.SASL => raise AttributeError
  | Auth.CBS a =>
      zoom (fun _ => a) (fun a' c => AMQPClient.set_auth (Auth.CBS a') c)
        SASTokenAuth.handle_token_async
  end.
End AMQPClientAsync.

(** [AMQPClientAsync.do_work_async]: the steps of [do_work], awaited. *)
Definition do_work_async {C} `{Client C} : M C (option bool) :=
  c <- get ;;
  match AMQPClient._connection (super c) with
  | None => raise AttributeError
  | Some conn =>
      status <- (if Connection.cbs conn
                 then on_super AMQPClientAsync.handle_token_async
                 else ret (false, false)) ;;
      let '(timeout, auth_in_progress) := status in
      c <- get ;;
      if AMQPClient._shutdown (super c) then ret (Some false)
      else if timeout then raise TimeoutError
      else if auth_in_progress then connection_work ;; ret (Some true)
      else
        ready <- client_ready ;;
        if negb ready then connection_work ;; ret (Some true)
        else client_run
  end.

(** ** [AMQPClient.mgmt_request]

    The [while True] loop that waits for the token; [timeout] and
    [auth_in_progress] are the two local variables, which keep their value
    when the connection has no CBS authenticator. *)
Fixpoint await_token {C} `{Client C} (fuel : nat) (timeout auth_in_progress : bool)
    : M C unit :=
  c <- get ;;
  match AMQPClient._connection (super c) with
  | None => raise AttributeError
  | Some conn =>
      status <- (if Connection.cbs conn then on_super AMQPClient.handle_token
                 else ret (timeout, auth_in_progress)) ;;
      let '(timeout, auth_in_progress) := status in
      if timeout then raise TimeoutError
      else if auth_in_progress then
        match fuel with
        | O => diverge
        | S fuel' =>
            connection_work ;;
            await_token fuel' timeout auth_in_progress
        end
      else ret tt
  end.

(** [AMQPClient.mgmt_request]; [session_mgmt_request] is the call
    [self._session.mgmt_request(...)] it ends with, whose class is not part
    of these sources. *)
Definition mgmt_request {C} `{Client C} {A} (session_mgmt_request : M C A)
    (fuel : nat) : M C A :=
  await_token fuel false false ;;
  c <- get ;;
  match AMQPClient._session (super c) with
  | None => raise ValueError
  | Some _ => session_mgmt_request
  end.

(** ** [SendClient.send_message] *)

Module SendMessage.
Section WithMessageClass.
Variable _on_message_sent :
  MessageSendResult.t -> option exn -> Message.t -> Message.t.
(** [constants.DONE_STATES], a constant that is not part of these sources. *)
Variable DONE_STATES : list MessageState.t.

(** [[m for m in pending_batch if m.state not in constants.DONE_STATES]]. *)
Definition not_done (pending_batch : list Message.ref) (c : SendClient.t)
    : list Message.ref :=
  List.filter
    (fun m => negb (bool_decide
                      (Message.state (SendClient.messages c m) ∈ DONE_STATES)))
    pending_batch.

(** [[m for m in pending_batch if m.state == constants.MessageState.Failed]]. *)
Definition failed (pending_batch : list Message.ref) (c : SendClient.t)
    : list Message.ref :=
  List.filter
    (fun m => bool_decide
                (Message.state (SendClient.messages c m) = MessageState.Failed))
    pending_batch.

(** [any(l)] on a list of message objects, each of which is true. *)
Definition any (l : list Message.ref) : bool :=
  match l with [] => false | _ :: _ => true end.

(** [while any([...]): self.do_work()]. *)
Fixpoint until_done (fuel : nat) (pending_batch : list Message.ref)
    : M SendClient.t unit :=
  c <- get ;;
  if any (not_done pending_batch c) then
    match fuel with
    | O => diverge
    | S fuel' =>
        do_work (H := SendClient.SendClient_Client _on_message_sent) ;;
        until_done fuel' pending_batch
    end
  else ret tt.

(** [SendClient.send_message(messages, close_on_done)]; the first argument
    is [messages.gather()].  The first loop stamps and queues each message
    as [queue_message] does, and [pending_batch] ends up equal to
    [gathered]. *)
Definition send_message (gathered : list Message.ref) (close_on_done : bool)
    (fuel : nat) : M SendClient.t unit :=
  for_each gathered
    (fun message =>
       now <- SendClient.amqp AMQPClient.get_current_ms ;;
       modify (SendClient.update_message message (Message.set_idle_time now)) ;;
       modify (fun c => SendClient.set_pending_messages
                          (SendClient._pending_messages c ++ [message]) c)) ;;
  SendClient.amqp (AMQPClient.open None) ;;
  try_finally
    (until_done fuel gathered ;;
     c <- get ;;
     if any (failed gathered c) then raise MessageSendFailed else ret tt)
    (if close_on_done then SendClient.close else ret tt).
End WithMessageClass.
End SendMessage.

(** ** [SendClientAsync._client_run] *)

Module SendClientAsync.
Section WithMessageClass.
Variable _on_message_sent :
  MessageSendResult.t -> option exn -> Message.t -> Message.t.

(** The body of the loop of [SendClientAsync._client_run]: the expiry test
    reads [elapsed_time/1000 > self._msg_timeout], the budget
    [self._msg_timeout - elapsed_time]. *)
Definition send_pending (message : Message.ref) : M SendClient.t unit :=
  c <- get ;;
  let state := Message.state (SendClient.messages c message) in
  if bool_decide (state ∈ [MessageState.Complete; MessageState.Failed]) then
    modify (fun c => SendClient.set_pending_messages
                       (list_remove_first message (SendClient._pending_messages c)) c)
  else if decide (state = MessageState.WaitingToBeSent) then
    modify (SendClient.update_message message
              (Message.set_state MessageState.WaitingForAck)) ;;
    try_except_Exception
      (current_time <- SendClient.amqp AMQPClient.get_current_ms ;;
       c <- get ;;
       let elapsed_time :=
         (inject_Z (current_time
                    - Message.idle_time (SendClient.messages c message))
          / inject_Z 1000)%Q in
       if (0 <? SendClient._msg_timeout c)
          && Qlt_bool (inject_Z (SendClient._msg_timeout c))
               (elapsed_time / inject_Z 1000)%Q then
         modify (SendClient.update_message message
                   (_on_message_sent MessageSendResult.Timeout None))
       else
         let timeout :=
           if 0 <? SendClient._msg_timeout c
           then (inject_Z (SendClient._msg_timeout c) - elapsed_time)%Q
           else inject_Z 0 in
         SendClient.send_async message timeout)
      (fun exp =>
         modify (SendClient.update_message message
                   (_on_message_sent MessageSendResult.Error (Some exp))))
  else ret tt.

(** [SendClientAsync._client_run]. *)
Definition _client_run : M SendClient.t (option bool) :=
  c <- get ;;
  for_each (SendClient._pending_messages c) send_pending ;;
  p <- SendClient.amqp AMQPClient.transport_pass ;;
  modify (SendClient.sender_callbacks _on_message_sent p) ;;
  ret (Some true).
End WithMessageClass.
End SendClientAsync.

(** ** [ReceiveClient.receive_messages] *)

Module ReceiveMessages.
(** [while receiving: receiving = self.do_work()]. *)
Fixpoint until_closed (fuel : nat) : M ReceiveClient.t unit :=
  match fuel with
  | O => diverge
  | S fuel' =>
      receiving <- do_work ;;
      if truth receiving then until_closed fuel' else ret tt
  end.

(** [ReceiveClient.receive_messages(on_message_received)].  The loop ends
    with [receiving] false on both exits (a false result of [do_work], or
    the [except] clause), so the [finally] clause always closes. *)
Definition receive_messages
    (on_message_received : option (Message.ref -> option Message.ref))
    (fuel : nat) : M ReceiveClient.t unit :=
  ReceiveClient.amqp (AMQPClient.open None) ;;
  modify (ReceiveClient.set_message_received_callback on_message_received) ;;
  try_finally (until_closed fuel) ReceiveClient.close.

(** [ReceiveClient.receive_messages_iter(on_message_received)], up to the
    generator object it returns: the callback is stored and the queue is
    replaced by a new, empty one. *)
Definition receive_messages_iter
    (on_message_received : option (Message.ref -> option Message.ref))
    : M ReceiveClient.t unit :=
  modify (ReceiveClient.set_message_received_callback on_message_received) ;;
  modify (ReceiveClient.set_received_messages (Some [])).
End ReceiveMessages.

(** ** [AsyncMessageIter] ([uamqp/async/client_async.py])

    The iterator drives a [ReceiveClientAsync], whose [open_async],
    [_client_ready], [_client_run] and [close_async] have the bodies of
    [ReceiveClient.open], [_client_ready], [_client_run] and [close] with
    the C calls awaited; the client state is therefore a
    [ReceiveClient.t]. *)

Module AsyncMessageIter.
Record t : Type := { _client : ReceiveClient.t; receiving : bool }.

Definition set_client (x : ReceiveClient.t) (i : t) : t :=
  {| _client := x; receiving := receiving i |}.
Definition set_receiving (x : bool) (i : t) : t :=
  {| _client := _client i; receiving := x |}.

Definition on_client {A} (m : M ReceiveClient.t A) : M t A :=
  zoom _client set_client m.

(** [AsyncMessageIter.__init__]. *)
Definition __init__ (rcv_client : ReceiveClient.t) : t :=
  {| _client := rcv_client; receiving := true |}.

(** [self._client._received_messages.empty()]. *)
Definition empty : M t bool :=
  i <- get ;;
  match ReceiveClient._received_messages (_client i) with
  | None => raise AttributeError
  | Some q => ret (match q with [] => true | _ :: _ => false end)
  end.

(** [while self.receiving and self._client._received_messages.empty():
       self.receiving = await self._client.do_work_async()]. *)
Fixpoint until_message (fuel : nat) : M t unit :=
  i <- get ;;
  again <- (if receiving i then empty else ret false) ;;
  if again then
    match fuel with
    | O => diverge
    | S fuel' =>
        r <- on_client do_work_async ;;
        modify (set_receiving (truth r)) ;;
        until_message fuel'
    end
  else ret tt.

(** The [try] block; [Return None] stands for
    [raise StopAsyncIteration("Message receive closing.")]. *)
Definition try_block (fuel : nat) : M t (option Message.ref) :=
  until_message fuel ;;
  e <- empty ;;
  if negb e then
    i <- get ;;
    match ReceiveClient._received_messages (_client i) with
    | Some (message :: q) =>
        on_client (modify (ReceiveClient.set_received_messages (Some q))) ;;
        ret (Some message)
    | _ => raise AttributeError
    end
  else ret None.

(** [finally: if not self.receiving: await self._client.close_async()]. *)
Definition finally_block : M t unit :=
  i <- get ;;
  if negb (receiving i) then on_client ReceiveClient.close else ret tt.

(** [AsyncMessageIter.__anext__]: the result is the message, or [None]
    when the call raises [StopAsyncIteration].  The [except] clause clears
    [receiving] on that exception as on any other. *)
Definition __anext__ (fuel : nat) : M t (option Message.ref) :=
  on_client (ReceiveClient.amqp (AMQPClient.open None)) ;;
  fun i =>
    match try_block fuel i with
    | (Return (Some message), i1) =>
        match finally_block i1 with
        | (Return _, i2) => (Return (Some message), i2)
        | (Raise e, i2) => (Raise e, i2)
        | (OutOfFuel, i2) => (OutOfFuel, i2)
        end
    | (Return None, i1) =>
        match finally_block (set_receiving false i1) with
        | (Return _, i2) => (Return None, i2)
        | (Raise e, i2) => (Raise e, i2)
        | (OutOfFuel, i2) => (OutOfFuel, i2)
        end
    | (Raise e, i1) =>
        match finally_block (set_receiving false i1) with
        | (Return _, i2) => (Raise e, i2)
        | (Raise e', i2) => (Raise e', i2)
        | (OutOfFuel, i2) => (OutOfFuel, i2)
        end
    | (OutOfFuel, i1) => (OutOfFuel, i1)
    end.
End AsyncMessageIter.

(** ** Token lifetime ([uamqp/authentication.py])

    [time.time()]: the next reading of the wall clock, in seconds.
    Readings are rationals; the rounding of floats is not tracked. *)
Module WallClock.
Record t : Type := { readings : nat -> Q; reads : nat }.
Definition time : M t Q :=
  fun c => (Return (readings c (reads c)),
            {| readings := readings c; reads := S (reads c) |}).
End WallClock.

(** [datetime.timedelta] as Python normalises it: any number of [days] and
    [0 <= seconds < 86400]; microseconds are not tracked.  [seconds] is
    what the attribute [.seconds] reads. *)
Module timedelta.
Record t : Type := { days : Z; seconds : Z }.
(** [datetime.timedelta(seconds=n)] for an integer [n]. *)
Definition of_seconds (n : Z) : t :=
  {| days := n / 86400; seconds := n mod 86400 |}.
(** A [timedelta] is false exactly when it is zero. *)
Definition truthy (d : t) : bool := negb ((days d =? 0) && (seconds d =? 0)).
End timedelta.

Module SASTokenLifetime.
(** The [expires_at] / [expires_in] block of [SASTokenAuth.__init__]
    (lines 325-335); the result is [self.expires_at]. *)
Definition __init__ (expires_in : option timedelta.t) (expires_at : option Q)
    : M WallClock.t Q :=
  let at_given :=
    match expires_at with Some x => negb (Qeq_bool x (inject_Z 0)) | None => false end in
  let in_given :=
    match expires_in with Some d => timedelta.truthy d | None => false end in
  if negb at_given && negb in_given then raise ValueError
  else if negb at_given then
    match expires_in with
    | Some d =>
        now <- WallClock.time ;;
        ret (now + inject_Z (timedelta.seconds d))%Q
    | None => raise AttributeError
    end
  else
    match expires_at with
    | Some x =>
        now <- WallClock.time ;;
        if Qlt_bool (x - now)%Q (inject_Z 1) then raise ValueError else ret x
    | None => raise AttributeError
    end.

(** [SASTokenAuth.from_shared_access_key(uri, key_name, key, expiry)], as
    far as the lifetime goes; [AUTH_EXPIRATION_SECS] is a constant that is
    not part of these sources, and the token string built by
    [utils.create_sas_token] plays no part in it. *)
Definition from_shared_access_key (AUTH_EXPIRATION_SECS : Z) (expiry : option Z)
    : M WallClock.t Q :=
  let expires_in :=
    timedelta.of_seconds
      (match expiry with
       | Some e => if e =? 0 then AUTH_EXPIRATION_SECS else e
       | None => AUTH_EXPIRATION_SECS
       end) in
  now <- WallClock.time ;;
  let expires_at := (now + inject_Z (timedelta.seconds expires_in))%Q in
  __init__ (Some expires_in) (Some expires_at).
End SASTokenLifetime.

(** [b'] was reached from [b] with at most one call of
    [self._connection.work()]. *)
Definition at_most_one_pass (b b' : AMQPClient.t) : Prop :=
  (AMQPClient.works b <= AMQPClient.works b' <= S (AMQPClient.works b))%nat.

(** [b'] holds the connection and the session that [b] holds, the same
    [_ext_connection] flag and the same kind of authentication. *)
Definition same_link (b b' : AMQPClient.t) : Prop :=
  AMQPClient._connection b' = AMQPClient._connection b /\
  AMQPClient._session b' = AMQPClient._session b /\
  AMQPClient._ext_connection b' = AMQPClient._ext_connection b /\
  Auth.is_cbs (AMQPClient._auth b') = Auth.is_cbs (AMQPClient._auth b).

(** The client is open the way [open()] leaves it: it has a session and a
    connection, and a connection with a CBS object goes with a CBS
    authentication. *)
Definition opened (b : AMQPClient.t) : Prop :=
  is_Some (AMQPClient._session b) /\
  exists conn, AMQPClient._connection b = Some conn /\
               (Connection.cbs conn = true -> Auth.is_cbs (AMQPClient._auth b) = true).

(** ** The receive queue

    [wrapped_message] of [ReceiveClient._message_received]: what the stored
    callback returns for the message, or the message itself. *)
Definition wrapped_message
    (callback : option (Message.ref -> option Message.ref))
    (message : Message.ref) : Message.ref :=
  match callback with
  | Some cb => match cb message with Some replaced => replaced | None => message end
  | None => message
  end.

(** The queue of [c'] is the queue of [c] with messages put at its end (and
    there is none in [c'] if there is none in [c]). *)
Definition queue_extends (c c' : ReceiveClient.t) : Prop :=
  exists delivered,
    ReceiveClient._received_messages c'
    = (fun q => q ++ delivered) <$> ReceiveClient._received_messages c.

(** ** More scenarios *)

Module Scenario.
(** A plain client that was never opened. *)
Definition closed_client : AMQPClient.t :=
  AMQPClient.__init__ Auth.SASL (Sample.clock 1) (fun _ => Sample.quiet_pass).

(** A value for [constants.DONE_STATES]. *)
Definition DONE_STATES : list MessageState.t :=
  [MessageState.Complete; MessageState.Failed].

(** A send client without a message timeout whose link is open, with
    messages [1] and [2] pending. *)
Definition ready_sender : SendClient.t :=
  SendClient.set_pending_messages [1; 2]%nat
    (SendClient.set_message_sender
       (Some {| MessageSender._state := MessageSenderState.Open;
                MessageSender.unsettled := [] |})
       (SendClient.set_client
          (snd (AMQPClient.open None (SendClient.client (Sample.sender 0 1))))
          (Sample.sender 0 1))).

(** [ReceiveClient(source, timeout=1000)] on a clock that advances 600 ms
    per reading: the link opens, two messages arrive, then nothing. *)
Definition idle_receiver : ReceiveClient.t :=
  ReceiveClient.__init__ Auth.SASL (Sample.clock 600) Sample.two_ready 1000 None.

(** A management link whose open failed. *)
Definition failed_mgmt : MgmtOperation.t :=
  MgmtOperation.set_mgmt_error (Some MgmtOperation.OpenFailed) Sample.silent_mgmt.

(** A management link with the request ["op-0"] still waiting. *)
Definition busy_mgmt : MgmtOperation.t :=
  MgmtOperation.set_responses (<["op-0"%string := None]> ∅) Sample.silent_mgmt.

(** A wall clock that advances one second per reading. *)
Definition wall_clock : WallClock.t :=
  {| WallClock.readings := fun n => inject_Z (1000 + Z.of_nat n);
     WallClock.reads := O |}.

(** The iterator [receive_messages_iter_async] returns for a receive
    client that has reached its idle timeout. *)
Definition finished_iterator : AsyncMessageIter.t :=
  AsyncMessageIter.__init__
    (snd (ReceiveMessages.receive_messages_iter None
            (Sample.shut_down_receiver CBSAuthStatus.Ok))).
End Scenario.
(** * Properties *)

(** ** Running the monad *)

Ltac run :=
  unfold bind, ret, raise, diverge, get, gets, modify, zoom, try_except,
    try_finally, try_except_Exception in *;
  cbn beta iota zeta delta [fst snd] in *.

(** ** CBS token handling *)

Section HandleToken.
Import SASTokenAuth.

Lemma poll_frame (inv : exn) (a : t) :
  let a' := snd (poll_and_dispatch inv a) in
  _retry_policy a' = _retry_policy a /\
  CBSTokenAuth.status_feed (_cbs_auth a') = CBSTokenAuth.status_feed (_cbs_auth a) /\
  CBSTokenAuth.polls (_cbs_auth a') = S (CBSTokenAuth.polls (_cbs_auth a)).
Proof.
  unfold poll_and_dispatch, next_status, dispatch, update_token, cbs,
    CBSTokenAuth.get_status, CBSTokenAuth.record.
  run. destruct (CBSTokenAuth.status_feed _ _) as [[]|]; simpl; auto.
  - destruct (negb _ || negb _); simpl; auto.
  - destruct (_ <=? _); simpl; auto.
Qed.

Lemma poll_Error_retry (inv : exn) (a : t) :
  next_status a = Some CBSAuthStatus.Error ->
  retries a < TokenRetryPolicy.retries (_retry_policy a) ->
  fst (poll_and_dispatch inv a) = Return (false, true) /\
  retries (snd (poll_and_dispatch inv a)) = retries a + 1.
Proof.
  unfold poll_and_dispatch, next_status, dispatch, cbs,
    CBSTokenAuth.get_status, CBSTokenAuth.record.
  intros Hs Hlt. run. rewrite Hs. simpl.
  destruct (Z.leb_spec (TokenRetryPolicy.retries (_retry_policy a)) (retries a));
    [lia | simpl; auto].
Qed.

Lemma poll_Error_exhausted (inv : exn) (a : t) :
  next_status a = Some CBSAuthStatus.Error ->
  TokenRetryPolicy.retries (_retry_policy a) <= retries a ->
  fst (poll_and_dispatch inv a) = Raise TokenAuthFailure /\
  retries (snd (poll_and_dispatch inv a)) = retries a.
Proof.
  unfold poll_and_dispatch, next_status, dispatch, cbs,
    CBSTokenAuth.get_status, CBSTokenAuth.record.
  intros Hs Hle. run. rewrite Hs. simpl.
  destruct (Z.leb_spec (TokenRetryPolicy.retries (_retry_policy a)) (retries a));
    [simpl; auto | lia].
Qed.

Lemma poll_retries_step (inv : exn) (a : t) :
  retries (snd (poll_and_dispatch inv a)) = retries a \/
  retries (snd (poll_and_dispatch inv a)) = retries a + 1.
Proof.
  unfold poll_and_dispatch, next_status, dispatch, update_token, cbs,
    CBSTokenAuth.get_status, CBSTokenAuth.record.
  run. destruct (CBSTokenAuth.status_feed _ _) as [[]|]; simpl; auto.
  - destruct (negb _ || negb _); simpl; auto.
  - destruct (_ <=? _); simpl; auto.
Qed.

Lemma after_calls_S (h : M t (bool * bool)) (n : nat) (a : t) :
  after_calls h (S n) a = snd (h (after_calls h n a)).
Proof. reflexivity. Qed.

(** After [k <= N] polls that all saw [Error], a counter that started at
    zero stands at [k]. *)
Lemma after_Error_calls (inv : exn) (a : t) (N : nat) :
  retries a = 0 ->
  TokenRetryPolicy.retries (_retry_policy a) = Z.of_nat N ->
  (forall k, (k <= N)%nat ->
     CBSTokenAuth.status_feed (_cbs_auth a) (CBSTokenAuth.polls (_cbs_auth a) + k)
     = Some CBSAuthStatus.Error) ->
  forall k, (k <= N)%nat ->
    let a' := after_calls (poll_and_dispatch inv) k a in
    retries a' = Z.of_nat k /\
    _retry_policy a' = _retry_policy a /\
    next_status a' = Some CBSAuthStatus.Error.
Proof.
  intros H0 HN Hfeed k Hk. simpl.
  assert (retries (after_calls (poll_and_dispatch inv) k a) = Z.of_nat k /\
          _retry_policy (after_calls (poll_and_dispatch inv) k a) = _retry_policy a /\
          CBSTokenAuth.status_feed (_cbs_auth (after_calls (poll_and_dispatch inv) k a))
          = CBSTokenAuth.status_feed (_cbs_auth a) /\
          CBSTokenAuth.polls (_cbs_auth (after_calls (poll_and_dispatch inv) k a))
          = (CBSTokenAuth.polls (_cbs_auth a) + k)%nat) as (Hr & Hp & Hf & Hn).
  { induction k as [|k IH].
    - simpl. rewrite Nat.add_0_r. auto.
    - destruct IH as (Hr & Hp & Hf & Hn); [lia|].
      rewrite after_calls_S.
      destruct (poll_frame inv (after_calls (poll_and_dispatch inv) k a))
        as (Hp' & Hf' & Hn').
      destruct (poll_Error_retry inv (after_calls (poll_and_dispatch inv) k a))
        as [_ Hr'].
      + unfold next_status. rewrite Hf, Hn. apply Hfeed. lia.
      + rewrite Hr, Hp, HN. lia.
      + rewrite Hr', Hr, Hp', Hp, Hf', Hf, Hn', Hn.
        repeat split; [lia | lia]. }
  repeat split; auto.
  unfold next_status. rewrite Hf, Hn. apply Hfeed, Hk.
Qed.

(** C1 (as the code behaves): when the poll reports [Failure], both
    [handle_token] and [handle_token_async] return [(False, False)]
    normally; the [AuthenticationException] object is built but never
    raised, and nothing but the poll position changes. *)
Theorem handle_token_Failure_returns_normally (a : t) :
  next_status a = Some CBSAuthStatus.Failure ->
  handle_token a
  = (Return (false, false), set_cbs_auth (snd (CBSTokenAuth.get_status (_cbs_auth a))) a)
  /\ handle_token_async a
  = (Return (false, false), set_cbs_auth (snd (CBSTokenAuth.get_status (_cbs_auth a))) a).
Proof.
  unfold handle_token, handle_token_async, poll_and_dispatch, next_status, cbs,
    CBSTokenAuth.get_status.
  intros Hs. run. rewrite Hs. split; reflexivity.
Qed.


(** The counter over a run of calls. *)
Lemma after_calls_retries_mono (inv : exn) (a : t) (n m : nat) :
  (n <= m)%nat ->
  retries (after_calls (poll_and_dispatch inv) n a)
  <= retries (after_calls (poll_and_dispatch inv) m a).
Proof.
  induction 1 as [|m Hle IH]; [lia|].
  rewrite after_calls_S.
  destruct (poll_retries_step inv (after_calls (poll_and_dispatch inv) m a)); lia.
Qed.

(** C9: the retry counter of one authenticator never decreases: a single
    call leaves it as it is or adds one, whatever the status (an [Ok]
    after a successful retry leaves it as it is), so over any run of calls
    it is monotone and a counter above zero never returns to zero; a
    counter of 0 is what [__init__] sets. *)
Theorem retries_monotone :
  (forall policy u p c, retries (__init__ policy u p c) = 0) /\
  (forall a, retries a <= retries (snd (handle_token a)) /\
             retries a <= retries (snd (handle_token_async a))) /\
  (forall a, next_status a = Some CBSAuthStatus.Ok ->
             retries (snd (handle_token a)) = retries a /\
             retries (snd (handle_token_async a)) = retries a) /\
  (forall a n m, (n <= m)%nat ->
     retries (after_calls handle_token n a) <= retries (after_calls handle_token m a) /\
     retries (after_calls handle_token_async n a)
     <= retries (after_calls handle_token_async m a)) /\
  (forall a n, 0 < retries a ->
     0 < retries (after_calls handle_token n a) /\
     0 < retries (after_calls handle_token_async n a)).
Proof.
  split; [reflexivity|]. split; [|split; [|split]].
  - intros a. unfold handle_token, handle_token_async.
    destruct (poll_retries_step AuthenticationException a),
             (poll_retries_step ValueError a); lia.
  - intros a Hs.
    unfold handle_token, handle_token_async, poll_and_dispatch, next_status, cbs,
      CBSTokenAuth.get_status in *.
    run. rewrite Hs. split; reflexivity.
  - intros a n m Hle. split; apply after_calls_retries_mono, Hle.
  - intros a n Hpos.
    pose proof (after_calls_retries_mono AuthenticationException a 0 n).
    pose proof (after_calls_retries_mono ValueError a 0 n).
    unfold handle_token, handle_token_async. simpl in *. lia.
Qed.
End HandleToken.

(** ** Management operations *)

Section Execute.
Import MgmtOperation.

(** A [TimeoutError] out of the waiting loop leaves the placeholder of the
    request where it was. *)
Lemma wait_response_timeout (fuel : nat) (operation_id : string)
    (start_time timeout : Z) (op : t) :
  fst (wait_response fuel operation_id start_time timeout op) = Raise TimeoutError ->
  _responses (snd (wait_response fuel operation_id start_time timeout op))
    !! operation_id = Some None.
Proof.
  revert op. induction fuel as [|fuel IH]; intros op; simpl; run.
  - destruct (_responses op !! operation_id) as [[m|]|] eqn:E; simpl; try discriminate.
    destruct (bool_decide _); simpl; discriminate.
  - destruct (_responses op !! operation_id) as [[m|]|] eqn:E; simpl; try discriminate.
    destruct (bool_decide _); simpl; try discriminate.
    unfold get_current_ms, TickCounter.get_current_ms. run.
    destruct (0 <? timeout); simpl.
    + destruct (timeout <=? _); simpl.
      * intros _. exact E.
      * apply IH.
    + apply IH.
Qed.

(** C2 (as the code behaves): when [execute] (or [execute_async]) raises
    [TimeoutError], the operation id is still a key of the
    pending-response map, bound to its [None] placeholder: the timeout
    path does not remove the entry. *)
Theorem execute_timeout_keeps_entry (operation_id : string) (timeout : Z)
    (fuel : nat) (op : t) :
  fst (execute operation_id timeout fuel op) = Raise TimeoutError ->
  _responses (snd (execute operation_id timeout fuel op)) !! operation_id = Some None
  /\ _responses (snd (execute_async operation_id timeout fuel op)) !! operation_id
     = Some None.
Proof.
  unfold execute_async, execute, get_current_ms, TickCounter.get_current_ms. run.
  intros H.
  match type of H with
  | context [wait_response ?f ?i ?s ?t ?o] =>
      pose proof (wait_response_timeout f i s t o) as Hw;
      destruct (wait_response f i s t o) as [[[]|e|] op1] eqn:E; simpl in *
  end; try discriminate.
  - destruct (mgmt_error op1) as [[]|]; simpl in *; try discriminate.
    destruct (_responses op1 !! operation_id); simpl in *; discriminate.
  - injection H as ->. split; apply Hw; reflexivity.
Qed.

(** The success path pops the entry. *)
Lemma execute_return_pops (operation_id : string) (timeout : Z)
    (fuel : nat) (op : t) (r : option Message.ref) :
  fst (execute operation_id timeout fuel op) = Return r ->
  _responses (snd (execute operation_id timeout fuel op)) !! operation_id = None.
Proof.
  unfold execute, get_current_ms, TickCounter.get_current_ms. run.
  match goal with
  | |- context [wait_response ?f ?i ?s ?t ?o] =>
      destruct (wait_response f i s t o) as [[[]|e|] op1] eqn:E; simpl
  end; try discriminate.
  destruct (mgmt_error op1) as [[]|]; simpl; try discriminate.
  destruct (_responses op1 !! operation_id); simpl; try discriminate.
  intros _. apply lookup_delete_eq.
Qed.
End Execute.

(** ** The [do_work] gate *)

Section DoWork.
Context {C : Type} `{Client C}.

(** C10 (amended): on an open client whose shutdown flag is set, [do_work]
    returns [False] with no transport pass and no run step, provided the
    [handle_token] call it makes first (when the connection has a CBS
    authenticator) returns; this includes [handle_token] reporting
    [timed_out = True].  Only the authenticator has changed afterwards. *)
Theorem do_work_shutdown_returns_False (c : C) (conn : Connection.t) :
  AMQPClient._connection (super c) = Some conn ->
  AMQPClient._shutdown (super c) = true ->
  (Connection.cbs conn = false -> do_work c = (Return (Some false), c)) /\
  (Connection.cbs conn = true ->
   forall a r a',
     AMQPClient._auth (super c) = Auth.CBS a ->
     SASTokenAuth.handle_token a = (Return r, a') ->
     do_work c
     = (Return (Some false),
        set_super (AMQPClient.set_auth (Auth.CBS a') (super c)) c)).
Proof.
  intros Hconn Hshut. split.
  - intros Hcbs. unfold do_work. run. rewrite Hconn, Hcbs. simpl.
    rewrite Hshut. reflexivity.
  - intros Hcbs a r a' Hauth Htok.
    unfold do_work, on_super, AMQPClient.handle_token. run.
    rewrite Hconn, Hcbs, Hauth. simpl. rewrite Htok. simpl.
    destruct r as [timeout in_progress].
    rewrite super_set_super. simpl. rewrite Hshut. reflexivity.
Qed.
End DoWork.

(** ** Closing a client *)

Section Close.

Lemma AMQPClient_close_closed (c : AMQPClient.t) :
  AMQPClient._session c = None -> AMQPClient.close c = (Return tt, c).
Proof. intros Hs. unfold AMQPClient.close. run. rewrite Hs. reflexivity. Qed.

Lemma AMQPClient_close_returns (c c1 : AMQPClient.t) :
  AMQPClient.close c = (Return tt, c1) -> AMQPClient._session c1 = None.
Proof.
  unfold AMQPClient.close, AMQPClient.close_authenticator, AMQPClient.emit. run.
  destruct (AMQPClient._session c) eqn:Hs.
  - destruct (AMQPClient._connection c) as [conn|]; [|discriminate].
    destruct (Connection.cbs conn), (AMQPClient._ext_connection c); simpl;
      try destruct (AMQPClient._auth c); simpl;
      intros E; inversion E; reflexivity.
  - intros E; inversion E; subst. exact Hs.
Qed.

Lemma SendClient_close_unfold (c : SendClient.t) :
  SendClient.close c
  = match AMQPClient.close (SendClient.client (SendClient_before_close c)) with
    | (Return _, b) =>
        (Return tt,
         SendClient.set_pending_messages []
           (SendClient.set_client b (SendClient_before_close c)))
    | (Raise e, b) => (Raise e, SendClient.set_client b (SendClient_before_close c))
    | (OutOfFuel, b) => (OutOfFuel, SendClient.set_client b (SendClient_before_close c))
    end.
Proof.
  unfold SendClient.close, SendClient_before_close, SendClient.amqp, AMQPClient.emit.
  run. destruct (SendClient._message_sender c); cbv beta iota zeta;
    match goal with |- context [AMQPClient.close ?b] =>
      destruct (AMQPClient.close b) as [[[]|e|] b1] end; reflexivity.
Qed.

Lemma ReceiveClient_close_unfold (c : ReceiveClient.t) :
  ReceiveClient.close c
  = match AMQPClient.close (ReceiveClient.client (ReceiveClient_before_close c)) with
    | (Return _, b) =>
        (Return tt, ReceiveClient_after_close b (ReceiveClient_before_close c))
    | (Raise e, b) =>
        (Raise e, ReceiveClient.set_client b (ReceiveClient_before_close c))
    | (OutOfFuel, b) =>
        (OutOfFuel, ReceiveClient.set_client b (ReceiveClient_before_close c))
    end.
Proof.
  unfold ReceiveClient.close, ReceiveClient_before_close, ReceiveClient_after_close,
    ReceiveClient.amqp, AMQPClient.emit.
  run. destruct (ReceiveClient._message_receiver c); cbv beta iota zeta;
    match goal with |- context [AMQPClient.close ?b] =>
      destruct (AMQPClient.close b) as [[[]|e|] b1] end; reflexivity.
Qed.

Lemma core_destroys_before_close_send (c : SendClient.t) :
  core_destroys (AMQPClient.log (SendClient.client (SendClient_before_close c)))
  = core_destroys (AMQPClient.log (SendClient.client c)).
Proof.
  unfold SendClient_before_close. destruct (SendClient._message_sender c); simpl; auto.
  unfold core_destroys. rewrite List.filter_app. simpl. apply app_nil_r.
Qed.

Lemma core_destroys_before_close_receive (c : ReceiveClient.t) :
  core_destroys (AMQPClient.log (ReceiveClient.client (ReceiveClient_before_close c)))
  = core_destroys (AMQPClient.log (ReceiveClient.client c)).
Proof.
  unfold ReceiveClient_before_close.
  destruct (ReceiveClient._message_receiver c); simpl; auto.
  unfold core_destroys. rewrite List.filter_app. simpl. apply app_nil_r.
Qed.

Lemma session_before_close_send (c : SendClient.t) :
  AMQPClient._session (SendClient.client (SendClient_before_close c))
  = AMQPClient._session (SendClient.client c).
Proof.
  unfold SendClient_before_close. destruct (SendClient._message_sender c); reflexivity.
Qed.

Lemma session_before_close_receive (c : ReceiveClient.t) :
  AMQPClient._session (ReceiveClient.client (ReceiveClient_before_close c))
  = AMQPClient._session (ReceiveClient.client c).
Proof.
  unfold ReceiveClient_before_close.
  destruct (ReceiveClient._message_receiver c); reflexivity.
Qed.

Lemma sender_before_close (c : SendClient.t) :
  SendClient._message_sender (SendClient_before_close c) = None.
Proof.
  unfold SendClient_before_close.
  destruct (SendClient._message_sender c) eqn:Hm; [reflexivity | exact Hm].
Qed.

Lemma SendClient_before_close_closed (c : SendClient.t) (b : AMQPClient.t) :
  SendClient._message_sender c = None ->
  SendClient_before_close
    (SendClient.set_pending_messages [] (SendClient.set_client b c))
  = SendClient.set_pending_messages [] (SendClient.set_client b c).
Proof. intros Hn. unfold SendClient_before_close. simpl. rewrite Hn. reflexivity. Qed.

Lemma receiver_before_close (c : ReceiveClient.t) :
  ReceiveClient._message_receiver (ReceiveClient_before_close c) = None.
Proof.
  unfold ReceiveClient_before_close.
  destruct (ReceiveClient._message_receiver c) eqn:Hm; [reflexivity | exact Hm].
Qed.

Lemma ReceiveClient_before_close_closed (c : ReceiveClient.t) (b : AMQPClient.t) :
  ReceiveClient._message_receiver c = None ->
  ReceiveClient_before_close (ReceiveClient_after_close b c)
  = ReceiveClient_after_close b c.
Proof. intros Hn. unfold ReceiveClient_before_close. simpl. rewrite Hn. reflexivity. Qed.

(** C8: [close()] on a client whose session reference is [None] returns
    normally and makes no destroy call on the Connection, a Session or the
    CBS authenticator, for [AMQPClient], [SendClient] and [ReceiveClient];
    and a [close()] that follows a [close()] changes nothing at all. *)
Theorem close_when_closed_is_noop :
  (forall c : AMQPClient.t,
     AMQPClient._session c = None -> AMQPClient.close c = (Return tt, c)) /\
  (forall c : SendClient.t,
     AMQPClient._session (SendClient.client c) = None ->
     fst (SendClient.close c) = Return tt /\
     core_destroys (AMQPClient.log (SendClient.client (snd (SendClient.close c))))
     = core_destroys (AMQPClient.log (SendClient.client c))) /\
  (forall c : ReceiveClient.t,
     AMQPClient._session (ReceiveClient.client c) = None ->
     fst (ReceiveClient.close c) = Return tt /\
     core_destroys (AMQPClient.log (ReceiveClient.client (snd (ReceiveClient.close c))))
     = core_destroys (AMQPClient.log (ReceiveClient.client c))) /\
  (forall c c1 : AMQPClient.t,
     AMQPClient.close c = (Return tt, c1) -> AMQPClient.close c1 = (Return tt, c1)) /\
  (forall c c1 : SendClient.t,
     SendClient.close c = (Return tt, c1) -> SendClient.close c1 = (Return tt, c1)) /\
  (forall c c1 : ReceiveClient.t,
     ReceiveClient.close c = (Return tt, c1) ->
     ReceiveClient.close c1 = (Return tt, c1)).
Proof.
  repeat apply conj.
  - exact AMQPClient_close_closed.
  - intros c Hs. rewrite SendClient_close_unfold.
    rewrite AMQPClient_close_closed by (rewrite session_before_close_send; exact Hs).
    split; [reflexivity|]. apply core_destroys_before_close_send.
  - intros c Hs. rewrite ReceiveClient_close_unfold.
    rewrite AMQPClient_close_closed by (rewrite session_before_close_receive; exact Hs).
    split; [reflexivity|]. apply core_destroys_before_close_receive.
  - intros c c1 E. apply AMQPClient_close_closed, (AMQPClient_close_returns c), E.
  - intros c c1. rewrite SendClient_close_unfold.
    pose proof (sender_before_close c) as Hn.
    generalize dependent (SendClient_before_close c). intros c0 Hn.
    destruct (AMQPClient.close _) as [[[]|e|] b] eqn:E; try discriminate.
    intros E1. inversion E1; subst c1; clear E1.
    apply AMQPClient_close_returns in E.
    rewrite SendClient_close_unfold, SendClient_before_close_closed by exact Hn.
    simpl. rewrite AMQPClient_close_closed by exact E. reflexivity.
  - intros c c1. rewrite ReceiveClient_close_unfold.
    pose proof (receiver_before_close c) as Hn.
    generalize dependent (ReceiveClient_before_close c). intros c0 Hn.
    destruct (AMQPClient.close _) as [[[]|e|] b] eqn:E; try discriminate.
    intros E1. inversion E1; subst c1; clear E1.
    apply AMQPClient_close_returns in E.
    rewrite ReceiveClient_close_unfold, ReceiveClient_before_close_closed by exact Hn.
    simpl. rewrite AMQPClient_close_closed by exact E. reflexivity.
Qed.
End Close.

(** ** Batch receive *)

Section ReceiveBatch.
Import ReceiveClient.

Lemma take_batch_bound (q batch : list Message.ref) (max_batch_size : Z) :
  Z.of_nat (length batch) <= Z.max 0 max_batch_size ->
  Z.of_nat (length (snd (take_batch q batch max_batch_size)))
  <= Z.max 0 max_batch_size.
Proof.
  revert batch. induction q as [|m q IH]; intros batch Hb; simpl; [exact Hb|].
  destruct (Z.ltb_spec (Z.of_nat (length batch)) max_batch_size); simpl; [|exact Hb].
  apply IH. rewrite length_app. simpl. lia.
Qed.

Lemma drain_bound (batch batch' : list Message.ref) (max_batch_size : Z) (c c' : t) :
  Z.of_nat (length batch) <= Z.max 0 max_batch_size ->
  drain batch max_batch_size c = (Return batch', c') ->
  Z.of_nat (length batch') <= Z.max 0 max_batch_size.
Proof.
  intros Hb. unfold drain. run.
  destruct (_received_messages c) as [q|]; [|discriminate].
  pose proof (take_batch_bound q batch max_batch_size Hb) as Ht.
  destruct (take_batch q batch max_batch_size) as [q' b']. simpl in *.
  intros E. inversion E; subst. exact Ht.
Qed.

Lemma fill_batch_S (fuel : nat) (timeout max_batch_size : Z)
    (receiving expired : bool) (batch : list Message.ref) :
  fill_batch (S fuel) timeout max_batch_size receiving expired batch
  = if receiving && negb expired && (Z.of_nat (length batch) <? max_batch_size) then
      (flags <- tick_until_queued (S fuel) timeout max_batch_size receiving ;;
       let '(receiving, expired) := flags in
       batch <- drain batch max_batch_size ;;
       fill_batch fuel timeout max_batch_size receiving expired batch)%monad
    else ret batch.
Proof. reflexivity. Qed.

Lemma fill_batch_bound (fuel : nat) (timeout max_batch_size : Z)
    (receiving expired : bool) (batch batch' : list Message.ref) (c c' : t) :
  Z.of_nat (length batch) <= Z.max 0 max_batch_size ->
  fill_batch fuel timeout max_batch_size receiving expired batch c
  = (Return batch', c') ->
  Z.of_nat (length batch') <= Z.max 0 max_batch_size.
Proof.
  revert receiving expired batch c.
  induction fuel as [|fuel IH]; intros receiving expired batch c Hb.
  - simpl. destruct (receiving && negb expired && _); run.
    + discriminate.
    + intros E; inversion E; subst; exact Hb.
  - rewrite fill_batch_S.
    destruct (receiving && negb expired && _).
    + run.
      destruct (tick_until_queued (S fuel) timeout max_batch_size receiving c)
        as [[[r e]|x|] c1]; try discriminate.
      destruct (drain batch max_batch_size c1) as [[b1|x|] c2] eqn:Ed;
        try discriminate.
      apply IH. apply (drain_bound batch b1 max_batch_size c1 c2 Hb Ed).
    + run. intros E; inversion E; subst; exact Hb.
Qed.

(** A batch size above the prefetch is rejected before anything else
    happens: only the callback has been stored. *)
Lemma receive_message_batch_rejects (max_batch_size : option Z)
    (on_message_received : option (Message.ref -> option Message.ref))
    (timeout : Z) (fuel : nat) (c : t) :
  _prefetch c < effective_batch_size max_batch_size c ->
  receive_message_batch max_batch_size on_message_received timeout fuel c
  = (Raise ValueError, set_message_received_callback on_message_received c).
Proof.
  intros Hgt. unfold receive_message_batch. run.
  change (_prefetch (set_message_received_callback on_message_received c))
    with (_prefetch c).
  change (effective_batch_size max_batch_size
            (set_message_received_callback on_message_received c))
    with (effective_batch_size max_batch_size c).
  destruct (Z.ltb_spec (_prefetch c) (effective_batch_size max_batch_size c));
    [reflexivity | lia].
Qed.

Lemma receive_message_batch_bound (max_batch_size : option Z)
    (on_message_received : option (Message.ref -> option Message.ref))
    (timeout : Z) (fuel : nat) (c c' : t) (batch : list Message.ref) :
  receive_message_batch max_batch_size on_message_received timeout fuel c
  = (Return batch, c') ->
  Z.of_nat (length batch) <= Z.max 0 (effective_batch_size max_batch_size c).
Proof.
  unfold receive_message_batch. run.
  change (_prefetch (set_message_received_callback on_message_received c))
    with (_prefetch c).
  change (effective_batch_size max_batch_size
            (set_message_received_callback on_message_received c))
    with (effective_batch_size max_batch_size c).
  set (n := effective_batch_size max_batch_size c).
  destruct (_prefetch c <? n); [discriminate|].
  destruct (batch_deadline timeout _) as [[d|x|] c1]; try discriminate.
  unfold amqp. run.
  destruct (AMQPClient.open None _) as [[[]|x|] b]; try discriminate.
  match goal with |- context [drain [] n ?s] =>
    destruct (drain [] n s) as [[b0|x|] c2] eqn:Ed end; try discriminate.
  assert (Z.of_nat (length b0) <= Z.max 0 n) as Hb0
    by (apply (drain_bound [] b0 n _ _ ltac:(simpl; lia) Ed)).
  destruct (n <=? Z.of_nat (length b0)).
  - intros E; inversion E; subst; exact Hb0.
  - apply fill_batch_bound, Hb0.
Qed.

(** C4 (amended): with [max_batch_size = N] and [N >= 1], a call with
    [N] above the prefetch raises [ValueError] with no transport pass made
    (only the callback is stored), and a call that returns hands back at
    most [N] messages.  For any argument, [None] and [0] included, the
    bound is the size the call works with, [max_batch_size or prefetch]. *)
Theorem receive_message_batch_size
    (on_message_received : option (Message.ref -> option Message.ref))
    (timeout : Z) (fuel : nat) (c : t) :
  (forall N, 1 <= N ->
     (_prefetch c < N ->
      receive_message_batch (Some N) on_message_received timeout fuel c
      = (Raise ValueError, set_message_received_callback on_message_received c)) /\
     (forall batch c',
        receive_message_batch (Some N) on_message_received timeout fuel c
        = (Return batch, c') ->
        Z.of_nat (length batch) <= N)) /\
  (forall max_batch_size batch c',
     receive_message_batch max_batch_size on_message_received timeout fuel c
     = (Return batch, c') ->
     Z.of_nat (length batch) <= Z.max 0 (effective_batch_size max_batch_size c)).
Proof.
  split.
  - intros N HN.
    assert (effective_batch_size (Some N) c = N) as Heff
      by (unfold effective_batch_size; destruct (Z.eqb_spec N 0); [lia | reflexivity]).
    split.
    + intros Hgt. apply receive_message_batch_rejects. rewrite Heff. exact Hgt.
    + intros batch c' E. apply receive_message_batch_bound in E.
      rewrite Heff in E. lia.
  - intros max_batch_size batch c'. apply receive_message_batch_bound.
Qed.

(** C4 (as stated) fails at [max_batch_size = 0]: zero counts as "not
    given", the call works with the prefetch (here 2) and returns two
    messages. *)
Lemma receive_message_batch_zero_returns_two :
  0 <= _prefetch (Sample.receiver 2) /\
  fst (receive_message_batch (Some 0) None 0 5 (Sample.receiver 2))
  = Return [7; 8]%nat /\
  ~ (Z.of_nat (length [7; 8]%nat) <= 0).
Proof. split; [|split]; [vm_compute; discriminate | vm_compute; reflexivity | simpl; lia]. Qed.

Lemma tick_until_queued_S (fuel : nat) (timeout max_batch_size : Z) (receiving : bool) :
  tick_until_queued (S fuel) timeout max_batch_size receiving
  = (again <- (if receiving then size <- qsize ;; ret (size <? max_batch_size)
               else ret false) ;;
     if again then
       late <- deadline_passed timeout ;;
       if late then ret (receiving, true)
       else
         before <- qsize ;;
         r <- do_work ;;
         after <- qsize ;;
         let received := after - before in
         if (0 <? after) && (received =? 0) then ret (truth r, true)
         else tick_until_queued fuel timeout max_batch_size (truth r)
     else ret (receiving, false))%monad.
Proof. reflexivity. Qed.

(** Looking at the clock does not touch the queue. *)
Lemma deadline_passed_queue (timeout : Z) (c c1 : t) (late : bool) :
  deadline_passed timeout c = (Return late, c1) ->
  _received_messages c1 = _received_messages c.
Proof.
  unfold deadline_passed, amqp, AMQPClient.get_current_ms,
    TickCounter.get_current_ms. run.
  destruct (0 <? timeout); intros E; inversion E; reflexivity.
Qed.

(** One turn of the inner loop, from a state whose queue [q] is still
    short of the batch size. *)
Lemma tick_until_queued_late (fuel : nat) (timeout max_batch_size : Z)
    (c c1 : t) (q : list Message.ref) :
  _received_messages c = Some q ->
  Z.of_nat (length q) < max_batch_size ->
  deadline_passed timeout c = (Return true, c1) ->
  tick_until_queued (S fuel) timeout max_batch_size true c = (Return (true, true), c1).
Proof.
  intros Hq Hlt Hd. rewrite tick_until_queued_S. unfold qsize. run.
  rewrite Hq. destruct (Z.ltb_spec (Z.of_nat (length q)) max_batch_size); [|lia].
  rewrite Hd. reflexivity.
Qed.

Lemma tick_until_queued_turn (fuel : nat) (timeout max_batch_size : Z)
    (c c1 c2 : t) (q q2 : list Message.ref) (r : option bool) :
  _received_messages c = Some q ->
  Z.of_nat (length q) < max_batch_size ->
  deadline_passed timeout c = (Return false, c1) ->
  do_work c1 = (Return r, c2) ->
  _received_messages c2 = Some q2 ->
  tick_until_queued (S fuel) timeout max_batch_size true c
  = if (0 <? Z.of_nat (length q2))
       && (Z.of_nat (length q2) - Z.of_nat (length q) =? 0)
    then (Return (truth r, true), c2)
    else tick_until_queued fuel timeout max_batch_size (truth r) c2.
Proof.
  intros Hq Hlt Hd Hw Hq2. rewrite tick_until_queued_S. unfold qsize. run.
  rewrite Hq. destruct (Z.ltb_spec (Z.of_nat (length q)) max_batch_size); [|lia].
  rewrite Hd. rewrite (deadline_passed_queue _ _ _ _ Hd), Hq.
  rewrite Hw, Hq2. destruct (_ && _); reflexivity.
Qed.

(** Once the inner loop reports [expired], the outer loop drains the queue
    and returns: no further call to [do_work]. *)
Lemma fill_batch_expired (fuel : nat) (timeout max_batch_size : Z)
    (c c2 : t) (batch : list Message.ref) (receiving : bool) :
  Z.of_nat (length batch) < max_batch_size ->
  tick_until_queued (S fuel) timeout max_batch_size true c
  = (Return (receiving, true), c2) ->
  fill_batch (S fuel) timeout max_batch_size true false batch c
  = drain batch max_batch_size c2.
Proof.
  intros Hlt Ht. rewrite fill_batch_S. cbn [andb negb].
  destruct (Z.ltb_spec (Z.of_nat (length batch)) max_batch_size); [|lia].
  run. rewrite Ht.
  destruct (drain batch max_batch_size c2) as [[b|x|] c3]; try reflexivity.
  destruct fuel; cbn [fill_batch negb]; rewrite andb_false_r; reflexivity.
Qed.

Lemma tick_until_queued_full (fuel : nat) (timeout max_batch_size : Z)
    (c : t) (q : list Message.ref) (receiving : bool) :
  _received_messages c = Some q ->
  max_batch_size <= Z.of_nat (length q) ->
  tick_until_queued fuel timeout max_batch_size receiving c
  = (Return (receiving, false), c).
Proof.
  intros Hq Hge.
  assert ((if receiving then (size <- qsize ;; ret (size <? max_batch_size))%monad
           else ret false) c = (Return false, c)) as Hagain.
  { destruct receiving; [|reflexivity]. unfold qsize. run. rewrite Hq.
    destruct (Z.ltb_spec (Z.of_nat (length q)) max_batch_size); [lia | reflexivity]. }
  destruct fuel; cbn [tick_until_queued]; unfold bind at 1; rewrite Hagain;
    reflexivity.
Qed.


(** The scenario of the spec, run: three messages available and no more
    arriving; a batch of three comes back after three passes. *)
Example receive_message_batch_three_of_ten :
  let out := receive_message_batch (Some 10) None 0 10 Sample.stalled_receiver in
  fst out = Return [1; 2; 3]%nat /\
  AMQPClient.works (client (snd out)) = 3%nat.
Proof. vm_compute. split; reflexivity. Qed.
End ReceiveBatch.

(** ** The send run step *)

Section SendRunStep.
Import SendClient.

(** [elapsed_time > self._msg_timeout], with the age in milliseconds. *)
Lemma Qlt_bool_elapsed (msg_timeout age : Z) :
  Qlt_bool (inject_Z msg_timeout) (inject_Z age / inject_Z 1000)
  = (1000 * msg_timeout <? age).
Proof.
  unfold Qlt_bool.
  destruct (Z.ltb_spec (1000 * msg_timeout) age) as [H|H].
  - apply negb_true_iff. destruct (Qle_bool _ _) eqn:E; [|reflexivity].
    apply Qle_bool_iff in E. unfold Qle in E. simpl in E. lia.
  - apply negb_false_iff. apply Qle_bool_iff. unfold Qle. simpl. lia.
Qed.

Lemma for_each_app {S A} (l1 l2 : list A) (body : A -> M S unit) (s : S) :
  for_each (l1 ++ l2) body s = (for_each l1 body ;; for_each l2 body)%monad s.
Proof.
  revert s. induction l1 as [|x l1 IH]; intros s; simpl.
  - reflexivity.
  - unfold bind in *. destruct (body x s) as [[[]|e|] s1]; try reflexivity.
    apply IH.
Qed.


Lemma not_done_WaitingToBeSent :
  bool_decide (MessageState.WaitingToBeSent
               ∈ [MessageState.Complete; MessageState.Failed]) = false.
Proof. reflexivity. Qed.

Lemma _client_run_at (f : MessageSendResult.t -> option exn -> Message.t -> Message.t)
    (c : t) (message : Message.ref) (pre post : list Message.ref) :
  _pending_messages c = pre ++ message :: post ->
  _client_run f c
  = (for_each pre (send_pending f) ;;
     send_pending f message ;;
     for_each post (send_pending f) ;;
     p <- amqp AMQPClient.transport_pass ;;
     modify (sender_callbacks f p) ;;
     ret (Some true))%monad c.
Proof.
  intros Hp. unfold _client_run. unfold bind at 1, get at 1. rewrite Hp.
  unfold bind at 1. rewrite for_each_app. cbn [for_each].
  unfold bind. destruct (for_each pre (send_pending f) c) as [[[]|e|] c1];
    try reflexivity.
  destruct (send_pending f message c1) as [[[]|e|] c2]; try reflexivity.
Qed.

(** [send_pending] on a message that is [WaitingToBeSent]. *)
Lemma send_pending_waiting
    (f : MessageSendResult.t -> option exn -> Message.t -> Message.t)
    (c : t) (message : Message.ref) :
  Message.state (messages c message) = MessageState.WaitingToBeSent ->
  send_pending f message c
  = if (0 <? _msg_timeout c)
       && (1000 * _msg_timeout c
           <? current_time c - Message.idle_time (messages c message))
    then (Return tt,
          update_message message (f MessageSendResult.Timeout None) (marked message c))
    else
      try_except_Exception
        (send_async message (time_budget message c))
        (fun exp =>
           modify (update_message message (f MessageSendResult.Error (Some exp))))
        (marked message c).
Proof.
  intros Hst. unfold send_pending. unfold bind at 1, get at 1.
  rewrite Hst, not_done_WaitingToBeSent.
  rewrite decide_True by reflexivity.
  unfold bind at 1, modify at 1.
  unfold try_except_Exception, bind at 1.
  unfold marked, time_budget, elapsed_time, current_time.
  unfold amqp, AMQPClient.get_current_ms, TickCounter.get_current_ms, zoom.
  cbn [fst snd]. unfold bind at 1, get at 1.
  cbn [_msg_timeout messages client update_message set_messages set_client
       AMQPClient._counter AMQPClient.set_counter].
  rewrite fn_lookup_insert. cbn [Message.idle_time Message.set_state].
  rewrite Qlt_bool_elapsed.
  destruct (_ && _); reflexivity.
Qed.

Lemma send_async_marked (c : t) (message : Message.ref) (s : MessageSender.t)
    (timeout : Q) :
  _message_sender c = Some s ->
  send_async message timeout (marked message c)
  = let logged :=
      set_client
        (AMQPClient.set_log
           (AMQPClient.log (client c) ++ [SenderSend message timeout])
           (client (marked message c)))
        (marked message c) in
    if Connection.refused
         (AMQPClient.network (client c) (AMQPClient.works (client c))) message
    then (Raise SenderError, logged)
    else (Return tt,
          set_message_sender
            (Some {| MessageSender._state := MessageSender._state s;
                     MessageSender.unsettled :=
                       MessageSender.unsettled s ++ [message] |}) logged).
Proof.
  intros Hs. unfold send_async. unfold bind at 1, get at 1.
  change (_message_sender (marked message c)) with (_message_sender c).
  rewrite Hs. unfold amqp, AMQPClient.emit. run.
  change (AMQPClient.network (client (marked message c)))
    with (AMQPClient.network (client c)).
  change (AMQPClient.works (client (marked message c)))
    with (AMQPClient.works (client c)).
  change (AMQPClient.log (client (marked message c)))
    with (AMQPClient.log (client c)).
  destruct (Connection.refused _ _); reflexivity.
Qed.

Lemma send_async_no_sender (c : t) (message : Message.ref) (timeout : Q) :
  _message_sender c = None ->
  send_async message timeout (marked message c)
  = (Raise AttributeError, marked message c).
Proof.
  intros Hs. unfold send_async. run.
  change (_message_sender (marked message c)) with (_message_sender c).
  rewrite Hs. reflexivity.
Qed.

End SendRunStep.

(** ** Draining the send queue *)

Section SendAll.
Import SendClient.
Variable f : MessageSendResult.t -> option exn -> Message.t -> Message.t.

Lemma elem_of_remove_first (x m : Message.ref) (l : list Message.ref) :
  x ∈ list_remove_first m l -> x ∈ l.
Proof.
  induction l as [|y l IH]; simpl; [auto|].
  destruct (decide (m = y)); intros H.
  - apply elem_of_cons. auto.
  - apply elem_of_cons in H as [->|H]; apply elem_of_cons; auto.
Qed.

Lemma elem_of_remove_first_ne (x m : Message.ref) (l : list Message.ref) :
  x <> m -> x ∈ l -> x ∈ list_remove_first m l.
Proof.
  intros Hne. induction l as [|y l IH]; simpl; [auto|].
  intros H. apply elem_of_cons in H as [->|H].
  - destruct (decide (m = y)); [congruence | apply elem_of_cons; auto].
  - destruct (decide (m = y)); [exact H | apply elem_of_cons; auto].
Qed.

Lemma NoDup_remove_first (m : Message.ref) (l : list Message.ref) :
  NoDup l -> NoDup (list_remove_first m l) /\ m ∉ list_remove_first m l.
Proof.
  induction 1 as [|y l Hy Hl IH]; simpl.
  - split; [constructor | apply not_elem_of_nil].
  - destruct (decide (m = y)) as [->|Hne].
    + split; assumption.
    + destruct IH as [IH1 IH2]. split.
      * constructor; [|exact IH1]. intros Hin. apply Hy.
        apply (elem_of_remove_first _ _ _ Hin).
      * intros Hin. apply elem_of_cons in Hin as [?|?]; [congruence | auto].
Qed.

Lemma messages_update_ne (x m : Message.ref) (g : Message.t -> Message.t) (c : t) :
  x <> m -> messages (update_message m g c) x = messages c x.
Proof. intros Hne. unfold update_message. cbn [messages set_messages].
  apply fn_lookup_insert_ne. congruence. Qed.

Lemma messages_update_eq (m : Message.ref) (g : Message.t -> Message.t) (c : t) :
  messages (update_message m g c) m = g (messages c m).
Proof. unfold update_message. cbn [messages set_messages]. apply fn_lookup_insert. Qed.

Lemma messages_marked (m : Message.ref) (c : t) :
  messages (marked m c)
  = messages (update_message m (Message.set_state MessageState.WaitingForAck) c).
Proof. reflexivity. Qed.

Lemma messages_marked_ne (x m : Message.ref) (c : t) :
  x <> m -> messages (marked m c) x = messages c x.
Proof. intros Hne. rewrite messages_marked. apply messages_update_ne, Hne. Qed.

(** What [send_pending] changes. *)
Lemma send_pending_effect (m : Message.ref) (c : t) :
  let c' := snd (send_pending f m c) in
  (terminal (Message.state (messages c m)) /\
   _pending_messages c' = list_remove_first m (_pending_messages c) /\
   messages c' = messages c /\ _message_sender c' = _message_sender c) \/
  (Message.state (messages c m) = MessageState.WaitingToBeSent /\
   _pending_messages c' = _pending_messages c /\
   (forall x, x <> m -> messages c' x = messages c x) /\
   (_message_sender c' = _message_sender c \/
    exists s, _message_sender c = Some s /\
      _message_sender c'
      = Some {| MessageSender._state := MessageSender._state s;
                MessageSender.unsettled := MessageSender.unsettled s ++ [m] |} /\
      Message.state (messages c' m) = MessageState.WaitingForAck)) \/
  c' = c.
Proof.
  assert (forall x g c0, x <> m ->
            messages (update_message m g (marked m c0)) x = messages c0 x) as Hother.
  { intros x g c0 Hx. rewrite messages_update_ne, messages_marked_ne by exact Hx.
    reflexivity. }
  destruct (Message.state (messages c m)) eqn:Hst.
  - right; left. split; [reflexivity|].
    rewrite (send_pending_waiting f c m Hst).
    destruct (_ && _); cbn [snd].
    + repeat apply conj; try reflexivity.
      * intros x Hx. apply Hother, Hx.
      * left. reflexivity.
    + unfold try_except_Exception.
      destruct (_message_sender c) as [s|] eqn:Hs.
      * rewrite (send_async_marked c m s _ Hs). cbv zeta.
        destruct (Connection.refused _ _); cbn [snd].
        -- repeat apply conj; try reflexivity.
           ++ intros x Hx. unfold modify. cbn [snd].
              rewrite messages_update_ne by exact Hx.
              cbn [messages set_client]. apply messages_marked_ne, Hx.
           ++ left. exact Hs.
        -- repeat apply conj; try reflexivity.
           ++ intros x Hx. cbn [messages set_message_sender set_client].
              apply messages_marked_ne, Hx.
           ++ right. exists s. repeat apply conj; try reflexivity.
              cbn [messages set_message_sender set_client].
              rewrite messages_marked, messages_update_eq. reflexivity.
      * rewrite (send_async_no_sender c m _ Hs). unfold modify. cbn [snd].
        repeat apply conj; try reflexivity.
        -- intros x Hx. apply Hother, Hx.
        -- left. exact Hs.
  - right; right. unfold send_pending. run. rewrite Hst. reflexivity.
  - left. split; [left; reflexivity|]. unfold send_pending. run. rewrite Hst.
    repeat apply conj; reflexivity.
  - left. split; [right; reflexivity|]. unfold send_pending. run. rewrite Hst.
    repeat apply conj; reflexivity.
Qed.
Variable snapshot : list Message.ref.

Lemma send_pending_in_step (m : Message.ref) (c : t) :
  in_step snapshot c -> in_step snapshot (snd (send_pending f m c)).
Proof.
  intros [I1 I2].
  destruct (send_pending_effect m c)
    as [(Ht & Hp & Hm & Hs) | [(Hw & Hp & Hm & Hs) | ->]]; [| |split; assumption].
  - split.
    + intros s Hs'. rewrite Hs in Hs'. rewrite Hm. apply I1, Hs'.
    + intros x Hx. rewrite Hp, Hm.
      destruct (decide (x = m)) as [->|Hne]; [right; exact Ht|].
      destruct (I2 x Hx) as [Hin|Hterm];
        [left; apply elem_of_remove_first_ne; assumption | right; assumption].
  - assert (forall s, _message_sender c = Some s -> m ∉ MessageSender.unsettled s)
      as Hnotin.
    { intros s Hs0 Hin. destruct (I1 s Hs0) as [_ Hall].
      rewrite (Hall m Hin) in Hw. discriminate. }
    split.
    + intros s' Hs'. destruct Hs as [Hs | (s & Hs0 & Hs1 & Hst')].
      * rewrite Hs in Hs'. destruct (I1 s' Hs') as [Hnd Hall].
        split; [exact Hnd|]. intros x Hx.
        rewrite Hm; [apply Hall, Hx|]. intros ->. apply (Hnotin s' Hs' Hx).
      * rewrite Hs1 in Hs'. inversion Hs'; subst s'; simpl.
        destruct (I1 s Hs0) as [Hnd Hall]. split.
        -- apply list.NoDup_app. split; [exact Hnd|].
           split; [|apply list.NoDup_singleton].
           intros x Hx Hx'. apply list_elem_of_singleton in Hx'. subst.
           apply (Hnotin s Hs0 Hx).
        -- intros x Hx. apply elem_of_app in Hx as [Hx|Hx].
           ++ rewrite Hm; [apply Hall, Hx|]. intros ->. apply (Hnotin s Hs0 Hx).
           ++ apply list_elem_of_singleton in Hx. subst. exact Hst'.
    + intros x Hx. rewrite Hp. destruct (decide (x = m)) as [->|Hne].
      * destruct (I2 m Hx) as [Hin|[Ht|Ht]];
          [left; exact Hin | rewrite Hw in Ht; discriminate..].
      * rewrite Hm by exact Hne. apply I2, Hx.
Qed.

Lemma on_settled_in_step (c : t) (x : Message.ref * MessageSendResult.t) :
  in_step snapshot c -> in_step snapshot (on_settled f c x).
Proof.
  destruct x as [m r]. unfold on_settled. intros Hc.
  destruct (_message_sender c) as [s|] eqn:Hs; [|exact Hc].
  destruct (decide (m ∈ MessageSender.unsettled s)) as [Hin|]; [|exact Hc].
  destruct Hc as [I1 I2].
  destruct (I1 s Hs) as [Hnd Hall].
  destruct (NoDup_remove_first m _ Hnd) as [Hnd' Hnot].
  split.
  - intros s' Hs'. cbn in Hs'. inversion Hs'; subst s'; clear Hs'.
    cbn [MessageSender.unsettled].
    split; [exact Hnd'|]. intros x Hx.
    assert (x <> m) as Hne by (intros ->; contradiction).
    rewrite messages_update_ne by exact Hne. cbn [messages set_message_sender].
    apply Hall. apply (elem_of_remove_first _ _ _ Hx).
  - intros x Hx. change (_pending_messages (update_message m (f r None)
      (set_message_sender
         (Some {| MessageSender._state := MessageSender._state s;
                  MessageSender.unsettled :=
                    list_remove_first m (MessageSender.unsettled s) |}) c)))
      with (_pending_messages c).
    destruct (decide (x = m)) as [->|Hne].
    + destruct (I2 m Hx) as [Hin'|[Ht|Ht]];
        [left; exact Hin' | rewrite (Hall m Hin) in Ht; discriminate..].
    + rewrite messages_update_ne by exact Hne. apply I2, Hx.
Qed.

Lemma sender_callbacks_in_step (p : Connection.pass) (c : t) :
  in_step snapshot c -> in_step snapshot (sender_callbacks f p c).
Proof.
  unfold sender_callbacks. intros Hc.
  assert (in_step snapshot
            (match Connection.sender_state p with
             | Some st => on_state_changed st c
             | None => c
             end)) as H0.
  { destruct (Connection.sender_state p) as [st|]; [|exact Hc].
    unfold on_state_changed.
    destruct (_message_sender c) as [s|] eqn:Hs; [|exact Hc].
    destruct Hc as [I1 I2].
    split; [|exact I2]. intros s' Hs'. cbn in Hs'. inversion Hs'; subst s'.
    simpl. apply (I1 s Hs). }
  revert H0. generalize (match Connection.sender_state p with
                         | Some st => on_state_changed st c
                         | None => c
                         end).
  induction (Connection.settled p) as [|x l IH]; intros c0 H0; simpl; [exact H0|].
  apply IH, on_settled_in_step, H0.
Qed.

Lemma for_each_send_pending_in_step (l : list Message.ref) (c : t) :
  in_step snapshot c -> in_step snapshot (snd (for_each l (send_pending f) c)).
Proof.
  revert c. induction l as [|m l IH]; intros c Hc; simpl; [exact Hc|].
  unfold bind. pose proof (send_pending_in_step m c Hc) as H1.
  destruct (send_pending f m c) as [[[]|e|] c1]; simpl in *; auto.
Qed.

Lemma _client_ready_in_step (c : t) :
  in_step snapshot c -> in_step snapshot (snd (_client_ready c)).
Proof.
  intros Hc. unfold _client_ready, amqp, AMQPClient.emit. run.
  destruct (_message_sender c) as [s|] eqn:Hs.
  - destruct (decide _); [exact Hc|]. destruct (decide _); exact Hc.
  - destruct (AMQPClient._session (client c)); [|exact Hc].
    cbn [snd]. destruct Hc as [I1 I2]. split; [|exact I2].
    intros s0 Hs'. cbn in Hs'. inversion Hs'; subst s0.
    cbn [MessageSender.unsettled].
    split; [constructor|]. intros m Hm. apply elem_of_nil in Hm. contradiction.
Qed.

Lemma _client_run_in_step (c : t) :
  in_step snapshot c -> in_step snapshot (snd (_client_run f c)).
Proof.
  intros Hc. unfold _client_run, amqp. run.
  pose proof (for_each_send_pending_in_step (_pending_messages c) c Hc) as H1.
  destruct (for_each (_pending_messages c) (send_pending f) c) as [[[]|e|] c1];
    cbn [snd] in *; try exact H1.
  destruct (AMQPClient.transport_pass (client c1)) as [[p|e|] b]; cbn [snd];
    try exact H1.
  apply sender_callbacks_in_step. exact H1.
Qed.

Lemma connection_work_in_step (c : t) :
  in_step snapshot c ->
  in_step snapshot (snd (connection_work (H := SendClient_Client f) c)).
Proof.
  intros Hc. unfold connection_work, on_super.
  cbn [super set_super callbacks SendClient_Client]. run.
  destruct (AMQPClient.transport_pass (client c)) as [[p|e|] b]; cbn [snd];
    try exact Hc.
  apply sender_callbacks_in_step. exact Hc.
Qed.

Lemma do_work_in_step (c : t) :
  in_step snapshot c ->
  in_step snapshot (snd (do_work (H := SendClient_Client f) c)).
Proof.
  intros Hc. unfold do_work. unfold bind at 1, get at 1.
  cbn [super SendClient_Client].
  destruct (AMQPClient._connection (client c)) as [conn|]; [|exact Hc].
  unfold bind at 1.
  assert (forall (status : bool * bool) (c1 : t), in_step snapshot c1 ->
            in_step snapshot
              (snd ((let '(timeout, auth_in_progress) := status in
                     c2 <- get ;;
                     if AMQPClient._shutdown (@super t (SendClient_Client f) c2)
                     then ret (Some false)
                     else if timeout then raise TimeoutError
                     else if auth_in_progress
                          then connection_work (H := SendClient_Client f) ;;
                               ret (Some true)
                     else
                       ready <- @client_ready t (SendClient_Client f) ;;
                       if negb ready
                       then connection_work (H := SendClient_Client f) ;;
                            ret (Some true)
                       else @client_run t (SendClient_Client f))%monad c1)))
    as Hrest.
  { intros [timeout auth_in_progress] c1 H1. unfold bind at 1, get at 1.
    destruct (AMQPClient._shutdown _); [exact H1|].
    destruct timeout; [exact H1|].
    destruct auth_in_progress.
    - unfold bind at 1. pose proof (connection_work_in_step c1 H1) as H2.
      destruct (connection_work c1) as [[[]|e|] c2]; exact H2.
    - unfold bind at 1. cbn [client_ready client_run SendClient_Client].
      pose proof (_client_ready_in_step c1 H1) as H2.
      destruct (_client_ready c1) as [[ready|e|] c2]; cbn [snd] in H2;
        try exact H2.
      destruct ready; cbn [negb].
      + apply _client_run_in_step, H2.
      + unfold bind at 1. pose proof (connection_work_in_step c2 H2) as H3.
        destruct (connection_work c2) as [[[]|e|] c3]; exact H3. }
  destruct (Connection.cbs conn).
  - unfold on_super, zoom. cbn [super set_super SendClient_Client].
    destruct (AMQPClient.handle_token (client c)) as [[status|e|] b]; cbn [snd];
      try exact Hc.
    exact (Hrest status (set_client b c) Hc).
  - unfold ret at 1. exact (Hrest (false, false) c Hc).
Qed.

Lemma wait_in_step (fuel : nat) (c c' : t) :
  in_step snapshot c ->
  wait f fuel c = (Return tt, c') ->
  in_step snapshot c' /\ _pending_messages c' = [].
Proof.
  revert c. induction fuel as [|fuel IH]; intros c Hc; cbn [wait];
    unfold bind at 1, get at 1; unfold messages_pending.
  - destruct (_pending_messages c) eqn:Hp.
    + intros E. inversion E; subst. split; assumption.
    + discriminate.
  - destruct (_pending_messages c) eqn:Hp.
    + intros E. inversion E; subst. split; assumption.
    + unfold bind at 1. pose proof (do_work_in_step c Hc) as H1.
      destruct (do_work c) as [[r|e|] c1]; try discriminate.
      apply IH. exact H1.
Qed.

Lemma queue_message_spec (gathered : list Message.ref) (c : t) :
  fst (queue_message gathered c) = Return tt /\
  _pending_messages (snd (queue_message gathered c))
  = _pending_messages c ++ gathered /\
  _message_sender (snd (queue_message gathered c)) = _message_sender c.
Proof.
  unfold queue_message.
  match goal with |- context [for_each gathered ?b] => set (body := b) end.
  assert (forall m c0,
            fst (body m c0) = Return tt /\
            _pending_messages (snd (body m c0)) = _pending_messages c0 ++ [m] /\
            _message_sender (snd (body m c0)) = _message_sender c0) as Hbody.
  { intros m c0. subst body. cbn beta.
    unfold amqp, AMQPClient.get_current_ms, TickCounter.get_current_ms. run.
    repeat apply conj; reflexivity. }
  clearbody body. revert c.
  induction gathered as [|m l IH]; intros c; cbn [for_each].
  - cbn. rewrite app_nil_r. auto.
  - unfold bind. destruct (Hbody m c) as (H1 & H2 & H3).
    destruct (body m c) as [[[]|e|] c1]; cbn [fst snd] in *; try discriminate.
    destruct (IH c1) as (H4 & H5 & H6).
    repeat apply conj; [exact H4 | | congruence].
    rewrite H5, H2, <- app_assoc. reflexivity.
Qed.

Lemma queue_all_spec (calls : list (list Message.ref)) (c : t) :
  fst (queue_all calls c) = Return tt /\
  _pending_messages (snd (queue_all calls c))
  = _pending_messages c ++ concat calls /\
  _message_sender (snd (queue_all calls c)) = _message_sender c.
Proof.
  unfold queue_all. revert c.
  induction calls as [|g calls IH]; intros c; cbn [for_each concat].
  - cbn. rewrite app_nil_r. auto.
  - unfold bind. destruct (queue_message_spec g c) as (H1 & H2 & H3).
    destruct (queue_message g c) as [[[]|e|] c1]; cbn [fst snd] in *;
      try discriminate.
    destruct (IH c1) as (H4 & H5 & H6).
    repeat apply conj; [exact H4 | | congruence].
    rewrite H5, H2, <- app_assoc. reflexivity.
Qed.

End SendAll.

Section SendAllResults.
Import SendClient.
Variable f : MessageSendResult.t -> option exn -> Message.t -> Message.t.

End SendAllResults.

(** ** Worked instances *)

Section Instances.

(** [handle_token] at a poll that reports [Failure]. *)
Lemma handle_token_Failure_sample :
  SASTokenAuth.next_status (Sample.authenticator CBSAuthStatus.Failure 3)
  = Some CBSAuthStatus.Failure /\
  fst (SASTokenAuth.handle_token (Sample.authenticator CBSAuthStatus.Failure 3))
  = Return (false, false) /\
  fst (SASTokenAuth.handle_token_async (Sample.authenticator CBSAuthStatus.Failure 3))
  = Return (false, false).
Proof.
  split; [reflexivity|].
  destruct (handle_token_Failure_returns_normally
              (Sample.authenticator CBSAuthStatus.Failure 3) eq_refl) as [H1 H2].
  rewrite H1, H2. split; reflexivity.
Defined.


Lemma retries_monotone_sample :
  SASTokenAuth.retries
    (SASTokenAuth.after_calls SASTokenAuth.handle_token 1
       (Sample.authenticator CBSAuthStatus.Error 2))
  <= SASTokenAuth.retries
       (SASTokenAuth.after_calls SASTokenAuth.handle_token 4
          (Sample.authenticator CBSAuthStatus.Error 2)).
Proof.
  destruct retries_monotone as (_ & _ & _ & H & _).
  apply (H (Sample.authenticator CBSAuthStatus.Error 2) 1%nat 4%nat). lia.
Defined.

(** [execute(timeout=100)] on a link that never answers. *)
Lemma execute_timeout_sample :
  fst (MgmtOperation.execute "op-1" 100 5 Sample.silent_mgmt) = Raise TimeoutError /\
  MgmtOperation._responses
    (snd (MgmtOperation.execute "op-1" 100 5 Sample.silent_mgmt)) !! "op-1"%string
  = Some None.
Proof.
  assert (fst (MgmtOperation.execute "op-1" 100 5 Sample.silent_mgmt)
          = Raise TimeoutError) as H by (vm_compute; reflexivity).
  split; [exact H|].
  apply (execute_timeout_keeps_entry "op-1" 100 5 Sample.silent_mgmt H).
Defined.

(** C10 (as stated) fails when [handle_token] raises: the shutdown flag
    is set, the token has expired, and [do_work] raises [TokenExpired]. *)
Lemma do_work_shutdown_raises_TokenExpired :
  AMQPClient._shutdown
    (ReceiveClient.client (Sample.shut_down_receiver CBSAuthStatus.Expired)) = true /\
  fst (do_work (Sample.shut_down_receiver CBSAuthStatus.Expired)) = Raise TokenExpired.
Proof. split; vm_compute; reflexivity. Qed.

(** With the flag set and [handle_token] reporting [timed_out = True],
    [do_work] returns [False]. *)
Lemma do_work_shutdown_sample :
  fst (SASTokenAuth.handle_token (Sample.authenticator CBSAuthStatus.Timeout 3))
  = Return (true, false) /\
  fst (do_work (Sample.shut_down_receiver CBSAuthStatus.Timeout)) = Return (Some false) /\
  AMQPClient.works
    (ReceiveClient.client (snd (do_work (Sample.shut_down_receiver CBSAuthStatus.Timeout))))
  = AMQPClient.works
      (ReceiveClient.client (Sample.shut_down_receiver CBSAuthStatus.Timeout)).
Proof.
  split; [reflexivity|].
  destruct (@do_work_shutdown_returns_False
              ReceiveClient.t ReceiveClient.ReceiveClient_Client
              (Sample.shut_down_receiver CBSAuthStatus.Timeout)
              {| Connection.cbs := true |}
              ltac:(vm_compute; reflexivity) ltac:(vm_compute; reflexivity))
    as [_ H].
  rewrite (H eq_refl (Sample.authenticator CBSAuthStatus.Timeout 3) (true, false)
             (snd (SASTokenAuth.handle_token
                     (Sample.authenticator CBSAuthStatus.Timeout 3)))
             ltac:(vm_compute; reflexivity) ltac:(vm_compute; reflexivity)).
  split; vm_compute; reflexivity.
Defined.

(** Closing a client that was never opened. *)
Lemma close_sample :
  AMQPClient._session (SendClient.client (Sample.sender 0 1)) = None /\
  fst (SendClient.close (Sample.sender 0 1)) = Return tt /\
  AMQPClient.log (SendClient.client (snd (SendClient.close (Sample.sender 0 1)))) = [].
Proof.
  split; [reflexivity|].
  destruct close_when_closed_is_noop as (_ & H & _).
  destruct (H (Sample.sender 0 1) eq_refl) as [H1 _].
  split; [exact H1 | reflexivity].
Defined.

(** A batch size of 5 against a prefetch of 2. *)
Lemma receive_message_batch_size_sample :
  ReceiveClient._prefetch (Sample.receiver 2) < 5 /\
  fst (ReceiveClient.receive_message_batch (Some 5) None 0 5 (Sample.receiver 2))
  = Raise ValueError /\
  AMQPClient.works
    (ReceiveClient.client
       (snd (ReceiveClient.receive_message_batch (Some 5) None 0 5 (Sample.receiver 2))))
  = O.
Proof.
  assert (ReceiveClient._prefetch (Sample.receiver 2) < 5) as Hlt by (vm_compute; reflexivity).
  split; [exact Hlt|].
  destruct (receive_message_batch_size None 0 5 (Sample.receiver 2)) as [H _].
  destruct (H 5 ltac:(lia)) as [H1 _].
  rewrite (H1 Hlt). split; reflexivity.
Defined.



End Instances.

(** * Further properties *)

(** ** The two variants of [handle_token] *)

Section HandleTokenMore.
Import SASTokenAuth.

Lemma dispatch_invalid_irrelevant (inv1 inv2 : exn) (s : CBSAuthStatus.t) (a : t) :
  dispatch inv1 s a = dispatch inv2 s a.
Proof. unfold dispatch. destruct s; reflexivity. Qed.

Lemma poll_and_dispatch_agrees (inv1 inv2 : exn) (a : t) :
  poll_and_dispatch inv1 a = poll_and_dispatch inv2 a.
Proof.
  unfold poll_and_dispatch, cbs, CBSTokenAuth.get_status. run.
  destruct (CBSTokenAuth.status_feed _ _) as [s|]; [|reflexivity].
  rewrite (dispatch_invalid_irrelevant inv1 inv2).
  reflexivity.
Qed.


(** X2: [handle_token] raises only [TokenAuthFailure], [TokenExpired] or
    [AuthenticationException] (a [ValueError] from the status value never
    escapes), never reports [timed_out] and [in_progress] together, and
    polls the CBS object exactly once, whatever it then does. *)
Theorem handle_token_outcomes (a : t) :
  (forall e, fst (handle_token a) = Raise e ->
     e = TokenAuthFailure \/ e = TokenExpired \/ e = AuthenticationException) /\
  fst (handle_token a) <> Return (true, true) /\
  fst (handle_token a) <> OutOfFuel /\
  CBSTokenAuth.polls (_cbs_auth (snd (handle_token a)))
  = S (CBSTokenAuth.polls (_cbs_auth a)).
Proof.
  split; [|split; [|split]].
  - unfold handle_token, poll_and_dispatch, dispatch, update_token, cbs,
      CBSTokenAuth.get_status, CBSTokenAuth.record. run.
    destruct (CBSTokenAuth.status_feed _ _) as [[]|]; simpl; intros e E;
      try discriminate; try (inversion E; auto; fail).
    + destruct (negb _ || negb _); simpl in E; [inversion E; auto | discriminate].
    + destruct (_ <=? _); simpl in E; [inversion E; auto | discriminate].
  - unfold handle_token, poll_and_dispatch, dispatch, update_token, cbs,
      CBSTokenAuth.get_status, CBSTokenAuth.record. run.
    destruct (CBSTokenAuth.status_feed _ _) as [[]|]; simpl; try discriminate.
    + destruct (negb _ || negb _); simpl; discriminate.
    + destruct (_ <=? _); simpl; discriminate.
  - unfold handle_token, poll_and_dispatch, dispatch, update_token, cbs,
      CBSTokenAuth.get_status, CBSTokenAuth.record. run.
    destruct (CBSTokenAuth.status_feed _ _) as [[]|]; simpl; try discriminate.
    + destruct (negb _ || negb _); simpl; discriminate.
    + destruct (_ <=? _); simpl; discriminate.
  - apply (poll_frame AuthenticationException a).
Qed.

(** X3: on [RefreshRequired], an authenticator without a username or
    without a password raises [TokenExpired] and makes no call on the CBS
    object; one with both issues a new token, calls [refresh] with it once
    and returns [(False, False)].  The retry counter is left alone. *)
Theorem handle_token_RefreshRequired (a : t) :
  next_status a = Some CBSAuthStatus.RefreshRequired ->
  (truthy (username a) && truthy (password a) = false ->
   fst (handle_token a) = Raise TokenExpired /\
   CBSTokenAuth.calls (_cbs_auth (snd (handle_token a))) = CBSTokenAuth.calls (_cbs_auth a) /\
   token_version (snd (handle_token a)) = token_version a) /\
  (truthy (username a) && truthy (password a) = true ->
   fst (handle_token a) = Return (false, false) /\
   token_version (snd (handle_token a)) = S (token_version a) /\
   CBSTokenAuth.calls (_cbs_auth (snd (handle_token a)))
   = CBSTokenAuth.calls (_cbs_auth a) ++ [CBSTokenAuth.Refresh (S (token_version a))]) /\
  retries (snd (handle_token a)) = retries a.
Proof.
  intros Hs.
  unfold handle_token, poll_and_dispatch, dispatch, update_token, cbs,
    CBSTokenAuth.get_status, CBSTokenAuth.record, next_status in *.
  run. rewrite Hs. simpl.
  destruct (truthy (username a)), (truthy (password a)); simpl;
    repeat split; intros; try discriminate; reflexivity.
Qed.
End HandleTokenMore.

(** ** More on [MgmtOperation.execute] *)

Section ExecuteMore.
Import MgmtOperation.

Lemma on_complete_keeps_keys (op : t) (c : string * Message.ref) (k : string) :
  is_Some (_responses op !! k) -> is_Some (_responses (on_complete op c) !! k).
Proof.
  destruct c as [i m]. unfold on_complete. intros Hk.
  destruct (decide _); [|exact Hk]. cbn [_responses set_submitted set_responses].
  destruct (decide (i = k)) as [->|Hne].
  - rewrite lookup_insert_eq. eauto.
  - rewrite lookup_insert_ne by exact Hne. exact Hk.
Qed.

Lemma on_complete_keeps_error (op : t) (c : string * Message.ref) :
  mgmt_error (on_complete op c) = mgmt_error op.
Proof. destruct c as [i m]. unfold on_complete. destruct (decide _); reflexivity. Qed.

Lemma work_keeps_keys (op : t) (k : string) :
  is_Some (_responses op !! k) -> is_Some (_responses (snd (work op)) !! k).
Proof.
  unfold work. cbn [snd]. intros Hk.
  assert (forall l op0, is_Some (_responses op0 !! k) ->
            is_Some (_responses (fold_left on_complete l op0) !! k)) as Hfold.
  { induction l as [|c l IH]; intros op0 H0; simpl; [exact H0|].
    apply IH, on_complete_keeps_keys, H0. }
  destruct (link_error _); apply Hfold, Hk.
Qed.

Lemma wait_response_S (fuel : nat) (operation_id : string) (start_time timeout : Z) :
  wait_response (S fuel) operation_id start_time timeout
  = (op <- get ;;
     match _responses op !! operation_id with
     | None => raise KeyError
     | Some r =>
         if negb (truthy r) && negb (bool_decide (is_Some (mgmt_error op))) then
           (if 0 <? timeout then
              now <- get_current_ms ;;
              if timeout <=? now - start_time then raise TimeoutError else ret tt
            else ret tt) ;;
           work ;;
           wait_response fuel operation_id start_time timeout
         else ret tt
     end)%monad.
Proof. reflexivity. Qed.

(** One turn of the waiting loop, taken while the placeholder is still
    there and no error is recorded. *)
Lemma wait_response_turn (fuel : nat) (operation_id : string)
    (start_time timeout : Z) (op : t) :
  _responses op !! operation_id = Some None ->
  mgmt_error op = None ->
  wait_response (S fuel) operation_id start_time timeout op
  = if (0 <? timeout)
       && (timeout <=? TickCounter.readings (_counter op)
                         (TickCounter.reads (_counter op)) - start_time)
    then (Raise TimeoutError, snd (get_current_ms op))
    else wait_response fuel operation_id start_time timeout
           (snd (work (if 0 <? timeout then snd (get_current_ms op) else op))).
Proof.
  intros Hr He. rewrite wait_response_S. unfold bind at 1, get at 1.
  rewrite Hr, He. cbn [truthy negb andb bool_decide].
  replace (bool_decide (is_Some (@None error))) with false
    by (symmetry; apply bool_decide_eq_false; intros [? ?]; discriminate).
  cbn [negb andb].
  destruct (0 <? timeout); cbn [andb].
  - unfold get_current_ms, TickCounter.get_current_ms. run.
    destruct (_ <=? _); reflexivity.
  - reflexivity.
Qed.

Lemma wait_response_done (fuel : nat) (operation_id : string)
    (start_time timeout : Z) (op : t) (r : option Message.ref) :
  _responses op !! operation_id = Some r ->
  truthy r = true \/ is_Some (mgmt_error op) ->
  wait_response fuel operation_id start_time timeout op = (Return tt, op).
Proof.
  intros Hr Hd.
  assert (negb (truthy r) && negb (bool_decide (is_Some (mgmt_error op))) = false)
    as Hb.
  { destruct Hd as [->|He]; [reflexivity|].
    rewrite (bool_decide_eq_true_2 _ He). apply andb_false_r. }
  destruct fuel; simpl; run; rewrite Hr, Hb; reflexivity.
Qed.

Lemma wait_response_keeps_keys (fuel : nat) (operation_id : string)
    (start_time timeout : Z) (op : t) (k : string) :
  is_Some (_responses op !! k) ->
  is_Some (_responses (snd (wait_response fuel operation_id start_time timeout op)) !! k).
Proof.
  revert op. induction fuel as [|fuel IH]; intros op Hk.
  - simpl. run. destruct (_responses op !! operation_id) as [r|]; [|exact Hk].
    destruct (_ && _); exact Hk.
  - destruct (_responses op !! operation_id) as [[m|]|] eqn:Hr.
    + rewrite (wait_response_done _ _ _ _ _ _ Hr) by (left; reflexivity). exact Hk.
    + destruct (mgmt_error op) eqn:He.
      * rewrite (wait_response_done _ _ _ _ _ _ Hr) by (right; rewrite He; eauto).
        exact Hk.
      * rewrite (wait_response_turn _ _ _ _ _ Hr He).
        destruct (_ && _); cbn [snd]; [exact Hk|].
        apply IH, work_keeps_keys. destruct (0 <? timeout); exact Hk.
    + rewrite wait_response_S. run. rewrite Hr. exact Hk.
Qed.

(** What the waiting loop can end with. *)
Lemma wait_response_outcome (fuel : nat) (operation_id : string)
    (start_time timeout : Z) (op : t) :
  is_Some (_responses op !! operation_id) ->
  let out := wait_response fuel operation_id start_time timeout op in
  (fst out = Return tt /\
   exists r, _responses (snd out) !! operation_id = Some r /\
             (truthy r = true \/ is_Some (mgmt_error (snd out)))) \/
  (fst out = Raise TimeoutError /\ 0 < timeout) \/
  fst out = OutOfFuel.
Proof.
  revert op. induction fuel as [|fuel IH]; intros op [r Hr]; cbv zeta.
  - destruct (truthy r) eqn:Ht.
    + rewrite (wait_response_done _ _ _ _ _ _ Hr) by (left; exact Ht).
      left. split; [reflexivity|]. exists r. auto.
    + destruct (mgmt_error op) eqn:He.
      * rewrite (wait_response_done _ _ _ _ _ _ Hr) by (right; rewrite He; eauto).
        cbn [fst snd]. left. split; [reflexivity|]. exists r. rewrite He. eauto.
      * right; right. simpl. run. rewrite Hr, Ht, He. reflexivity.
  - destruct (truthy r) eqn:Ht.
    + rewrite (wait_response_done _ _ _ _ _ _ Hr) by (left; exact Ht).
      left. split; [reflexivity|]. exists r. auto.
    + destruct (mgmt_error op) eqn:He.
      * rewrite (wait_response_done _ _ _ _ _ _ Hr) by (right; rewrite He; eauto).
        cbn [fst snd]. left. split; [reflexivity|]. exists r. rewrite He. eauto.
      * destruct r; [discriminate|].
        rewrite (wait_response_turn _ _ _ _ _ Hr He).
        destruct (Z.ltb_spec 0 timeout); cbn [andb].
        -- destruct (_ <=? _); cbn [fst snd].
           ++ right; left. auto.
           ++ apply IH, work_keeps_keys. cbn. rewrite Hr. eauto.
        -- apply IH, work_keeps_keys. rewrite Hr. eauto.
Qed.

Lemma execute_unfold (operation_id : string) (timeout : Z) (fuel : nat) (op : t) :
  let start_time :=
    TickCounter.readings (_counter op) (TickCounter.reads (_counter op)) in
  let op0 :=
    set_submitted (submitted op ++ [operation_id])
      (set_responses (<[operation_id := None]> (_responses op))
         (snd (get_current_ms op))) in
  execute operation_id timeout fuel op
  = match wait_response fuel operation_id start_time timeout op0 with
    | (Return _, op1) =>
        match mgmt_error op1 with
        | Some e => (Raise (exn_of e), op1)
        | None =>
            match _responses op1 !! operation_id with
            | None => (Raise KeyError, op1)
            | Some response =>
                (Return response,
                 set_responses (delete operation_id (_responses op1)) op1)
            end
        end
    | (Raise e, op1) => (Raise e, op1)
    | (OutOfFuel, op1) => (OutOfFuel, op1)
    end.
Proof.
  unfold execute, get_current_ms, TickCounter.get_current_ms. run.
  destruct (wait_response _ _ _ _ _) as [[[]|e|] op1]; try reflexivity.
  destruct (mgmt_error op1); [reflexivity|].
  destruct (_responses op1 !! operation_id); reflexivity.
Qed.

(** X4: [execute] never raises [KeyError], and what it returns is a
    response message stored by the completion callback, never the [None]
    placeholder. *)
Theorem execute_returns_a_response (operation_id : string) (timeout : Z)
    (fuel : nat) (op : t) :
  fst (execute operation_id timeout fuel op) <> Raise KeyError /\
  (forall r, fst (execute operation_id timeout fuel op) = Return r ->
     exists m, r = Some m).
Proof.
  rewrite execute_unfold. cbv zeta.
  match goal with |- context [wait_response ?f ?i ?s ?t ?o] =>
    destruct (wait_response_outcome f i s t o) as [(Hf & r & Hr & Ht)|[(Hf & _)|Hf]];
      [cbn; rewrite lookup_insert_eq; eauto | | |];
      destruct (wait_response f i s t o) as [[[]|e|] op1]; cbn [fst snd] in *;
      try discriminate
  end.
  - destruct (mgmt_error op1) as [[]|] eqn:He; cbn.
    + split; [discriminate|]. intros ? E; discriminate.
    + split; [discriminate|]. intros ? E; discriminate.
    + rewrite Hr. cbn. split; [discriminate|]. intros r0 E. inversion E; subst.
      destruct Ht as [Ht|[? Ht]]; [|discriminate].
      destruct r0; [eauto | discriminate].
  - inversion Hf; subst. split; [discriminate|]. intros ? E; discriminate.
  - split; [discriminate|]. intros ? E; discriminate.
Qed.

(** X5: with [timeout <= 0] (the default is 0), [execute] never raises
    [TimeoutError]. *)
Theorem execute_without_timeout (operation_id : string) (timeout : Z)
    (fuel : nat) (op : t) :
  timeout <= 0 ->
  fst (execute operation_id timeout fuel op) <> Raise TimeoutError.
Proof.
  intros Hle. rewrite execute_unfold. cbv zeta.
  match goal with |- context [wait_response ?f ?i ?s ?t ?o] =>
    destruct (wait_response_outcome f i s t o) as [(Hf & _)|[(Hf & Hpos)|Hf]];
      [cbn; rewrite lookup_insert_eq; eauto | | |];
      destruct (wait_response f i s t o) as [[[]|e|] op1]; cbn [fst snd] in *;
      try discriminate; try lia
  end.
  destruct (mgmt_error op1) as [[]|]; cbn; try discriminate.
  destruct (_responses op1 !! operation_id); cbn; discriminate.
Qed.

(** X6: when an error is already recorded ([mgmt_error] set by a failed
    open or by the link), [execute] raises it without a single
    [connection.work()], and the placeholder it has just stored stays in
    the map. *)
Theorem execute_with_recorded_error (operation_id : string) (timeout : Z)
    (fuel : nat) (op : t) (e : error) :
  mgmt_error op = Some e ->
  fst (execute operation_id timeout fuel op) = Raise (exn_of e) /\
  works (snd (execute operation_id timeout fuel op)) = works op /\
  _responses (snd (execute operation_id timeout fuel op)) !! operation_id = Some None.
Proof.
  intros He. rewrite execute_unfold. cbv zeta.
  assert (forall op0, mgmt_error op0 = Some e ->
            _responses op0 !! operation_id = Some None ->
            wait_response fuel operation_id
              (TickCounter.readings (_counter op) (TickCounter.reads (_counter op)))
              timeout op0 = (Return tt, op0)) as Hw.
  { intros op0 He0 Hr0. destruct fuel; simpl; run; rewrite Hr0, He0; reflexivity. }
  rewrite Hw; [|exact He|cbn; apply lookup_insert_eq].
  cbn. rewrite He. cbn. repeat split. apply lookup_insert_eq.
Qed.

(** X7: [execute] never drops the entry of another operation: a key other
    than its own id that is in the map before the call is still there
    after it, whatever the outcome. *)
Theorem execute_keeps_other_entries (operation_id k : string) (timeout : Z)
    (fuel : nat) (op : t) :
  k <> operation_id ->
  is_Some (_responses op !! k) ->
  is_Some (_responses (snd (execute operation_id timeout fuel op)) !! k).
Proof.
  intros Hne Hk. rewrite execute_unfold. cbv zeta.
  match goal with |- context [wait_response ?f ?i ?s ?t ?o] =>
    pose proof (wait_response_keeps_keys f i s t o k) as Hw;
    destruct (wait_response f i s t o) as [[[]|e|] op1]; cbn [fst snd] in *
  end.
  - assert (is_Some (_responses op1 !! k)) as H1.
    { apply Hw. cbn. rewrite lookup_insert_ne by congruence. exact Hk. }
    destruct (mgmt_error op1); cbn; [exact H1|].
    destruct (_responses op1 !! operation_id); cbn; [|exact H1].
    rewrite lookup_delete_ne by congruence. exact H1.
  - apply Hw. cbn. rewrite lookup_insert_ne by congruence. exact Hk.
  - apply Hw. cbn. rewrite lookup_insert_ne by congruence. exact Hk.
Qed.
End ExecuteMore.

(** ** Opening and closing *)

Section OpenClose.

Lemma AMQPClient_close_connection (c c1 : AMQPClient.t) (s : Session) :
  AMQPClient._session c = Some s ->
  AMQPClient.close c = (Return tt, c1) ->
  AMQPClient._connection c1 = None.
Proof.
  intros Hs.
  unfold AMQPClient.close, AMQPClient.close_authenticator, AMQPClient.emit. run.
  rewrite Hs.
  destruct (AMQPClient._connection c) as [conn|]; [|discriminate].
  destruct (Connection.cbs conn), (AMQPClient._ext_connection c); simpl;
    try destruct (AMQPClient._auth c); simpl;
    intros E; inversion E; reflexivity.
Qed.


(** X9: [close()] on a client whose [_ext_connection] flag is set makes
    no destroy call on the connection or the CBS authenticator: the log
    gains nothing, or one session destroy.  The flag is never cleared, so
    this also holds for a connection the client creates itself in a later
    [open()]. *)
Theorem close_keeps_external_connection (c : AMQPClient.t) :
  AMQPClient._ext_connection c = true ->
  (AMQPClient.log (snd (AMQPClient.close c)) = AMQPClient.log c \/
   exists s, AMQPClient.log (snd (AMQPClient.close c))
             = AMQPClient.log c ++ [SessionDestroy s]) /\
  AMQPClient._ext_connection (snd (AMQPClient.close c)) = true /\
  (AMQPClient._session c = None ->
   let c1 := snd (AMQPClient.open None c) in
   is_Some (AMQPClient._connection c1) /\
   AMQPClient._ext_connection c1 = true /\
   (~ ConnectionDestroy ∈ AMQPClient.log c ->
    ~ ConnectionDestroy ∈ AMQPClient.log (snd (AMQPClient.close c1)))).
Proof.
  intros He.
  assert (forall c0, AMQPClient._ext_connection c0 = true ->
            (AMQPClient.log (snd (AMQPClient.close c0)) = AMQPClient.log c0 \/
             exists s, AMQPClient.log (snd (AMQPClient.close c0))
                       = AMQPClient.log c0 ++ [SessionDestroy s]) /\
            AMQPClient._ext_connection (snd (AMQPClient.close c0)) = true) as Hclose.
  { intros c0 He0.
    unfold AMQPClient.close, AMQPClient.close_authenticator, AMQPClient.emit. run.
    destruct (AMQPClient._session c0) as [s|]; [|auto].
    destruct (AMQPClient._connection c0) as [conn|]; [|auto].
    rewrite He0. destruct (Connection.cbs conn); cbn; eauto. }
  destruct (Hclose c He) as [H1 H2].
  split; [exact H1|]. split; [exact H2|].
  intros Hs c1.
  assert (AMQPClient.log c1 = AMQPClient.log c /\
          is_Some (AMQPClient._connection c1) /\
          AMQPClient._ext_connection c1 = true) as (Hl1 & Hc & He1).
  { subst c1. unfold AMQPClient.open. run. rewrite Hs. cbn.
    destruct (AMQPClient._auth c); cbn; eauto. }
  split; [exact Hc|]. split; [exact He1|]. intros Hlog.
  destruct (Hclose c1 He1) as [[Hl|[s Hl]] _]; rewrite Hl, Hl1.
  - exact Hlog.
  - intros Hin. apply elem_of_app in Hin as [Hin|Hin]; [exact (Hlog Hin)|].
    apply list_elem_of_singleton in Hin. discriminate.
Qed.

(** X10: a [SendClient.close()] that returns leaves no pending message,
    no sender and no session; the message objects are not touched. *)
Theorem SendClient_close_clears (c c1 : SendClient.t) :
  SendClient.close c = (Return tt, c1) ->
  SendClient._pending_messages c1 = [] /\
  SendClient._message_sender c1 = None /\
  AMQPClient._session (SendClient.client c1) = None /\
  SendClient.messages c1 = SendClient.messages c.
Proof.
  rewrite SendClient_close_unfold.
  pose proof (sender_before_close c) as Hn.
  assert (SendClient.messages (SendClient_before_close c) = SendClient.messages c)
    as Hm by (unfold SendClient_before_close;
              destruct (SendClient._message_sender c); reflexivity).
  generalize dependent (SendClient_before_close c). intros c0 Hn Hm.
  destruct (AMQPClient.close _) as [[[]|e|] b] eqn:E; try discriminate.
  intros E1. inversion E1; subst c1. cbn.
  repeat split; auto. apply (AMQPClient_close_returns _ _ E).
Qed.

(** X11: a [ReceiveClient.close()] that returns leaves no receiver and no
    session, and resets [_shutdown], [_last_activity_timestamp] and
    [_was_message_received]; the queue of received messages and the
    stored callback are left as they are. *)
Theorem ReceiveClient_close_resets (c c1 : ReceiveClient.t) :
  ReceiveClient.close c = (Return tt, c1) ->
  ReceiveClient._message_receiver c1 = None /\
  AMQPClient._session (ReceiveClient.client c1) = None /\
  AMQPClient._shutdown (ReceiveClient.client c1) = false /\
  ReceiveClient._last_activity_timestamp c1 = None /\
  ReceiveClient._was_message_received c1 = false /\
  ReceiveClient._received_messages c1 = ReceiveClient._received_messages c.
Proof.
  rewrite ReceiveClient_close_unfold.
  pose proof (receiver_before_close c) as Hn.
  assert (ReceiveClient._received_messages (ReceiveClient_before_close c)
          = ReceiveClient._received_messages c)
    as Hm by (unfold ReceiveClient_before_close;
              destruct (ReceiveClient._message_receiver c); reflexivity).
  generalize dependent (ReceiveClient_before_close c). intros c0 Hn Hm.
  destruct (AMQPClient.close _) as [[[]|e|] b] eqn:E; try discriminate.
  intros E1. inversion E1; subst c1. cbn.
  repeat split; auto. apply (AMQPClient_close_returns _ _ E).
Qed.
End OpenClose.

(** ** The gate, again *)

Section GateMore.
Context {C : Type} `{Client C}.

Lemma handle_token_async_client (b : AMQPClient.t) :
  AMQPClientAsync.handle_token_async b = AMQPClient.handle_token b.
Proof.
  unfold AMQPClientAsync.handle_token_async, AMQPClient.handle_token. run.
  destruct (AMQPClient._auth b); [reflexivity|].
  unfold SASTokenAuth.handle_token_async, SASTokenAuth.handle_token.
  rewrite (poll_and_dispatch_agrees ValueError AuthenticationException).
  reflexivity.
Qed.


(** X13: [mgmt_request] on a client without a connection (never opened,
    or closed) raises [AttributeError] at [self._connection.cbs]: the
    ["Session not yet open"] [ValueError] is reached only with a
    connection and no session.  Without a CBS authenticator on the
    connection, an open client goes straight to the session's request. *)
Theorem mgmt_request_needs_connection {A} (session_mgmt_request : M C A)
    (fuel : nat) (c : C) :
  (AMQPClient._connection (super c) = None ->
   mgmt_request session_mgmt_request fuel c = (Raise AttributeError, c)) /\
  (forall conn, AMQPClient._connection (super c) = Some conn ->
     Connection.cbs conn = false ->
     mgmt_request session_mgmt_request fuel c
     = match AMQPClient._session (super c) with
       | None => (Raise ValueError, c)
       | Some _ => session_mgmt_request c
       end).
Proof.
  split.
  - intros Hc. unfold mgmt_request.
    destruct fuel; cbn [await_token]; run; rewrite Hc; reflexivity.
  - intros conn Hc Hcbs. unfold mgmt_request.
    destruct fuel; cbn [await_token]; run; rewrite Hc, Hcbs; cbn;
      destruct (AMQPClient._session (super c)); reflexivity.
Qed.
End GateMore.

(** ** Transport passes per [do_work] *)

Section Passes.

Lemma handle_token_works (b : AMQPClient.t) :
  AMQPClient.works (snd (AMQPClient.handle_token b)) = AMQPClient.works b.
Proof.
  unfold AMQPClient.handle_token. run.
  destruct (AMQPClient._auth b) as [|a]; [reflexivity|].
  destruct (SASTokenAuth.handle_token a) as [r a']. reflexivity.
Qed.

Lemma transport_pass_works (b : AMQPClient.t) :
  at_most_one_pass b (snd (AMQPClient.transport_pass b)).
Proof.
  unfold at_most_one_pass, AMQPClient.transport_pass, AMQPClient.emit. run.
  destruct (AMQPClient._connection b); cbn; lia.
Qed.

Lemma at_most_one_pass_refl (b b' : AMQPClient.t) :
  AMQPClient.works b' = AMQPClient.works b -> at_most_one_pass b b'.
Proof. unfold at_most_one_pass. lia. Qed.

Lemma at_most_one_pass_from (b b1 b' : AMQPClient.t) :
  AMQPClient.works b1 = AMQPClient.works b ->
  at_most_one_pass b1 b' -> at_most_one_pass b b'.
Proof. unfold at_most_one_pass. lia. Qed.

Lemma at_most_one_pass_then (b b1 b' : AMQPClient.t) :
  at_most_one_pass b b1 ->
  AMQPClient.works b' = AMQPClient.works b1 -> at_most_one_pass b b'.
Proof. unfold at_most_one_pass. lia. Qed.

Section Generic.
Context {C : Type} `{Client C}.
Hypothesis callbacks_works :
  forall p c, AMQPClient.works (super (callbacks p c)) = AMQPClient.works (super c).
Hypothesis ready_works :
  forall c, AMQPClient.works (super (snd (client_ready c))) = AMQPClient.works (super c).
Hypothesis run_works :
  forall c, at_most_one_pass (super c) (super (snd (client_run c))).

Lemma connection_work_works (c : C) :
  at_most_one_pass (super c) (super (snd (connection_work c))).
Proof using callbacks_works.
  unfold connection_work, on_super. run.
  pose proof (transport_pass_works (super c)) as Ht.
  unfold at_most_one_pass in *.
  destruct (AMQPClient.transport_pass (super c)) as [[p|e|] b]; cbn [snd] in *;
    rewrite ?callbacks_works, super_set_super; exact Ht.
Qed.

Lemma do_work_works (c : C) :
  at_most_one_pass (super c) (super (snd (do_work c))).
Proof using callbacks_works ready_works run_works.
  unfold do_work. unfold bind at 1, get at 1.
  destruct (AMQPClient._connection (super c)) as [conn|];
    [|apply at_most_one_pass_refl; reflexivity].
  unfold bind at 1.
  assert (forall (status : bool * bool) (c1 : C),
            AMQPClient.works (super c1) = AMQPClient.works (super c) ->
            at_most_one_pass (super c)
                  (super (snd ((let '(timeout, auth_in_progress) := status in
                     c2 <- get ;;
                     if AMQPClient._shutdown (super c2) then ret (Some false)
                     else if timeout then raise TimeoutError
                     else if auth_in_progress
                          then connection_work ;; ret (Some true)
                     else
                       ready <- client_ready ;;
                       if negb ready
                       then connection_work ;; ret (Some true)
                       else client_run)%monad c1)))) as Hrest.
  { intros [timeout auth_in_progress] c1 H1. unfold bind at 1, get at 1.
    destruct (AMQPClient._shutdown _);
      [apply at_most_one_pass_refl; exact H1|].
    destruct timeout; [apply at_most_one_pass_refl; exact H1|].
    destruct auth_in_progress.
    - unfold bind at 1. pose proof (connection_work_works c1) as H2.
      apply (at_most_one_pass_from _ _ _ H1).
      destruct (connection_work c1) as [[[]|e|] c2]; exact H2.
    - unfold bind at 1. pose proof (ready_works c1) as H2.
      destruct (client_ready c1) as [[ready|e|] c2]; cbn [snd] in *;
        try (apply at_most_one_pass_refl; congruence).
      assert (AMQPClient.works (super c2) = AMQPClient.works (super c)) as H3
        by congruence.
      apply (at_most_one_pass_from _ _ _ H3).
      destruct ready; cbn [negb].
      + apply run_works.
      + unfold bind at 1. pose proof (connection_work_works c2) as H4.
        destruct (connection_work c2) as [[[]|e|] c3]; exact H4. }
  destruct (Connection.cbs conn).
  - unfold on_super, zoom. pose proof (handle_token_works (super c)) as Ht.
    destruct (AMQPClient.handle_token (super c)) as [[status|e|] b];
      cbn [snd] in *;
      try (apply at_most_one_pass_refl; rewrite super_set_super; exact Ht).
    refine (Hrest status (set_super b c) _). rewrite super_set_super. exact Ht.
  - exact (Hrest (false, false) c eq_refl).
Qed.
End Generic.

(** What [send_pending] does to the [AMQPClient] part of the client. *)
Lemma send_pending_client
    (f : MessageSendResult.t -> option exn -> Message.t -> Message.t)
    (m : Message.ref) (c : SendClient.t) :
  let c' := snd (SendClient.send_pending f m c) in
  fst (SendClient.send_pending f m c) = Return tt /\
  AMQPClient.works (SendClient.client c') = AMQPClient.works (SendClient.client c) /\
  (AMQPClient.log (SendClient.client c') = AMQPClient.log (SendClient.client c) \/
   exists t, AMQPClient.log (SendClient.client c')
             = AMQPClient.log (SendClient.client c) ++ [SenderSend m t]).
Proof.
  destruct (Message.state (SendClient.messages c m)) eqn:Hst.
  - rewrite (send_pending_waiting f c m Hst).
    destruct (_ && _); cbn [fst snd].
    + repeat split; auto.
    + unfold try_except_Exception.
      destruct (SendClient._message_sender c) as [s|] eqn:Hs.
      * rewrite (send_async_marked c m s _ Hs). cbv zeta.
        destruct (Connection.refused _ _); cbn; repeat split; eauto.
      * rewrite (send_async_no_sender c m _ Hs). cbn. repeat split; auto.
  - unfold SendClient.send_pending. run. rewrite Hst. cbn. auto.
  - unfold SendClient.send_pending. run. rewrite Hst. cbn. auto.
  - unfold SendClient.send_pending. run. rewrite Hst. cbn. auto.
Qed.

Lemma for_each_send_pending_client
    (f : MessageSendResult.t -> option exn -> Message.t -> Message.t)
    (l : list Message.ref) (c : SendClient.t) :
  let c' := snd (for_each l (SendClient.send_pending f) c) in
  fst (for_each l (SendClient.send_pending f) c) = Return tt /\
  AMQPClient.works (SendClient.client c') = AMQPClient.works (SendClient.client c) /\
  exists sent : list (Message.ref * Q),
    AMQPClient.log (SendClient.client c')
    = AMQPClient.log (SendClient.client c)
      ++ map (fun x => SenderSend (fst x) (snd x)) sent /\
    sublist (map fst sent) l.
Proof.
  revert c. induction l as [|m l IH]; intros c; cbn [for_each].
  - cbn. repeat split. exists []. cbn. rewrite app_nil_r. split; [reflexivity|].
    constructor.
  - unfold bind.
    destruct (send_pending_client f m c) as (H1 & H2 & H3). cbv zeta in *.
    destruct (SendClient.send_pending f m c) as [[[]|e|] c1]; cbn [fst snd] in *;
      try discriminate.
    destruct (IH c1) as (H4 & H5 & sent & H6 & H7). cbv zeta in *.
    split; [exact H4|]. split; [congruence|].
    destruct H3 as [H3|[t H3]].
    + exists sent. rewrite H6, H3. split; [reflexivity|].
      apply sublist_cons, H7.
    + exists ((m, t) :: sent). rewrite H6, H3, <- app_assoc. split; [reflexivity|].
      cbn. apply sublist_skip, H7.
Qed.

Lemma sender_callbacks_client
    (f : MessageSendResult.t -> option exn -> Message.t -> Message.t)
    (p : Connection.pass) (c : SendClient.t) :
  SendClient.client (SendClient.sender_callbacks f p c) = SendClient.client c.
Proof.
  unfold SendClient.sender_callbacks.
  assert (forall l c2, SendClient.client (fold_left (SendClient.on_settled f) l c2)
                       = SendClient.client c2) as Hfold.
  { induction l as [|[m0 r0] l IH]; intros c2; cbn [fold_left]; [reflexivity|].
    rewrite IH. unfold SendClient.on_settled.
    destruct (SendClient._message_sender c2); [|reflexivity].
    destruct (decide _); reflexivity. }
  rewrite Hfold. destruct (Connection.sender_state p); [|reflexivity].
  unfold SendClient.on_state_changed.
  destruct (SendClient._message_sender c); reflexivity.
Qed.

Lemma receiver_callbacks_client (p : Connection.pass) (c : ReceiveClient.t) :
  ReceiveClient.client (ReceiveClient.receiver_callbacks p c) = ReceiveClient.client c.
Proof.
  unfold ReceiveClient.receiver_callbacks.
  destruct (ReceiveClient._message_receiver c); [|reflexivity].
  assert (forall l c2,
            ReceiveClient.client (fold_left ReceiveClient._message_received l c2)
            = ReceiveClient.client c2) as Hfold.
  { induction l as [|m l IH]; intros c2; cbn [fold_left]; [reflexivity|].
    rewrite IH. unfold ReceiveClient._message_received. cbn.
    destruct (ReceiveClient._received_messages c2); reflexivity. }
  rewrite Hfold. destruct (Connection.receiver_state p); reflexivity.
Qed.

(** X14: a run step of [SendClient] that returns has handed messages to
    [send_async] in the order of the pending queue, each at most once per
    position in the queue, and only then made its one transport pass: the
    log gains the [send_async] calls, a subsequence of the queue, followed
    by one [connection.work()]. *)
Theorem _client_run_sends_in_queue_order
    (f : MessageSendResult.t -> option exn -> Message.t -> Message.t)
    (c : SendClient.t) (r : option bool) :
  fst (SendClient._client_run f c) = Return r ->
  r = Some true /\
  AMQPClient.works (SendClient.client (snd (SendClient._client_run f c)))
  = S (AMQPClient.works (SendClient.client c)) /\
  exists sent : list (Message.ref * Q),
    AMQPClient.log (SendClient.client (snd (SendClient._client_run f c)))
    = AMQPClient.log (SendClient.client c)
      ++ map (fun x => SenderSend (fst x) (snd x)) sent ++ [ConnectionWork] /\
    sublist (map fst sent) (SendClient._pending_messages c).
Proof.
  destruct (SendClient._client_run f c) as [r' c'] eqn:E. cbn [fst snd].
  intros Hr. subst r'.
  unfold SendClient._client_run in E. unfold bind at 1, get at 1 in E.
  unfold bind at 1 in E.
  destruct (for_each_send_pending_client f (SendClient._pending_messages c) c)
    as (H1 & H2 & sent & H3 & H4). cbv zeta in *.
  destruct (for_each _ _ c) as [[[]|e|] c1]; cbn [fst snd] in *; try discriminate.
  unfold SendClient.amqp, AMQPClient.transport_pass, AMQPClient.emit in E.
  run.
  pose proof (sender_callbacks_client f) as Hcb.
  destruct (AMQPClient._connection (SendClient.client c1)); cbn in E;
    [|discriminate].
  inversion E; subst. split; [reflexivity|]. rewrite Hcb. cbn.
  split; [congruence|].
  exists sent. split; [|exact H4].
  rewrite H3, <- app_assoc. reflexivity.
Qed.

Lemma SendClient_ready_works
    (c : SendClient.t) :
  AMQPClient.works (SendClient.client (snd (SendClient._client_ready c)))
  = AMQPClient.works (SendClient.client c).
Proof.
  unfold SendClient._client_ready, SendClient.amqp, AMQPClient.emit. run.
  destruct (SendClient._message_sender c) as [s|].
  - repeat destruct (decide _); reflexivity.
  - destruct (AMQPClient._session (SendClient.client c)); reflexivity.
Qed.

Lemma SendClient_run_works
    (f : MessageSendResult.t -> option exn -> Message.t -> Message.t)
    (c : SendClient.t) :
  at_most_one_pass (SendClient.client c)
                   (SendClient.client (snd (SendClient._client_run f c))).
Proof.
  unfold SendClient._client_run. unfold bind at 1, get at 1. unfold bind at 1.
  destruct (for_each_send_pending_client f (SendClient._pending_messages c) c)
    as (H1 & H2 & _). cbv zeta in *.
  destruct (for_each _ _ c) as [[[]|e|] c1]; cbn [fst snd] in *; try discriminate.
  apply (at_most_one_pass_from _ _ _ H2).
  unfold bind at 1, SendClient.amqp, zoom.
  pose proof (transport_pass_works (SendClient.client c1)) as Ht.
  destruct (AMQPClient.transport_pass (SendClient.client c1)) as [[p|e|] b];
    cbn [snd] in *; try exact Ht.
  run. rewrite sender_callbacks_client. exact Ht.
Qed.

Lemma ReceiveClient_ready_works (c : ReceiveClient.t) :
  AMQPClient.works (ReceiveClient.client (snd (ReceiveClient._client_ready c)))
  = AMQPClient.works (ReceiveClient.client c).
Proof.
  unfold ReceiveClient._client_ready, ReceiveClient.amqp, AMQPClient.emit,
    AMQPClient.get_current_ms, TickCounter.get_current_ms. run.
  destruct (ReceiveClient._message_receiver c) as [s|].
  - repeat destruct (decide _); reflexivity.
  - destruct (AMQPClient._session (ReceiveClient.client c)); reflexivity.
Qed.

Lemma ReceiveClient_run_works (c : ReceiveClient.t) :
  at_most_one_pass (ReceiveClient.client c)
                   (ReceiveClient.client (snd (ReceiveClient._client_run c))).
Proof.
  unfold ReceiveClient._client_run. unfold bind at 1, ReceiveClient.amqp at 1, zoom.
  pose proof (transport_pass_works (ReceiveClient.client c)) as Ht.
  destruct (AMQPClient.transport_pass (ReceiveClient.client c)) as [[p|e|] b];
    cbn [snd] in *; try exact Ht.
  apply (at_most_one_pass_then _ _ _ Ht).
  unfold bind at 1, modify at 1.
  set (c1 := ReceiveClient.receiver_callbacks p (ReceiveClient.set_client b c)).
  assert (ReceiveClient.client c1 = b) as Hc1
    by (subst c1; rewrite receiver_callbacks_client; reflexivity).
  rewrite <- Hc1. clearbody c1. clear.
  unfold ReceiveClient.amqp, AMQPClient.get_current_ms,
    TickCounter.get_current_ms. run.
  destruct (0 <? ReceiveClient._timeout c1)%Z; [|reflexivity].
  cbn.
  destruct (_ && _); [|reflexivity].
  destruct (_ <=? _)%Z; reflexivity.
Qed.

(** X15: one call of [do_work] calls [self._connection.work()] at most
    once, whatever the client class, the state it starts from and the way
    it ends (a result or an exception). *)
Theorem do_work_at_most_one_transport_pass
    (f : MessageSendResult.t -> option exn -> Message.t -> Message.t) :
  (forall c : AMQPClient.t, at_most_one_pass c (snd (do_work c))) /\
  (forall c : SendClient.t,
     at_most_one_pass (SendClient.client c)
       (SendClient.client (snd (do_work (H := SendClient.SendClient_Client f) c)))) /\
  (forall c : ReceiveClient.t,
     at_most_one_pass (ReceiveClient.client c)
       (ReceiveClient.client (snd (do_work c)))).
Proof.
  split; [|split]; intros c.
  - apply (do_work_works (H := AMQPClient_Client)).
    + reflexivity.
    + reflexivity.
    + intros c0. cbn. unfold bind.
      pose proof (transport_pass_works c0) as Ht.
      destruct (AMQPClient.transport_pass c0) as [[p|e|] b]; exact Ht.
  - apply (do_work_works (H := SendClient.SendClient_Client f)).
    + intros p c0. cbn. rewrite sender_callbacks_client. reflexivity.
    + exact SendClient_ready_works.
    + exact (SendClient_run_works f).
  - apply (do_work_works (H := ReceiveClient.ReceiveClient_Client)).
    + intros p c0. cbn. rewrite receiver_callbacks_client. reflexivity.
    + exact ReceiveClient_ready_works.
    + exact ReceiveClient_run_works.
Qed.
End Passes.

(** ** Queueing and waiting ([SendClient]) *)

Section Queueing.

(** The loop body shared by [queue_message] and [send_message]. *)
Lemma stamp_and_queue (m : Message.ref) (c : SendClient.t) :
  let body := (now <- SendClient.amqp AMQPClient.get_current_ms ;;
               modify (SendClient.update_message m (Message.set_idle_time now)) ;;
               modify (fun c => SendClient.set_pending_messages
                                  (SendClient._pending_messages c ++ [m]) c))%monad in
  let b := SendClient.client c in
  let now := TickCounter.readings (AMQPClient._counter b)
               (TickCounter.reads (AMQPClient._counter b)) in
  body c =
  (Return tt,
   SendClient.set_pending_messages (SendClient._pending_messages c ++ [m])
     (SendClient.update_message m (Message.set_idle_time now)
        (SendClient.set_client
           (AMQPClient.set_counter
              {| TickCounter.readings := TickCounter.readings (AMQPClient._counter b);
                 TickCounter.reads := S (TickCounter.reads (AMQPClient._counter b)) |}
              b) c))).
Proof. reflexivity. Qed.

(** X16: [queue_message] only stamps and queues.  It returns normally from
    any state, open or not; the messages are appended to the pending queue
    in the order given; one clock reading is taken per message and becomes
    its [idle_time]; no message changes state; and nothing reaches the
    connection, the session or the sender (no transport pass, no C call). *)
Theorem queue_message_only_stamps_and_queues
    (gathered : list Message.ref) (c : SendClient.t) :
  let c' := snd (SendClient.queue_message gathered c) in
  let b := SendClient.client c in
  let b' := SendClient.client c' in
  fst (SendClient.queue_message gathered c) = Return tt /\
  SendClient._pending_messages c' = SendClient._pending_messages c ++ gathered /\
  SendClient._message_sender c' = SendClient._message_sender c /\
  (AMQPClient.log b' = AMQPClient.log b /\
   AMQPClient.works b' = AMQPClient.works b /\
   AMQPClient._connection b' = AMQPClient._connection b /\
   AMQPClient._session b' = AMQPClient._session b /\
   AMQPClient._shutdown b' = AMQPClient._shutdown b) /\
  (TickCounter.readings (AMQPClient._counter b')
   = TickCounter.readings (AMQPClient._counter b) /\
   TickCounter.reads (AMQPClient._counter b')
   = (TickCounter.reads (AMQPClient._counter b) + length gathered)%nat) /\
  (forall m, Message.state (SendClient.messages c' m)
             = Message.state (SendClient.messages c m)) /\
  (forall m, m ∉ gathered -> SendClient.messages c' m = SendClient.messages c m) /\
  (forall i m, gathered !! i = Some m -> m ∉ drop (S i) gathered ->
     Message.idle_time (SendClient.messages c' m)
     = TickCounter.readings (AMQPClient._counter b)
         (TickCounter.reads (AMQPClient._counter b) + i)%nat).
Proof.
  unfold SendClient.queue_message.
  match goal with |- context [for_each gathered ?b] => set (body := b) end.
  assert (forall m c0, body m c0 = _) as Hbody
    by (intros m c0; subst body; exact (stamp_and_queue m c0)).
  clearbody body. cbv zeta in *. revert c.
  induction gathered as [|m0 l IH]; intros c; cbn [for_each].
  - cbn. rewrite app_nil_r, Nat.add_0_r. repeat split; auto.
    intros i m Hi. rewrite lookup_nil in Hi. discriminate.
  - unfold bind. rewrite Hbody. cbv beta iota.
    match goal with |- context [for_each l _ ?c1] => set (c1' := c1) end.
    destruct (IH c1') as (H1 & H2 & H3 & (H4 & H5 & H6 & H7 & H8) & (H9 & H10)
                          & H11 & H12 & H13).
    cbv zeta in *.
    destruct (for_each l _ c1') as [r c2]. cbn [fst snd] in *.
    split; [exact H1|]. split.
    { rewrite H2. subst c1'. cbn. rewrite <- app_assoc. reflexivity. }
    split; [rewrite H3; reflexivity|].
    split; [repeat split; rewrite ?H4, ?H5, ?H6, ?H7, ?H8; reflexivity|].
    split.
    { split; [rewrite H9; reflexivity|]. rewrite H10. subst c1'. cbn. lia. }
    assert (forall m, SendClient.messages c1' m
                      = if decide (m = m0)
                        then Message.set_idle_time
                               (TickCounter.readings
                                  (AMQPClient._counter (SendClient.client c))
                                  (TickCounter.reads
                                     (AMQPClient._counter (SendClient.client c))))
                               (SendClient.messages c m)
                        else SendClient.messages c m) as Hm.
    { intros m. subst c1'. cbn [SendClient.messages SendClient.set_pending_messages].
      destruct (decide (m = m0)) as [->|Hne].
      - rewrite messages_update_eq. reflexivity.
      - rewrite messages_update_ne by exact Hne. reflexivity. }
    split.
    { intros m. rewrite H11, Hm. destruct (decide _); reflexivity. }
    split.
    { intros m Hn. rewrite H12, Hm.
      - destruct (decide (m = m0)) as [->|]; [|reflexivity].
        exfalso. apply Hn. left.
      - intros Hin. apply Hn. right. exact Hin. }
    intros [|i] m Hi Hd; cbn in Hi, Hd.
    + inversion Hi; subst m. rewrite drop_0 in Hd.
      rewrite H12 by exact Hd. rewrite Hm, decide_True by reflexivity.
      cbn. rewrite Nat.add_0_r. reflexivity.
    + rewrite (H13 i m Hi Hd). subst c1'. cbn. f_equal. lia.
Qed.
End Queueing.

(** ** What [do_work] leaves alone *)

Section Link.

Lemma same_link_refl (b : AMQPClient.t) : same_link b b.
Proof. unfold same_link. auto. Qed.

Lemma same_link_trans (b1 b2 b3 : AMQPClient.t) :
  same_link b1 b2 -> same_link b2 b3 -> same_link b1 b3.
Proof. unfold same_link. intros (?&?&?&?) (?&?&?&?). repeat split; congruence. Qed.

Lemma same_link_opened (b b' : AMQPClient.t) :
  same_link b b' -> opened b -> opened b'.
Proof.
  unfold same_link, opened. intros (H1 & H2 & H3 & H4) (Hs & conn & Hc & Ha).
  rewrite H1, H2, H4. eauto.
Qed.

Lemma handle_token_link (b : AMQPClient.t) :
  same_link b (snd (AMQPClient.handle_token b)).
Proof.
  unfold AMQPClient.handle_token, same_link. run.
  destruct (AMQPClient._auth b) as [|a] eqn:Ha; [cbn; rewrite ?Ha; auto|].
  destruct (SASTokenAuth.handle_token a) as [r a']. cbn. rewrite ?Ha. auto.
Qed.

Lemma transport_pass_link (b : AMQPClient.t) :
  same_link b (snd (AMQPClient.transport_pass b)).
Proof.
  unfold AMQPClient.transport_pass, AMQPClient.emit, same_link. run.
  destruct (AMQPClient._connection b) eqn:Hc; cbn; rewrite ?Hc; auto.
Qed.

Section Generic.
Context {C : Type} `{Client C}.
Hypothesis callbacks_link :
  forall p c, same_link (super c) (super (callbacks p c)).
Hypothesis ready_link :
  forall c, same_link (super c) (super (snd (client_ready c))).
Hypothesis run_link :
  forall c, same_link (super c) (super (snd (client_run c))).

Lemma connection_work_link (c : C) :
  same_link (super c) (super (snd (connection_work c))).
Proof using callbacks_link.
  unfold connection_work, on_super, zoom. unfold bind at 1.
  pose proof (transport_pass_link (super c)) as Ht.
  destruct (AMQPClient.transport_pass (super c)) as [[p|e|] b]; cbn [snd] in *;
    try (rewrite super_set_super; exact Ht).
  unfold modify. cbn [snd].
  eapply same_link_trans; [|apply callbacks_link].
  rewrite super_set_super. exact Ht.
Qed.

Lemma do_work_link (c : C) :
  same_link (super c) (super (snd (do_work c))).
Proof using callbacks_link ready_link run_link.
  unfold do_work. unfold bind at 1, get at 1.
  destruct (AMQPClient._connection (super c)) as [conn|];
    [|apply same_link_refl].
  unfold bind at 1.
  assert (forall (status : bool * bool) (c1 : C),
            same_link (super c) (super c1) ->
            same_link (super c)
                  (super (snd ((let '(timeout, auth_in_progress) := status in
                     c2 <- get ;;
                     if AMQPClient._shutdown (super c2) then ret (Some false)
                     else if timeout then raise TimeoutError
                     else if auth_in_progress
                          then connection_work ;; ret (Some true)
                     else
                       ready <- client_ready ;;
                       if negb ready
                       then connection_work ;; ret (Some true)
                       else client_run)%monad c1)))) as Hrest.
  { intros [timeout auth_in_progress] c1 H1. unfold bind at 1, get at 1.
    destruct (AMQPClient._shutdown _); [exact H1|].
    destruct timeout; [exact H1|].
    destruct auth_in_progress.
    - unfold bind at 1. pose proof (connection_work_link c1) as H2.
      apply (same_link_trans _ _ _ H1).
      destruct (connection_work c1) as [[[]|e|] c2]; exact H2.
    - unfold bind at 1. pose proof (ready_link c1) as H2.
      pose proof (same_link_trans _ _ _ H1 H2) as H3.
      destruct (client_ready c1) as [[ready|e|] c2]; cbn [snd] in *;
        try exact H3.
      apply (same_link_trans _ _ _ H3).
      destruct ready; cbn [negb].
      + apply run_link.
      + unfold bind at 1. pose proof (connection_work_link c2) as H4.
        destruct (connection_work c2) as [[[]|e|] c3]; exact H4. }
  destruct (Connection.cbs conn).
  - unfold on_super, zoom. pose proof (handle_token_link (super c)) as Ht.
    destruct (AMQPClient.handle_token (super c)) as [[status|e|] b];
      cbn [snd] in *;
      try (rewrite super_set_super; exact Ht).
    refine (Hrest status (set_super b c) _). rewrite super_set_super. exact Ht.
  - exact (Hrest (false, false) c (same_link_refl _)).
Qed.
End Generic.

Local Ltac same_link_now :=
  first [apply same_link_refl | unfold same_link; cbn; auto].

Lemma send_pending_link
    (f : MessageSendResult.t -> option exn -> Message.t -> Message.t)
    (m : Message.ref) (c : SendClient.t) :
  same_link (SendClient.client c)
            (SendClient.client (snd (SendClient.send_pending f m c))).
Proof.
  destruct (Message.state (SendClient.messages c m)) eqn:Hst.
  - rewrite (send_pending_waiting f c m Hst).
    destruct (_ && _); cbn [fst snd].
    + same_link_now.
    + unfold try_except_Exception.
      destruct (SendClient._message_sender c) as [s|] eqn:Hs.
      * rewrite (send_async_marked c m s _ Hs). cbv zeta.
        destruct (Connection.refused _ _); same_link_now.
      * rewrite (send_async_no_sender c m _ Hs). same_link_now.
  - unfold SendClient.send_pending. run. rewrite Hst. same_link_now.
  - unfold SendClient.send_pending. run. rewrite Hst. same_link_now.
  - unfold SendClient.send_pending. run. rewrite Hst. same_link_now.
Qed.

Lemma for_each_send_pending_link
    (f : MessageSendResult.t -> option exn -> Message.t -> Message.t)
    (l : list Message.ref) (c : SendClient.t) :
  same_link (SendClient.client c)
            (SendClient.client (snd (for_each l (SendClient.send_pending f) c))).
Proof.
  revert c. induction l as [|m l IH]; intros c; cbn [for_each].
  - same_link_now.
  - unfold bind. pose proof (send_pending_link f m c) as H1.
    destruct (SendClient.send_pending f m c) as [[[]|e|] c1]; cbn [snd] in *;
      try exact H1.
    exact (same_link_trans _ _ _ H1 (IH c1)).
Qed.

Lemma SendClient_ready_link (c : SendClient.t) :
  same_link (SendClient.client c)
            (SendClient.client (snd (SendClient._client_ready c))).
Proof.
  unfold SendClient._client_ready, SendClient.amqp, AMQPClient.emit. run.
  destruct (SendClient._message_sender c) as [s|].
  - repeat destruct (decide _); same_link_now.
  - destruct (AMQPClient._session (SendClient.client c)); same_link_now.
Qed.

Lemma SendClient_run_link
    (f : MessageSendResult.t -> option exn -> Message.t -> Message.t)
    (c : SendClient.t) :
  same_link (SendClient.client c)
            (SendClient.client (snd (SendClient._client_run f c))).
Proof.
  unfold SendClient._client_run. unfold bind at 1, get at 1. unfold bind at 1.
  pose proof (for_each_send_pending_link f (SendClient._pending_messages c) c) as H1.
  destruct (for_each _ _ c) as [[[]|e|] c1]; cbn [fst snd] in *; try exact H1.
  apply (same_link_trans _ _ _ H1).
  unfold bind at 1, SendClient.amqp, zoom.
  pose proof (transport_pass_link (SendClient.client c1)) as Ht.
  destruct (AMQPClient.transport_pass (SendClient.client c1)) as [[p|e|] b];
    cbn [snd] in *; try exact Ht.
  run. rewrite sender_callbacks_client. exact Ht.
Qed.

Lemma ReceiveClient_ready_link (c : ReceiveClient.t) :
  same_link (ReceiveClient.client c)
            (ReceiveClient.client (snd (ReceiveClient._client_ready c))).
Proof.
  unfold ReceiveClient._client_ready, ReceiveClient.amqp, AMQPClient.emit,
    AMQPClient.get_current_ms, TickCounter.get_current_ms. run.
  destruct (ReceiveClient._message_receiver c) as [s|].
  - repeat destruct (decide _); same_link_now.
  - destruct (AMQPClient._session (ReceiveClient.client c)); same_link_now.
Qed.

Lemma ReceiveClient_run_link (c : ReceiveClient.t) :
  same_link (ReceiveClient.client c)
            (ReceiveClient.client (snd (ReceiveClient._client_run c))).
Proof.
  unfold ReceiveClient._client_run. unfold bind at 1, ReceiveClient.amqp at 1, zoom.
  pose proof (transport_pass_link (ReceiveClient.client c)) as Ht.
  destruct (AMQPClient.transport_pass (ReceiveClient.client c)) as [[p|e|] b];
    cbn [snd] in *; try exact Ht.
  apply (same_link_trans _ _ _ Ht).
  unfold bind at 1, modify at 1.
  set (c1 := ReceiveClient.receiver_callbacks p (ReceiveClient.set_client b c)).
  assert (ReceiveClient.client c1 = b) as Hc1
    by (subst c1; rewrite receiver_callbacks_client; reflexivity).
  rewrite <- Hc1. clearbody c1. clear.
  unfold ReceiveClient.amqp, AMQPClient.get_current_ms,
    TickCounter.get_current_ms. run.
  destruct (0 <? ReceiveClient._timeout c1)%Z; [|same_link_now].
  cbn.
  destruct (_ && _); [|same_link_now].
  destruct (_ <=? _)%Z; same_link_now.
Qed.

Lemma SendClient_do_work_link
    (f : MessageSendResult.t -> option exn -> Message.t -> Message.t)
    (c : SendClient.t) :
  same_link (SendClient.client c)
    (SendClient.client (snd (do_work (H := SendClient.SendClient_Client f) c))).
Proof.
  apply (do_work_link (H := SendClient.SendClient_Client f)).
  - intros p c0. cbn. rewrite sender_callbacks_client. apply same_link_refl.
  - exact SendClient_ready_link.
  - exact (SendClient_run_link f).
Qed.

Lemma ReceiveClient_do_work_link (c : ReceiveClient.t) :
  same_link (ReceiveClient.client c) (ReceiveClient.client (snd (do_work c))).
Proof.
  apply (do_work_link (H := ReceiveClient.ReceiveClient_Client)).
  - intros p c0. cbn. rewrite receiver_callbacks_client. apply same_link_refl.
  - exact ReceiveClient_ready_link.
  - exact ReceiveClient_run_link.
Qed.

(** X17: [do_work] never opens, closes or replaces anything: the client
    holds the same connection, the same session, the same
    [_ext_connection] flag and the same kind of authentication afterwards,
    whatever the client class and however the call ends. *)
Theorem do_work_keeps_connection_and_session
    (f : MessageSendResult.t -> option exn -> Message.t -> Message.t) :
  (forall c : AMQPClient.t, same_link c (snd (do_work c))) /\
  (forall c : SendClient.t,
     same_link (SendClient.client c)
       (SendClient.client (snd (do_work (H := SendClient.SendClient_Client f) c)))) /\
  (forall c : ReceiveClient.t,
     same_link (ReceiveClient.client c) (ReceiveClient.client (snd (do_work c)))).
Proof.
  split; [|split].
  - intros c. apply (do_work_link (H := AMQPClient_Client)).
    + intros; apply same_link_refl.
    + intros; apply same_link_refl.
    + intros c0. cbn. unfold bind.
      pose proof (transport_pass_link c0) as Ht.
      destruct (AMQPClient.transport_pass c0) as [[p|e|] b]; exact Ht.
  - exact (SendClient_do_work_link f).
  - exact ReceiveClient_do_work_link.
Qed.

Lemma open_opened (b : AMQPClient.t) :
  AMQPClient._session b = None ->
  fst (AMQPClient.open None b) = Return tt /\ opened (snd (AMQPClient.open None b)).
Proof.
  intros Hs. unfold AMQPClient.open, opened. run. rewrite Hs. cbn.
  destruct (AMQPClient._auth b) eqn:Ha; cbn; rewrite ?Ha; cbn;
    (split; [reflexivity|]); (split; [eauto|]); eexists; split; eauto.
Qed.

Lemma close_opened (b : AMQPClient.t) :
  opened b ->
  fst (AMQPClient.close b) = Return tt /\
  AMQPClient._session (snd (AMQPClient.close b)) = None /\
  AMQPClient._connection (snd (AMQPClient.close b)) = None.
Proof.
  intros ([s Hs] & conn & Hc & Ha).
  unfold AMQPClient.close, AMQPClient.close_authenticator, AMQPClient.emit. run.
  rewrite Hs, Hc.
  destruct (Connection.cbs conn) eqn:Hcbs, (AMQPClient._ext_connection b); cbn;
    auto.
  specialize (Ha eq_refl). destruct (AMQPClient._auth b); [discriminate|]. cbn. auto.
Qed.
End Link.

(** ** [send_message] *)

Section SendMessageProps.
Variable f : MessageSendResult.t -> option exn -> Message.t -> Message.t.
Variable DONE_STATES : list MessageState.t.

Lemma filter_nil_false {A} (p : A -> bool) (l : list A) :
  List.filter p l = [] -> forall x, x ∈ l -> p x = false.
Proof.
  induction l as [|a l IH]; cbn; intros Hf x Hx.
  - apply elem_of_nil in Hx. destruct Hx.
  - destruct (p a) eqn:Hp; [discriminate|].
    apply elem_of_cons in Hx as [->|Hx]; [exact Hp|exact (IH Hf x Hx)].
Qed.

Lemma any_false (l : list Message.ref) : SendMessage.any l = false -> l = [].
Proof. destruct l; [reflexivity|discriminate]. Qed.

Lemma open_returns (b : AMQPClient.t) : fst (AMQPClient.open None b) = Return tt.
Proof.
  unfold AMQPClient.open. run.
  destruct (bool_decide _); [reflexivity|]. cbn.
  destruct (Auth.is_cbs (AMQPClient._auth b)) eqn:Ha; cbn; reflexivity.
Qed.

Lemma queue_message_link (gathered : list Message.ref) (c : SendClient.t) :
  same_link (SendClient.client c)
            (SendClient.client (snd (SendClient.queue_message gathered c))).
Proof.
  unfold SendClient.queue_message.
  match goal with |- context [for_each gathered ?b] => set (body := b) end.
  assert (forall m c0, body m c0 = _) as Hbody
    by (intros m c0; subst body; exact (stamp_and_queue m c0)).
  clearbody body. cbv zeta in *. revert c.
  induction gathered as [|m0 l IH]; intros c; cbn [for_each].
  - apply same_link_refl.
  - unfold bind. rewrite Hbody. cbv beta iota.
    eapply same_link_trans; [|apply IH].
    unfold same_link. cbn. auto.
Qed.

Lemma SendClient_close_opened (c : SendClient.t) :
  opened (SendClient.client c) ->
  exists c1, SendClient.close c = (Return tt, c1) /\
             SendClient._pending_messages c1 = [] /\
             SendClient._message_sender c1 = None /\
             AMQPClient._session (SendClient.client c1) = None /\
             AMQPClient._connection (SendClient.client c1) = None.
Proof.
  intros Ho. rewrite SendClient_close_unfold.
  pose proof (sender_before_close c) as Hn.
  assert (opened (SendClient.client (SendClient_before_close c))) as Ho'.
  { unfold SendClient_before_close.
    destruct (SendClient._message_sender c); [|exact Ho].
    revert Ho. apply same_link_opened. unfold same_link. cbn. auto. }
  generalize dependent (SendClient_before_close c). intros c0 Hn Ho'.
  destruct (close_opened _ Ho') as (H1 & H2 & H3).
  destruct (AMQPClient.close (SendClient.client c0)) as [[[]|e|] b];
    cbn [fst snd] in *; try discriminate.
  eexists. split; [reflexivity|]. cbn. auto.
Qed.

Lemma SendClient_close_messages (c : SendClient.t) :
  SendClient.messages (snd (SendClient.close c)) = SendClient.messages c.
Proof.
  rewrite SendClient_close_unfold.
  assert (SendClient.messages (SendClient_before_close c) = SendClient.messages c)
    as Hm by (unfold SendClient_before_close;
              destruct (SendClient._message_sender c); reflexivity).
  destruct (AMQPClient.close _) as [[[]|e|] b]; exact Hm.
Qed.

Lemma until_done_spec (fuel : nat) (batch : list Message.ref)
    (c c' : SendClient.t) (r : result unit) :
  SendMessage.until_done f DONE_STATES fuel batch c = (r, c') ->
  same_link (SendClient.client c) (SendClient.client c') /\
  (r = Return tt -> SendMessage.not_done DONE_STATES batch c' = []).
Proof.
  revert c. induction fuel as [|fuel IH]; intros c; cbn [SendMessage.until_done];
    unfold bind at 1, get at 1.
  - destruct (SendMessage.any _) eqn:Ha; cbn; intros E; inversion E; subst.
    + split; [apply same_link_refl|discriminate].
    + split; [apply same_link_refl|]. intros _. exact (any_false _ Ha).
  - destruct (SendMessage.any _) eqn:Ha.
    + unfold bind. pose proof (SendClient_do_work_link f c) as H1.
      destruct (do_work c) as [[r0|e|] c1]; cbn [fst snd] in *;
        try (intros E; inversion E; subst; split; [exact H1|discriminate]).
      intros E. destruct (IH c1 E) as (H2 & H3).
      split; [exact (same_link_trans _ _ _ H1 H2)|exact H3].
    + cbn. intros E; inversion E; subst.
      split; [apply same_link_refl|]. intros _. exact (any_false _ Ha).
Qed.

(** The body of the [try] block of [send_message]. *)
Lemma send_message_try (fuel : nat) (batch : list Message.ref)
    (c c' : SendClient.t) (r : result unit) :
  (SendMessage.until_done f DONE_STATES fuel batch ;;
   c <- get ;;
   if SendMessage.any (SendMessage.failed batch c)
   then raise MessageSendFailed else ret tt)%monad c = (r, c') ->
  same_link (SendClient.client c) (SendClient.client c') /\
  (r = Return tt ->
   forall m, m ∈ batch ->
     Message.state (SendClient.messages c' m) ∈ DONE_STATES /\
     Message.state (SendClient.messages c' m) <> MessageState.Failed).
Proof.
  unfold bind at 1.
  destruct (SendMessage.until_done f DONE_STATES fuel batch c) as [r1 c1] eqn:E1.
  destruct (until_done_spec _ _ _ _ _ E1) as (H1 & H2).
  destruct r1 as [[]|e|];
    try (intros E; inversion E; subst; split; [exact H1|discriminate]).
  unfold bind, get. cbn [fst snd].
  destruct (SendMessage.any _) eqn:Ha; cbn [fst snd]; intros E; inversion E; subst;
    (split; [exact H1|]); [discriminate|].
  intros _ m Hm. specialize (H2 eq_refl).
  pose proof (filter_nil_false _ _ H2 m Hm) as Hd.
  pose proof (filter_nil_false _ _ (any_false _ Ha) m Hm) as Hf.
  cbn beta in Hd, Hf. split.
  - apply negb_false_iff, bool_decide_eq_true in Hd. exact Hd.
  - apply bool_decide_eq_false in Hf. exact Hf.
Qed.

(** [send_message] as its three stages. *)
Lemma send_message_stages
    (gathered : list Message.ref) (close_on_done : bool) (fuel : nat)
    (c : SendClient.t) :
  let c0 := snd (SendClient.queue_message gathered c) in
  let c1 := SendClient.set_client
              (snd (AMQPClient.open None (SendClient.client c0))) c0 in
  SendMessage.send_message f DONE_STATES gathered close_on_done fuel c
  = try_finally
      (SendMessage.until_done f DONE_STATES fuel gathered ;;
       c <- get ;;
       if SendMessage.any (SendMessage.failed gathered c)
       then raise MessageSendFailed else ret tt)%monad
      (if close_on_done then SendClient.close else ret tt) c1.
Proof.
  cbv zeta. unfold SendMessage.send_message.
  change (for_each gathered _) with (SendClient.queue_message gathered).
  unfold bind at 1.
  destruct (queue_message_spec gathered c) as (Hq & _).
  destruct (SendClient.queue_message gathered c) as [[[]|e|] c0];
    cbn [fst snd] in *; try discriminate.
  unfold bind at 1. unfold SendClient.amqp, zoom.
  pose proof (open_returns (SendClient.client c0)) as Ho.
  destruct (AMQPClient.open None (SendClient.client c0)) as [[[]|e|] b];
    cbn [fst snd] in *; try discriminate.
  reflexivity.
Qed.

(** X18: [send_message] returns normally only when every message of the
    batch has reached one of the [DONE_STATES] and none of them is
    [Failed]; this is what the message objects show after the call,
    closing included. *)
Theorem send_message_returns_only_when_all_sent
    (gathered : list Message.ref) (close_on_done : bool) (fuel : nat)
    (c c' : SendClient.t) :
  SendMessage.send_message f DONE_STATES gathered close_on_done fuel c
  = (Return tt, c') ->
  forall m, m ∈ gathered ->
    Message.state (SendClient.messages c' m) ∈ DONE_STATES /\
    Message.state (SendClient.messages c' m) <> MessageState.Failed.
Proof.
  rewrite send_message_stages. cbv zeta.
  match goal with |- try_finally _ _ ?x = _ -> _ => generalize x end.
  intros c1. unfold try_finally.
  match goal with |- context [(?body ;; ?k)%monad c1] =>
    destruct ((body ;; k)%monad c1) as [r2 c2] eqn:E2 end.
  destruct (send_message_try _ _ _ _ _ E2) as (_ & Hb).
  destruct r2 as [[]|e|].
  - specialize (Hb eq_refl). destruct close_on_done.
    + pose proof (SendClient_close_messages c2) as Hm.
      destruct (SendClient.close c2) as [[[]|e|] c3]; cbn [fst snd] in *;
        try discriminate.
      intros E m Hin. inversion E; subst. rewrite Hm. exact (Hb m Hin).
    + cbn. intros E m Hin. inversion E; subst. exact (Hb m Hin).
  - destruct close_on_done; [destruct (SendClient.close c2) as [[[]|e'|] c3]|];
      cbn; discriminate.
  - discriminate.
Qed.

End SendMessageProps.

(** ** The async send loop *)

Section AsyncSend.
Variable f : MessageSendResult.t -> option exn -> Message.t -> Message.t.

(** [elapsed_time/1000 > self._msg_timeout], with the age in milliseconds. *)
Lemma Qlt_bool_elapsed_async (msg_timeout age : Z) :
  Qlt_bool (inject_Z msg_timeout) (inject_Z age / inject_Z 1000 / inject_Z 1000)
  = (1000000 * msg_timeout <? age).
Proof.
  unfold Qlt_bool.
  destruct (Z.ltb_spec (1000000 * msg_timeout) age) as [H|H].
  - apply negb_true_iff. destruct (Qle_bool _ _) eqn:E; [|reflexivity].
    apply Qle_bool_iff in E. unfold Qle in E. simpl in E. lia.
  - apply negb_false_iff. apply Qle_bool_iff. unfold Qle. simpl. lia.
Qed.

(** The async loop body on a message that is [WaitingToBeSent]. *)
Lemma async_send_pending_waiting (c : SendClient.t) (message : Message.ref) :
  Message.state (SendClient.messages c message) = MessageState.WaitingToBeSent ->
  SendClientAsync.send_pending f message c
  = if (0 <? SendClient._msg_timeout c)
       && (1000000 * SendClient._msg_timeout c
           <? current_time c - Message.idle_time (SendClient.messages c message))
    then (Return tt,
          SendClient.update_message message (f MessageSendResult.Timeout None)
            (marked message c))
    else
      try_except_Exception
        (SendClient.send_async message (time_budget message c))
        (fun exp =>
           modify (SendClient.update_message message
                     (f MessageSendResult.Error (Some exp))))
        (marked message c).
Proof.
  intros Hst. unfold SendClientAsync.send_pending. unfold bind at 1, get at 1.
  rewrite Hst, not_done_WaitingToBeSent.
  rewrite decide_True by reflexivity.
  unfold bind at 1, modify at 1.
  unfold try_except_Exception, bind at 1.
  unfold marked, time_budget, elapsed_time, current_time.
  unfold SendClient.amqp, AMQPClient.get_current_ms, TickCounter.get_current_ms, zoom.
  cbn [fst snd]. unfold bind at 1, get at 1.
  cbn [SendClient._msg_timeout SendClient.messages SendClient.client
       SendClient.update_message SendClient.set_messages SendClient.set_client
       AMQPClient._counter AMQPClient.set_counter].
  rewrite fn_lookup_insert. cbn [Message.idle_time Message.set_state].
  rewrite Qlt_bool_elapsed_async.
  destruct (_ && _); reflexivity.
Qed.


Lemma send_pending_keeps_timeout (m : Message.ref) (c : SendClient.t) :
  SendClient._msg_timeout (snd (SendClient.send_pending f m c))
  = SendClient._msg_timeout c.
Proof.
  destruct (Message.state (SendClient.messages c m)) eqn:Hst.
  - rewrite (send_pending_waiting f c m Hst).
    destruct (_ && _); cbn [fst snd].
    + reflexivity.
    + unfold try_except_Exception.
      destruct (SendClient._message_sender c) as [s|] eqn:Hs.
      * rewrite (send_async_marked c m s _ Hs). cbv zeta.
        destruct (Connection.refused _ _); reflexivity.
      * rewrite (send_async_no_sender c m _ Hs). reflexivity.
  - unfold SendClient.send_pending. run. rewrite Hst. reflexivity.
  - unfold SendClient.send_pending. run. rewrite Hst. reflexivity.
  - unfold SendClient.send_pending. run. rewrite Hst. reflexivity.
Qed.

Lemma async_send_pending_agrees (m : Message.ref) (c : SendClient.t) :
  SendClient._msg_timeout c <= 0 ->
  SendClientAsync.send_pending f m c = SendClient.send_pending f m c.
Proof.
  intros HT.
  destruct (Message.state (SendClient.messages c m)) eqn:Hst.
  - rewrite (send_pending_waiting f c m Hst),
      (async_send_pending_waiting c m Hst).
    destruct (Z.ltb_spec 0 (SendClient._msg_timeout c)); [lia|]. reflexivity.
  - unfold SendClientAsync.send_pending, SendClient.send_pending. run.
    rewrite Hst. reflexivity.
  - unfold SendClientAsync.send_pending, SendClient.send_pending. run.
    rewrite Hst. reflexivity.
  - unfold SendClientAsync.send_pending, SendClient.send_pending. run.
    rewrite Hst. reflexivity.
Qed.

Lemma async_loop_agrees (l : list Message.ref) (c : SendClient.t) :
  SendClient._msg_timeout c <= 0 ->
  for_each l (SendClientAsync.send_pending f) c
  = for_each l (SendClient.send_pending f) c.
Proof.
  revert c. induction l as [|m l IH]; intros c HT; cbn [for_each]; [reflexivity|].
  unfold bind. rewrite (async_send_pending_agrees m c HT).
  pose proof (send_pending_keeps_timeout m c) as Hk.
  destruct (SendClient.send_pending f m c) as [[[]|e|] c1]; cbn [snd] in Hk;
    try reflexivity.
  apply IH. lia.
Qed.

(** X21: without a message timeout ([msg_timeout <= 0], the default) the
    async run step and the sync run step do the same: same sends, same
    transport pass, same state afterwards. *)
Theorem async_run_step_agrees_without_timeout (c : SendClient.t) :
  SendClient._msg_timeout c <= 0 ->
  SendClientAsync._client_run f c = SendClient._client_run f c.
Proof.
  intros HT. unfold SendClientAsync._client_run, SendClient._client_run.
  unfold bind at 1 3, get. unfold bind at 1 4.
  rewrite (async_loop_agrees _ c HT). reflexivity.
Qed.
End AsyncSend.

(** ** The receive queue *)

Section ReceiveQueue.

Lemma _message_received_fold (l : list Message.ref) (c : ReceiveClient.t) :
  let c' := fold_left ReceiveClient._message_received l c in
  ReceiveClient._received_messages c'
  = (fun q => q ++ map (wrapped_message (ReceiveClient._message_received_callback c)) l)
      <$> ReceiveClient._received_messages c /\
  ReceiveClient._message_received_callback c'
  = ReceiveClient._message_received_callback c /\
  ReceiveClient._message_receiver c' = ReceiveClient._message_receiver c /\
  ReceiveClient._was_message_received c'
  = match l with [] => ReceiveClient._was_message_received c | _ :: _ => true end.
Proof.
  cbv zeta. revert c. induction l as [|m l IH]; intros c; cbn [fold_left map].
  - repeat split. destruct (ReceiveClient._received_messages c); cbn;
      rewrite ?app_nil_r; reflexivity.
  - destruct (IH (ReceiveClient._message_received c m)) as (H1 & H2 & H3 & H4).
    rewrite H1, H2, H3, H4. clear.
    unfold ReceiveClient._message_received. cbn.
    fold (wrapped_message (ReceiveClient._message_received_callback c) m).
    destruct (ReceiveClient._received_messages c) as [q|] eqn:Hq; cbn;
      rewrite ?Hq; cbn.
    + rewrite <- app_assoc. repeat split. destruct l; reflexivity.
    + repeat split. destruct l; reflexivity.
Qed.

(** X22: the deliveries of one transport pass reach the queue in the order
    they arrived, behind what is queued already, each as the stored
    callback returned it (or as it came, when there is no callback or the
    callback returned nothing).  Without a queue they are dropped, and
    without a receiver link nothing is delivered at all.  A pass with a
    delivery sets [_was_message_received]. *)
Theorem receiver_callbacks_enqueue_in_order
    (p : Connection.pass) (c : ReceiveClient.t) :
  let c' := ReceiveClient.receiver_callbacks p c in
  match ReceiveClient._message_receiver c with
  | None => c' = c
  | Some _ =>
      ReceiveClient._received_messages c'
      = (fun q => q ++ map (wrapped_message
                             (ReceiveClient._message_received_callback c))
                          (Connection.arrived p))
          <$> ReceiveClient._received_messages c /\
      ReceiveClient._was_message_received c'
      = match Connection.arrived p with
        | [] => ReceiveClient._was_message_received c
        | _ :: _ => true
        end
  end.
Proof.
  cbv zeta. unfold ReceiveClient.receiver_callbacks.
  destruct (ReceiveClient._message_receiver c) as [r|]; [|reflexivity].
  match goal with |- context [fold_left _ _ ?c1] =>
    destruct (_message_received_fold (Connection.arrived p) c1)
      as (H1 & _ & _ & H4) end.
  cbv zeta in *. rewrite H1, H4.
  destruct (Connection.receiver_state p); split; reflexivity.
Qed.

Lemma queue_extends_refl (c : ReceiveClient.t) : queue_extends c c.
Proof.
  exists []. destruct (ReceiveClient._received_messages c); cbn;
    rewrite ?app_nil_r; reflexivity.
Qed.

Lemma queue_extends_same (c c' : ReceiveClient.t) :
  ReceiveClient._received_messages c' = ReceiveClient._received_messages c ->
  queue_extends c c'.
Proof.
  intros E. exists []. rewrite E.
  destruct (ReceiveClient._received_messages c); cbn; rewrite ?app_nil_r; reflexivity.
Qed.

Lemma queue_extends_trans (c1 c2 c3 : ReceiveClient.t) :
  queue_extends c1 c2 -> queue_extends c2 c3 -> queue_extends c1 c3.
Proof.
  intros [d1 H1] [d2 H2]. exists (d1 ++ d2). rewrite H2, H1.
  destruct (ReceiveClient._received_messages c1); cbn;
    rewrite ?app_assoc; reflexivity.
Qed.

Lemma receiver_callbacks_queue (p : Connection.pass) (c : ReceiveClient.t) :
  queue_extends c (ReceiveClient.receiver_callbacks p c).
Proof.
  unfold ReceiveClient.receiver_callbacks.
  destruct (ReceiveClient._message_receiver c) as [r|];
    [|apply queue_extends_refl].
  match goal with |- context [fold_left _ _ ?c1] =>
    destruct (_message_received_fold (Connection.arrived p) c1)
      as (H1 & _) end.
  cbv zeta in *.
  exists (map (wrapped_message (ReceiveClient._message_received_callback c))
              (Connection.arrived p)).
  rewrite H1. destruct (Connection.receiver_state p); reflexivity.
Qed.
End ReceiveQueue.

(** [do_work] keeps whatever the parts of it keep. *)
Section Preorder.
Context {C : Type} `{Client C}.
Variable R : C -> C -> Prop.
Hypothesis R_refl : forall c, R c c.
Hypothesis R_trans : forall c1 c2 c3, R c1 c2 -> R c2 c3 -> R c1 c3.
Hypothesis R_token :
  forall c, R c (set_super (snd (AMQPClient.handle_token (super c))) c).
Hypothesis R_pass :
  forall c, R c (set_super (snd (AMQPClient.transport_pass (super c))) c).
Hypothesis R_callbacks : forall p c, R c (callbacks p c).
Hypothesis R_ready : forall c, R c (snd (client_ready c)).
Hypothesis R_run : forall c, R c (snd (client_run c)).

Lemma connection_work_preorder (c : C) : R c (snd (connection_work c)).
Proof using R_trans R_pass R_callbacks.
  unfold connection_work, on_super, zoom. unfold bind at 1.
  pose proof (R_pass c) as Ht.
  destruct (AMQPClient.transport_pass (super c)) as [[p|e|] b]; cbn [snd] in *;
    try exact Ht.
  unfold modify. cbn [snd].
  exact (R_trans _ _ _ Ht (R_callbacks _ _)).
Qed.

Lemma do_work_preorder (c : C) : R c (snd (do_work c)).
Proof using R_refl R_trans R_token R_pass R_callbacks R_ready R_run.
  unfold do_work. unfold bind at 1, get at 1.
  destruct (AMQPClient._connection (super c)) as [conn|]; [|apply R_refl].
  unfold bind at 1.
  assert (forall (status : bool * bool) (c1 : C),
            R c c1 ->
            R c (snd ((let '(timeout, auth_in_progress) := status in
                     c2 <- get ;;
                     if AMQPClient._shutdown (super c2) then ret (Some false)
                     else if timeout then raise TimeoutError
                     else if auth_in_progress
                          then connection_work ;; ret (Some true)
                     else
                       ready <- client_ready ;;
                       if negb ready
                       then connection_work ;; ret (Some true)
                       else client_run)%monad c1))) as Hrest.
  { intros [timeout auth_in_progress] c1 H1. unfold bind at 1, get at 1.
    destruct (AMQPClient._shutdown _); [exact H1|].
    destruct timeout; [exact H1|].
    destruct auth_in_progress.
    - unfold bind at 1. pose proof (connection_work_preorder c1) as H2.
      apply (R_trans _ _ _ H1).
      destruct (connection_work c1) as [[[]|e|] c2]; exact H2.
    - unfold bind at 1. pose proof (R_ready c1) as H2.
      pose proof (R_trans _ _ _ H1 H2) as H3.
      destruct (client_ready c1) as [[ready|e|] c2]; cbn [snd] in *;
        try exact H3.
      apply (R_trans _ _ _ H3).
      destruct ready; cbn [negb].
      + apply R_run.
      + unfold bind at 1. pose proof (connection_work_preorder c2) as H4.
        destruct (connection_work c2) as [[[]|e|] c3]; exact H4. }
  destruct (Connection.cbs conn).
  - unfold on_super, zoom. pose proof (R_token c) as Ht.
    destruct (AMQPClient.handle_token (super c)) as [[status|e|] b];
      cbn [snd] in *; try exact Ht.
    exact (Hrest status (set_super b c) Ht).
  - exact (Hrest (false, false) c (R_refl _)).
Qed.
End Preorder.

(** ** Batches keep the queue order *)

Section BatchOrder.
Import ReceiveClient.

Lemma ReceiveClient_ready_queue (c : t) :
  _received_messages (snd (_client_ready c)) = _received_messages c.
Proof.
  unfold _client_ready, amqp, AMQPClient.emit,
    AMQPClient.get_current_ms, TickCounter.get_current_ms. run.
  destruct (_message_receiver c) as [s|].
  - repeat destruct (decide _); reflexivity.
  - destruct (AMQPClient._session (client c)); reflexivity.
Qed.

Lemma ReceiveClient_run_queue (c : t) :
  queue_extends c (snd (_client_run c)).
Proof.
  unfold _client_run. unfold bind at 1, amqp at 1, zoom.
  destruct (AMQPClient.transport_pass (client c)) as [[p|e|] b];
    cbn [snd] in *; try (apply queue_extends_same; reflexivity).
  unfold bind at 1, modify at 1.
  eapply queue_extends_trans;
    [|eapply queue_extends_trans; [apply (receiver_callbacks_queue p)|]].
  { apply (queue_extends_same c (set_client b c)). reflexivity. }
  generalize (receiver_callbacks p (set_client b c)). intros c1.
  apply queue_extends_same.
  unfold amqp, AMQPClient.get_current_ms, TickCounter.get_current_ms. run.
  destruct (0 <? _timeout c1)%Z; [|reflexivity].
  cbn.
  destruct (_ && _); [|reflexivity].
  destruct (_ <=? _)%Z; reflexivity.
Qed.

Lemma ReceiveClient_do_work_queue (c : t) :
  queue_extends c (snd (do_work c)).
Proof.
  apply (do_work_preorder (H := ReceiveClient_Client) queue_extends).
  - exact queue_extends_refl.
  - exact queue_extends_trans.
  - intros c0. apply queue_extends_same. reflexivity.
  - intros c0. apply queue_extends_same. reflexivity.
  - intros p c0. apply receiver_callbacks_queue.
  - intros c0. apply queue_extends_same. apply ReceiveClient_ready_queue.
  - exact ReceiveClient_run_queue.
Qed.

Lemma qsize_state (c : t) : snd (qsize c) = c.
Proof. unfold qsize. run. destruct (_received_messages c); reflexivity. Qed.

Lemma deadline_passed_keeps_queue (timeout : Z) (c : t) :
  _received_messages (snd (deadline_passed timeout c)) = _received_messages c.
Proof.
  unfold deadline_passed, amqp, AMQPClient.get_current_ms,
    TickCounter.get_current_ms. run.
  destruct (0 <? timeout); reflexivity.
Qed.

Lemma tick_until_queued_queue (fuel : nat) (timeout max_batch_size : Z)
    (receiving : bool) (c c' : t) (r : result (bool * bool)) :
  tick_until_queued fuel timeout max_batch_size receiving c = (r, c') ->
  queue_extends c c'.
Proof.
  revert receiving c.
  assert (forall (receiving : bool) (c : t),
            snd ((if receiving
                  then (size <- qsize ;; ret (size <? max_batch_size))%monad
                  else ret false) c) = c) as Hagain.
  { intros [] c; [|reflexivity]. unfold bind.
    pose proof (qsize_state c) as Hq.
    destruct (qsize c) as [[n|e|] c1]; exact Hq. }
  induction fuel as [|fuel IH]; intros receiving c.
  - cbn [tick_until_queued]. unfold bind at 1. specialize (Hagain receiving c).
    match goal with |- context [(if receiving then ?a else ?b) c] =>
      destruct ((if receiving then a else b) c) as [[again|e|] c1] end;
      cbn [snd] in Hagain; subst c1;
      try (intros E; inversion E; subst; apply queue_extends_refl).
    destruct again; intros E; inversion E; subst; apply queue_extends_refl.
  - rewrite tick_until_queued_S. unfold bind at 1. specialize (Hagain receiving c).
    match goal with |- context [(if receiving then ?a else ?b) c] =>
      destruct ((if receiving then a else b) c) as [[again|e|] c1] end;
      cbn [snd] in Hagain; subst c1;
      try (intros E; inversion E; subst; apply queue_extends_refl).
    destruct again;
      [|intros E; inversion E; subst; apply queue_extends_refl].
    unfold bind at 1.
    pose proof (deadline_passed_keeps_queue timeout c) as Hd.
    destruct (deadline_passed timeout c) as [[late|e|] c1]; cbn [snd] in Hd;
      try (intros E; inversion E; subst; apply queue_extends_same; exact Hd).
    destruct late;
      [intros E; inversion E; subst; apply queue_extends_same; exact Hd|].
    apply queue_extends_same in Hd.
    unfold bind at 1. pose proof (qsize_state c1) as Hq1.
    destruct (qsize c1) as [[before|e|] c2]; cbn [snd] in Hq1; subst c2;
      try (intros E; inversion E; subst; exact Hd).
    unfold bind at 1. pose proof (ReceiveClient_do_work_queue c1) as Hw.
    pose proof (queue_extends_trans _ _ _ Hd Hw) as Hdw.
    destruct (do_work c1) as [[r0|e|] c2]; cbn [snd] in Hw, Hdw;
      try (intros E; inversion E; subst; exact Hdw).
    unfold bind at 1. pose proof (qsize_state c2) as Hq2.
    destruct (qsize c2) as [[after|e|] c3]; cbn [snd] in Hq2; subst c3;
      try (intros E; inversion E; subst; exact Hdw).
    cbv zeta. destruct (_ && _).
    + intros E; inversion E; subst; exact Hdw.
    + intros E. exact (queue_extends_trans _ _ _ Hdw (IH _ _ E)).
Qed.

(** The drain loop moves messages from the head of the queue to the end of
    the batch, as many as fit. *)
Lemma take_batch_spec (q batch : list Message.ref) (max_batch_size : Z) :
  let k := Nat.min (length q) (Z.to_nat (max_batch_size - Z.of_nat (length batch))) in
  take_batch q batch max_batch_size = (drop k q, batch ++ take k q).
Proof.
  cbv zeta. revert batch. induction q as [|m q IH]; intros batch.
  - cbn. rewrite app_nil_r. reflexivity.
  - cbn [take_batch length].
    destruct (Z.ltb_spec (Z.of_nat (length batch)) max_batch_size) as [Hlt|Hge].
    + rewrite IH. rewrite length_app. cbn [length].
      replace (Z.to_nat (max_batch_size - Z.of_nat (length batch)))
        with (S (Z.to_nat (max_batch_size - Z.of_nat (length batch + 1)))) by lia.
      rewrite <- Nat.succ_min_distr. cbn [take drop].
      rewrite <- app_assoc. reflexivity.
    + replace (Z.to_nat (max_batch_size - Z.of_nat (length batch))) with O by lia.
      rewrite Nat.min_0_r. cbn. rewrite app_nil_r. reflexivity.
Qed.

Lemma drain_spec (batch : list Message.ref) (max_batch_size : Z) (c : t) :
  drain batch max_batch_size c
  = match _received_messages c with
    | None => (Raise AttributeError, c)
    | Some q =>
        let k := Nat.min (length q)
                   (Z.to_nat (max_batch_size - Z.of_nat (length batch))) in
        (Return (batch ++ take k q), set_received_messages (Some (drop k q)) c)
    end.
Proof.
  unfold drain. run. destruct (_received_messages c) as [q|]; [|reflexivity].
  rewrite take_batch_spec. reflexivity.
Qed.

Lemma fill_batch_order (fuel : nat) (timeout max_batch_size : Z)
    (receiving expired : bool) (batch batch' : list Message.ref) (c c' : t)
    (q : list Message.ref) :
  _received_messages c = Some q ->
  fill_batch fuel timeout max_batch_size receiving expired batch c
  = (Return batch', c') ->
  exists q' delivered,
    _received_messages c' = Some q' /\ batch' ++ q' = batch ++ q ++ delivered.
Proof.
  revert receiving expired batch c q.
  induction fuel as [|fuel IH]; intros receiving expired batch c q Hq.
  - cbn [fill_batch]. destruct (_ && _ && _); [discriminate|].
    intros E; inversion E; subst. exists q, []. rewrite app_nil_r. auto.
  - rewrite fill_batch_S. destruct (_ && _ && _).
    + unfold bind at 1.
      destruct (tick_until_queued (S fuel) timeout max_batch_size receiving c)
        as [[[r e]|x|] c1] eqn:Et; try discriminate.
      destruct (tick_until_queued_queue _ _ _ _ _ _ _ Et) as [d1 Hd1].
      rewrite Hq in Hd1. cbn in Hd1.
      unfold bind at 1. rewrite drain_spec, Hd1. cbv zeta.
      set (k := Nat.min _ _).
      intros E. cbv beta iota in E.
      apply IH with (q := drop k (q ++ d1)) in E; [|reflexivity].
      destruct E as (q' & d2 & H1 & H2).
      exists q', (d1 ++ d2). split; [exact H1|].
      rewrite H2, <- !app_assoc. rewrite (app_assoc (take k _)).
      rewrite take_drop. rewrite <- !app_assoc. reflexivity.
    + intros E; inversion E; subst. exists q, []. rewrite app_nil_r. auto.
Qed.

(** The steps of [receive_message_batch] before the first drain: what they
    leave of the client. *)
Lemma open_keeps_works (b : AMQPClient.t) :
  AMQPClient.works (snd (AMQPClient.open None b)) = AMQPClient.works b /\
  AMQPClient.log (snd (AMQPClient.open None b)) = AMQPClient.log b.
Proof.
  unfold AMQPClient.open. run.
  destruct (bool_decide _); [split; reflexivity|]. cbn.
  destruct (Auth.is_cbs (AMQPClient._auth b)) eqn:Ha; cbn; split; reflexivity.
Qed.

Lemma batch_deadline_returns (timeout : Z) (c : t) :
  exists deadline c1,
    batch_deadline timeout c = (Return deadline, c1) /\
    _received_messages c1 = _received_messages c /\
    _prefetch c1 = _prefetch c /\
    AMQPClient.works (client c1) = AMQPClient.works (client c) /\
    AMQPClient.log (client c1) = AMQPClient.log (client c).
Proof.
  unfold batch_deadline, amqp, AMQPClient.get_current_ms,
    TickCounter.get_current_ms. run.
  destruct (timeout =? 0); eexists _, _; split; try reflexivity; auto.
Qed.

(** [receive_message_batch] up to its first drain. *)
Lemma receive_message_batch_prologue (max_batch_size : option Z)
    (on_message_received : option (Message.ref -> option Message.ref))
    (timeout : Z) (fuel : nat) (c : t) :
  effective_batch_size max_batch_size c <= _prefetch c ->
  exists deadline c1,
    _received_messages c1 = Some (default [] (_received_messages c)) /\
    AMQPClient.works (client c1) = AMQPClient.works (client c) /\
    AMQPClient.log (client c1) = AMQPClient.log (client c) /\
    receive_message_batch max_batch_size on_message_received timeout fuel c
    = (batch <- drain [] (effective_batch_size max_batch_size c) ;;
       if effective_batch_size max_batch_size c <=? Z.of_nat (length batch)
       then ret batch
       else fill_batch fuel deadline (effective_batch_size max_batch_size c)
              true false batch)%monad c1.
Proof.
  intros Hle. unfold receive_message_batch.
  unfold bind at 1, modify at 1. unfold bind at 1, get at 1.
  change (_prefetch (set_message_received_callback on_message_received c))
    with (_prefetch c).
  change (effective_batch_size max_batch_size
            (set_message_received_callback on_message_received c))
    with (effective_batch_size max_batch_size c).
  destruct (Z.ltb_spec (_prefetch c) (effective_batch_size max_batch_size c));
    [lia|].
  destruct (batch_deadline_returns timeout
              (set_message_received_callback on_message_received c))
    as (deadline & c1 & Hd & Hq1 & _ & Hw1 & Hl1).
  unfold bind at 1. rewrite Hd.
  unfold bind at 1, modify at 1. unfold bind at 1, amqp at 1, zoom.
  set (c2 := set_received_messages (Some (default [] (_received_messages c1))) c1).
  pose proof (open_returns (client c2)) as Ho.
  destruct (open_keeps_works (client c2)) as (Hw2 & Hl2).
  destruct (AMQPClient.open None (client c2)) as [[[]|e|] b]; cbn [fst snd] in *;
    try discriminate.
  exists deadline, (set_client b c2). split; [|split; [|split]].
  - cbn. rewrite Hq1. reflexivity.
  - cbn. rewrite Hw2. exact Hw1.
  - cbn. rewrite Hl2. exact Hl1.
  - reflexivity.
Qed.


End BatchOrder.

(** ** What [do_work] returns *)

Section Results.
Context {C : Type} `{Client C}.
Hypothesis run_result :
  forall c r, fst (client_run c) = Return r -> r = Some true.

Lemma handle_token_shutdown (b : AMQPClient.t) :
  AMQPClient._shutdown (snd (AMQPClient.handle_token b)) = AMQPClient._shutdown b.
Proof.
  unfold AMQPClient.handle_token. run.
  destruct (AMQPClient._auth b) as [|a]; [reflexivity|].
  destruct (SASTokenAuth.handle_token a) as [r a']. reflexivity.
Qed.

(** [do_work] returns [True], or [False] for a client that was told to
    shut down before the call. *)
Lemma do_work_result (c c' : C) (r : option bool) :
  do_work c = (Return r, c') ->
  r = Some true \/ (r = Some false /\ AMQPClient._shutdown (super c) = true).
Proof using run_result.
  unfold do_work. unfold bind at 1, get at 1.
  destruct (AMQPClient._connection (super c)) as [conn|]; [|discriminate].
  unfold bind at 1.
  assert (forall (status : bool * bool) (c1 : C),
            AMQPClient._shutdown (super c1) = AMQPClient._shutdown (super c) ->
            (let '(timeout, auth_in_progress) := status in
                     c2 <- get ;;
                     if AMQPClient._shutdown (super c2) then ret (Some false)
                     else if timeout then raise TimeoutError
                     else if auth_in_progress
                          then connection_work ;; ret (Some true)
                     else
                       ready <- client_ready ;;
                       if negb ready
                       then connection_work ;; ret (Some true)
                       else client_run)%monad c1 = (Return r, c') ->
            r = Some true \/
            (r = Some false /\ AMQPClient._shutdown (super c) = true)) as Hrest.
  { intros [timeout auth_in_progress] c1 H1. unfold bind at 1, get at 1.
    destruct (AMQPClient._shutdown (super c1)) eqn:Hs.
    { intros E; inversion E; subst. right. split; [reflexivity|]. congruence. }
    destruct timeout; [discriminate|].
    destruct auth_in_progress.
    - unfold bind at 1.
      destruct (connection_work c1) as [[[]|e|] c2]; try discriminate.
      intros E; inversion E; subst. left; reflexivity.
    - unfold bind at 1.
      destruct (client_ready c1) as [[ready|e|] c2]; try discriminate.
      destruct ready; cbn [negb].
      + intros E. left. apply (run_result c2). rewrite E. reflexivity.
      + unfold bind at 1.
        destruct (connection_work c2) as [[[]|e|] c3]; try discriminate.
        intros E; inversion E; subst. left; reflexivity. }
  destruct (Connection.cbs conn).
  - unfold on_super, zoom. pose proof (handle_token_shutdown (super c)) as Ht.
    destruct (AMQPClient.handle_token (super c)) as [[status|e|] b];
      cbn [snd] in *; try discriminate.
    refine (Hrest status (set_super b c) _). rewrite super_set_super. exact Ht.
  - exact (Hrest (false, false) c eq_refl).
Qed.
End Results.

(** ** Receiving without an idle timeout *)

Section NoTimeout.
Import ReceiveClient.

(** A receive client that has no idle timeout and was not told to shut
    down. *)
Lemma ReceiveClient_run_result (c : t) (r : option bool) :
  fst (_client_run c) = Return r -> r = Some true.
Proof.
  unfold _client_run. unfold bind at 1, amqp at 1, zoom.
  destruct (AMQPClient.transport_pass (client c)) as [[p|e|] b];
    cbn [fst snd]; try discriminate.
  unfold bind at 1, modify at 1.
  generalize (receiver_callbacks p (set_client b c)). intros c1.
  unfold amqp, AMQPClient.get_current_ms, TickCounter.get_current_ms. run.
  destruct (0 <? _timeout c1)%Z; [|cbn; congruence].
  cbn.
  destruct (_ && _); [|cbn; congruence].
  destruct (_ <=? _)%Z; cbn; congruence.
Qed.

Lemma receiver_callbacks_timeout (p : Connection.pass) (c : t) :
  _timeout (receiver_callbacks p c) = _timeout c.
Proof.
  unfold receiver_callbacks.
  destruct (_message_receiver c); [|reflexivity].
  assert (forall l c2, _timeout (fold_left _message_received l c2) = _timeout c2)
    as Hfold.
  { induction l as [|m l IH]; intros c2; cbn [fold_left]; [reflexivity|].
    rewrite IH. unfold _message_received. cbn.
    destruct (_received_messages c2); reflexivity. }
  rewrite Hfold. destruct (Connection.receiver_state p); reflexivity.
Qed.

Lemma transport_pass_shutdown (b : AMQPClient.t) :
  AMQPClient._shutdown (snd (AMQPClient.transport_pass b)) = AMQPClient._shutdown b.
Proof.
  unfold AMQPClient.transport_pass, AMQPClient.emit. run.
  destruct (AMQPClient._connection b); reflexivity.
Qed.

Lemma ReceiveClient_run_no_timeout (c c' : t) (r : result (option bool)) :
  _client_run c = (r, c') ->
  _timeout c <= 0 -> AMQPClient._shutdown (client c) = false ->
  _timeout c' <= 0 /\ AMQPClient._shutdown (client c') = false.
Proof.
  intros E H1 H2. unfold _client_run in E.
  unfold bind at 1, amqp at 1, zoom in E.
  pose proof (transport_pass_shutdown (client c)) as Hb.
  destruct (AMQPClient.transport_pass (client c)) as [[p|e|] b]; cbn [snd] in Hb;
    try (inversion E; subst; cbn; split; [exact H1|congruence]).
  unfold bind at 1, modify at 1 in E.
  pose proof (receiver_callbacks_timeout p (set_client b c)) as Ht.
  pose proof (receiver_callbacks_client p (set_client b c)) as Hc.
  cbn in Ht, Hc.
  generalize dependent (receiver_callbacks p (set_client b c)). intros c1 E Ht Hc.
  unfold bind at 1, get at 1 in E.
  destruct (Z.ltb_spec 0 (_timeout c1)); [lia|].
  run. inversion E; subst c' r. cbn. rewrite Ht, Hc. split; [exact H1|congruence].
Qed.

Lemma ReceiveClient_do_work_no_timeout (c : t) :
  (_timeout c <= 0 /\ AMQPClient._shutdown (client c) = false) ->
  (_timeout (snd (do_work c)) <= 0 /\
   AMQPClient._shutdown (client (snd (do_work c))) = false).
Proof.
  apply (do_work_preorder (H := ReceiveClient_Client)
           (fun c c' => (_timeout c <= 0 /\ AMQPClient._shutdown (client c) = false) ->
                        (_timeout c' <= 0 /\ AMQPClient._shutdown (client c') = false))).
  - auto.
  - auto.
  - intros c0 [H1 H2]. split; [exact H1|].
    change (AMQPClient._shutdown (snd (AMQPClient.handle_token (client c0)))
            = false).
    rewrite handle_token_shutdown. exact H2.
  - intros c0 [H1 H2]. split; [exact H1|].
    change (AMQPClient._shutdown (snd (AMQPClient.transport_pass (client c0)))
            = false).
    unfold AMQPClient.transport_pass, AMQPClient.emit. run.
    destruct (AMQPClient._connection (client c0)); exact H2.
  - intros p c0 [H1 H2]. cbn.
    rewrite receiver_callbacks_timeout, receiver_callbacks_client. auto.
  - intros c0 [H1 H2]. cbn.
    unfold _client_ready, amqp, AMQPClient.emit,
      AMQPClient.get_current_ms, TickCounter.get_current_ms. run.
    destruct (_message_receiver c0) as [s|].
    + repeat destruct (decide _); auto.
    + destruct (AMQPClient._session (client c0)); auto.
  - intros c0 [H1 H2]. cbn [client_run ReceiveClient_Client].
    destruct (_client_run c0) as [r c'] eqn:E. cbn [snd].
    exact (ReceiveClient_run_no_timeout _ _ _ E H1 H2).
Qed.

(** X25: a receive client without an idle timeout ([timeout <= 0]) that
    has not been told to shut down never shuts itself down: [do_work]
    leaves [_shutdown] false, and every result it returns is [True]. *)
Theorem do_work_without_timeout_keeps_receiving (c c' : t) (r : result (option bool)) :
  _timeout c <= 0 ->
  AMQPClient._shutdown (client c) = false ->
  do_work c = (r, c') ->
  _timeout c' <= 0 /\
  AMQPClient._shutdown (client c') = false /\
  (forall x, r = Return x -> x = Some true).
Proof.
  intros Ht Hs E.
  pose proof (ReceiveClient_do_work_no_timeout c (conj Ht Hs)) as [H1 H2].
  rewrite E in H1, H2. cbn [snd] in H1, H2.
  split; [exact H1|]. split; [exact H2|].
  intros x ->.
  destruct (do_work_result (H := ReceiveClient_Client)
              ReceiveClient_run_result c c' x E) as [Hx|[_ Hx]];
    [exact Hx|].
  cbn in Hx. congruence.
Qed.

Lemma until_closed_no_timeout (fuel : nat) (c c' : t) (r : result unit) :
  _timeout c <= 0 ->
  AMQPClient._shutdown (client c) = false ->
  ReceiveMessages.until_closed fuel c = (r, c') ->
  r <> Return tt.
Proof.
  revert c. induction fuel as [|fuel IH]; intros c Ht Hs;
    cbn [ReceiveMessages.until_closed].
  - intros E; inversion E; subst. discriminate.
  - unfold bind at 1.
    destruct (do_work c) as [r0 c1] eqn:Ew.
    pose proof (ReceiveClient_do_work_no_timeout c (conj Ht Hs)) as [H1 H2].
    rewrite Ew in H1, H2. cbn [snd] in H1, H2.
    destruct r0 as [x|e|]; try (intros E; inversion E; subst; discriminate).
    destruct (do_work_result (H := ReceiveClient_Client)
                ReceiveClient_run_result c c1 x Ew) as [->|[_ Hx]].
    + cbn [truth]. apply IH; assumption.
    + cbn in Hx. congruence.
Qed.

Lemma until_closed_link (fuel : nat) (c c' : t) (r : result unit) :
  ReceiveMessages.until_closed fuel c = (r, c') ->
  same_link (client c) (client c').
Proof.
  revert c. induction fuel as [|fuel IH]; intros c;
    cbn [ReceiveMessages.until_closed].
  - intros E; inversion E; subst. apply same_link_refl.
  - unfold bind at 1. pose proof (ReceiveClient_do_work_link c) as Hw.
    destruct (do_work c) as [[x|e|] c1]; cbn [snd] in Hw;
      try (intros E; inversion E; subst; exact Hw).
    destruct (truth x).
    + intros E. exact (same_link_trans _ _ _ Hw (IH _ E)).
    + intros E; inversion E; subst; exact Hw.
Qed.

Lemma ReceiveClient_close_opened (c : t) :
  opened (client c) ->
  exists c1, close c = (Return tt, c1) /\
             _message_receiver c1 = None /\
             AMQPClient._session (client c1) = None /\
             AMQPClient._connection (client c1) = None /\
             AMQPClient._shutdown (client c1) = false.
Proof.
  intros Ho. rewrite ReceiveClient_close_unfold.
  pose proof (receiver_before_close c) as Hn.
  assert (opened (client (ReceiveClient_before_close c))) as Ho'.
  { unfold ReceiveClient_before_close.
    destruct (_message_receiver c); [|exact Ho].
    revert Ho. apply same_link_opened. unfold same_link. cbn. auto. }
  generalize dependent (ReceiveClient_before_close c). intros c0 Hn Ho'.
  destruct (close_opened _ Ho') as (H1 & H2 & H3).
  destruct (AMQPClient.close (client c0)) as [[[]|e|] b];
    cbn [fst snd] in *; try discriminate.
  eexists. split; [reflexivity|]. cbn. auto.
Qed.

(** [receive_messages] as its stages. *)
Lemma receive_messages_stages
    (on_message_received : option (Message.ref -> option Message.ref))
    (fuel : nat) (c : t) :
  ReceiveMessages.receive_messages on_message_received fuel c
  = try_finally (ReceiveMessages.until_closed fuel) close
      (set_message_received_callback on_message_received
         (set_client (snd (AMQPClient.open None (client c))) c)).
Proof.
  unfold ReceiveMessages.receive_messages.
  unfold bind at 1, amqp at 1, zoom.
  pose proof (open_returns (client c)) as Ho.
  destruct (AMQPClient.open None (client c)) as [[[]|e|] b]; cbn [fst snd] in *;
    try discriminate.
  reflexivity.
Qed.

End NoTimeout.

(** ** The async message iterator *)

Section Iterator.
Import AsyncMessageIter.

Lemma until_message_queued (fuel : nat) (i : t) (m : Message.ref)
    (q : list Message.ref) :
  ReceiveClient._received_messages (_client i) = Some (m :: q) ->
  until_message fuel i = (Return tt, i).
Proof.
  intros Hq.
  assert ((again <- (if receiving i then empty else ret false) ;;
           if again then diverge else ret tt)%monad i = (Return tt, i)) as H0.
  { unfold bind, empty, get. destruct (receiving i); cbn; rewrite ?Hq; reflexivity. }
  destruct fuel; cbn [until_message]; unfold bind at 1, get at 1;
    unfold bind at 1; unfold bind in H0;
    destruct ((if receiving i then empty else ret false) i) as [[[]|e|] i1];
    try exact H0; discriminate.
Qed.


(** X28: when [__anext__] ends the iteration ([StopAsyncIteration]), the
    iterator is no longer [receiving] and its client has been closed: no
    receiver and no session are left, and the queue is empty. *)
Theorem anext_stop_closes_the_client (fuel : nat) (i i' : t) :
  __anext__ fuel i = (Return None, i') ->
  receiving i' = false /\
  ReceiveClient._message_receiver (_client i') = None /\
  AMQPClient._session (ReceiveClient.client (_client i')) = None /\
  ReceiveClient._received_messages (_client i') = Some [].
Proof.
  unfold __anext__.
  unfold bind at 1.
  destruct (on_client (ReceiveClient.amqp (AMQPClient.open None)) i)
    as [[[]|e|] i0]; try discriminate.
  destruct (try_block fuel i0) as [r1 i1] eqn:Et.
  assert (r1 = Return None ->
          ReceiveClient._received_messages (_client i1) = Some []) as Hempty.
  { revert Et. unfold try_block. unfold bind at 1.
    destruct (until_message fuel i0) as [[[]|e|] i2]; try (intros E; inversion E; discriminate).
    unfold bind at 1, empty at 1. unfold bind at 1, get at 1.
    destruct (ReceiveClient._received_messages (_client i2)) as [[|m q]|] eqn:Hq;
      cbn.
    - intros E _. inversion E; subst. exact Hq.
    - unfold on_client, zoom. run. rewrite Hq. cbn.
      intros E. inversion E; subst. discriminate.
    - intros E; inversion E; subst. discriminate. }
  destruct r1 as [[m|]|e|].
  - destruct (finally_block i1) as [[[]|e|] i2]; discriminate.
  - specialize (Hempty eq_refl).
    unfold finally_block. unfold bind at 1, get at 1. cbn [receiving set_receiving negb].
    unfold on_client, zoom. cbn [_client set_receiving set_client].
    rewrite ReceiveClient_close_unfold.
    pose proof (receiver_before_close (_client i1)) as Hn.
    assert (ReceiveClient._received_messages (ReceiveClient_before_close (_client i1))
            = Some []) as Hq.
    { unfold ReceiveClient_before_close.
      destruct (ReceiveClient._message_receiver (_client i1)); exact Hempty. }
    generalize dependent (ReceiveClient_before_close (_client i1)). intros c0 Hn Hq.
    destruct (AMQPClient.close (ReceiveClient.client c0)) as [[[]|e|] b] eqn:Ec;
      try discriminate.
    intros E. inversion E; subst. cbn.
    repeat split; auto. apply (AMQPClient_close_returns _ _ Ec).
  - destruct (finally_block (set_receiving false i1)) as [[[]|e'|] i2]; discriminate.
  - discriminate.
Qed.
End Iterator.

(** ** Token lifetime *)

Section Lifetime.
Import SASTokenLifetime.

Lemma Qlt_bool_true (a b : Q) : (a < b)%Q -> Qlt_bool a b = true.
Proof.
  intros H. unfold Qlt_bool. apply negb_true_iff.
  destruct (Qle_bool b a) eqn:E; [|reflexivity].
  apply Qle_bool_iff in E. exfalso. exact (Qlt_not_le _ _ H E).
Qed.

Lemma Qeq_bool_positive (a : Q) : (0 < a)%Q -> Qeq_bool a (inject_Z 0) = false.
Proof.
  intros H. destruct (Qeq_bool a (inject_Z 0)) eqn:E; [|reflexivity].
  apply Qeq_bool_iff in E. rewrite E in H. exfalso. exact (Qlt_irrefl _ H).
Qed.

Lemma timedelta_seconds_bound (n : Z) :
  0 <= timedelta.seconds (timedelta.of_seconds n) < 86400.
Proof. cbn. apply Z.mod_pos_bound. lia. Qed.

End Lifetime.

(** ** [wait] at its edges *)

Section WaitEdges.
Variable f : MessageSendResult.t -> option exn -> Message.t -> Message.t.

(** X30: [wait] with nothing pending returns at once and changes nothing;
    with a message pending on a client that was never opened its first
    [do_work] raises [AttributeError] (there is no connection to ask for
    its CBS object), again with nothing changed; and whenever [wait]
    returns, the pending queue is empty. *)
Theorem wait_edge_cases (fuel : nat) (c : SendClient.t) :
  (SendClient._pending_messages c = [] ->
   SendClient.wait f fuel c = (Return tt, c)) /\
  (SendClient._pending_messages c <> [] ->
   AMQPClient._connection (SendClient.client c) = None ->
   SendClient.wait f (S fuel) c = (Raise AttributeError, c)) /\
  (forall c', SendClient.wait f fuel c = (Return tt, c') ->
              SendClient._pending_messages c' = []).
Proof.
  split; [|split].
  - intros Hp. destruct fuel; cbn [SendClient.wait]; unfold bind, get;
      unfold SendClient.messages_pending; rewrite Hp; reflexivity.
  - intros Hp Hc. cbn [SendClient.wait]. unfold bind at 1, get at 1.
    unfold SendClient.messages_pending.
    destruct (SendClient._pending_messages c); [congruence|].
    unfold bind at 1. unfold do_work. unfold bind at 1, get at 1.
    cbn [super SendClient.SendClient_Client]. rewrite Hc. reflexivity.
  - revert c. induction fuel as [|fuel IH]; intros c c'; cbn [SendClient.wait];
      unfold bind at 1, get at 1; unfold SendClient.messages_pending.
    + destruct (SendClient._pending_messages c) eqn:Hp; [|discriminate].
      intros E; inversion E; subst. exact Hp.
    + destruct (SendClient._pending_messages c) eqn:Hp.
      * intros E; inversion E; subst. exact Hp.
      * unfold bind at 1.
        destruct (do_work c) as [[r|e|] c1]; try discriminate.
        apply IH.
Qed.
End WaitEdges.

(** * The further properties at work *)

Section MoreInstances.

Lemma handle_token_RefreshRequired_sample :
  SASTokenAuth.next_status (Sample.authenticator CBSAuthStatus.RefreshRequired 3)
  = Some CBSAuthStatus.RefreshRequired /\
  fst (SASTokenAuth.handle_token
         (Sample.authenticator CBSAuthStatus.RefreshRequired 3))
  = Return (false, false).
Proof.
  split; [reflexivity|].
  destruct (handle_token_RefreshRequired
              (Sample.authenticator CBSAuthStatus.RefreshRequired 3) eq_refl)
    as (_ & H & _).
  destruct (H eq_refl) as [H1 _]. exact H1.
Defined.

(** [execute()] with the default timeout on a link that never answers. *)
Lemma execute_without_timeout_sample :
  0 <= 0 /\
  fst (MgmtOperation.execute "op-1" 0 5 Sample.silent_mgmt) <> Raise TimeoutError.
Proof.
  split; [lia|].
  apply (execute_without_timeout "op-1" 0 5 Sample.silent_mgmt). lia.
Defined.

Lemma execute_with_recorded_error_sample :
  MgmtOperation.mgmt_error Scenario.failed_mgmt = Some MgmtOperation.OpenFailed /\
  fst (MgmtOperation.execute "op-1" 0 5 Scenario.failed_mgmt)
  = Raise AMQPConnectionError /\
  MgmtOperation.works (snd (MgmtOperation.execute "op-1" 0 5 Scenario.failed_mgmt))
  = O.
Proof.
  split; [reflexivity|].
  destruct (execute_with_recorded_error "op-1" 0 5 Scenario.failed_mgmt
              MgmtOperation.OpenFailed eq_refl) as (H1 & H2 & _).
  split; [exact H1 | exact H2].
Defined.

Lemma execute_keeps_other_entries_sample :
  "op-0"%string <> "op-1"%string /\
  is_Some (MgmtOperation._responses
             (snd (MgmtOperation.execute "op-1" 100 5 Scenario.busy_mgmt))
           !! "op-0"%string).
Proof.
  split; [discriminate|].
  apply (execute_keeps_other_entries "op-1" "op-0" 100 5 Scenario.busy_mgmt).
  - discriminate.
  - exists None. apply lookup_insert_eq.
Defined.


(** A client that once used an external connection, closed and reopened
    on its own. *)
Lemma close_keeps_external_connection_sample :
  AMQPClient._ext_connection
    (AMQPClient.set_ext_connection true Scenario.closed_client) = true /\
  ~ ConnectionDestroy
    ∈ AMQPClient.log
        (snd (AMQPClient.close
                (snd (AMQPClient.open None
                        (AMQPClient.set_ext_connection true
                           Scenario.closed_client))))).
Proof.
  split; [reflexivity|].
  destruct (close_keeps_external_connection
              (AMQPClient.set_ext_connection true Scenario.closed_client) eq_refl)
    as (_ & _ & H).
  destruct (H eq_refl) as (_ & _ & H3).
  apply H3. cbn. apply not_elem_of_nil.
Defined.

Lemma SendClient_close_clears_sample :
  fst (SendClient.close Scenario.ready_sender) = Return tt /\
  SendClient._pending_messages (snd (SendClient.close Scenario.ready_sender)) = [] /\
  SendClient._message_sender (snd (SendClient.close Scenario.ready_sender)) = None.
Proof.
  assert (SendClient.close Scenario.ready_sender
          = (Return tt, snd (SendClient.close Scenario.ready_sender))) as H
    by (vm_compute; reflexivity).
  split; [vm_compute; reflexivity|].
  destruct (SendClient_close_clears _ _ H) as (H1 & H2 & _).
  split; [exact H1 | exact H2].
Defined.

Lemma ReceiveClient_close_resets_sample :
  fst (ReceiveClient.close Sample.three_queued) = Return tt /\
  ReceiveClient._message_receiver (snd (ReceiveClient.close Sample.three_queued))
  = None /\
  ReceiveClient._received_messages (snd (ReceiveClient.close Sample.three_queued))
  = Some [1; 2; 3]%nat.
Proof.
  assert (ReceiveClient.close Sample.three_queued
          = (Return tt, snd (ReceiveClient.close Sample.three_queued))) as H
    by (vm_compute; reflexivity).
  split; [vm_compute; reflexivity|].
  destruct (ReceiveClient_close_resets _ _ H) as (H1 & _ & _ & _ & _ & H6).
  split; [exact H1|]. rewrite H6. vm_compute. reflexivity.
Defined.

Lemma client_run_sends_in_queue_order_sample :
  fst (SendClient._client_run SendClient._on_message_sent Scenario.ready_sender)
  = Return (Some true) /\
  exists sent : list (Message.ref * Q),
    AMQPClient.log
      (SendClient.client
         (snd (SendClient._client_run SendClient._on_message_sent
                 Scenario.ready_sender)))
    = AMQPClient.log (SendClient.client Scenario.ready_sender)
      ++ map (fun x => SenderSend (fst x) (snd x)) sent ++ [ConnectionWork] /\
    sublist (map fst sent) [1; 2]%nat.
Proof.
  assert (fst (SendClient._client_run SendClient._on_message_sent
                 Scenario.ready_sender) = Return (Some true)) as H
    by (vm_compute; reflexivity).
  split; [exact H|].
  destruct (_client_run_sends_in_queue_order SendClient._on_message_sent
              Scenario.ready_sender (Some true) H) as (_ & _ & H3).
  exact H3.
Defined.

(** Message [1] is settled by the second pass. *)
Lemma send_message_returns_only_when_all_sent_sample :
  fst (SendMessage.send_message SendClient._on_message_sent Scenario.DONE_STATES
         [1%nat] true 5 (Sample.sender 0 1)) = Return tt /\
  Message.state
    (SendClient.messages
       (snd (SendMessage.send_message SendClient._on_message_sent
               Scenario.DONE_STATES [1%nat] true 5 (Sample.sender 0 1))) 1%nat)
  <> MessageState.Failed.
Proof.
  assert (SendMessage.send_message SendClient._on_message_sent Scenario.DONE_STATES
            [1%nat] true 5 (Sample.sender 0 1)
          = (Return tt,
             snd (SendMessage.send_message SendClient._on_message_sent
                    Scenario.DONE_STATES [1%nat] true 5 (Sample.sender 0 1)))) as H
    by (vm_compute; reflexivity).
  split; [vm_compute; reflexivity|].
  destruct (send_message_returns_only_when_all_sent SendClient._on_message_sent
              Scenario.DONE_STATES [1%nat] true 5 (Sample.sender 0 1) _ H 1%nat)
    as [_ H2]; [apply list_elem_of_here | exact H2].
Defined.



Lemma async_run_step_agrees_without_timeout_sample :
  SendClient._msg_timeout Scenario.ready_sender <= 0 /\
  SendClientAsync._client_run SendClient._on_message_sent Scenario.ready_sender
  = SendClient._client_run SendClient._on_message_sent Scenario.ready_sender.
Proof.
  split; [vm_compute; discriminate|].
  apply (async_run_step_agrees_without_timeout SendClient._on_message_sent
           Scenario.ready_sender).
  vm_compute; discriminate.
Defined.



Lemma do_work_without_timeout_keeps_receiving_sample :
  ReceiveClient._timeout Sample.three_queued <= 0 /\
  AMQPClient._shutdown (ReceiveClient.client Sample.three_queued) = false /\
  fst (do_work Sample.three_queued) = Return (Some true) /\
  AMQPClient._shutdown (ReceiveClient.client (snd (do_work Sample.three_queued)))
  = false.
Proof.
  assert (do_work Sample.three_queued
          = (Return (Some true), snd (do_work Sample.three_queued))) as H
    by (vm_compute; reflexivity).
  split; [vm_compute; discriminate|]. split; [vm_compute; reflexivity|].
  split; [vm_compute; reflexivity|].
  destruct (do_work_without_timeout_keeps_receiving Sample.three_queued _ _
              ltac:(vm_compute; discriminate) ltac:(vm_compute; reflexivity) H)
    as (_ & H2 & _).
  exact H2.
Defined.



Lemma anext_stop_closes_the_client_sample :
  fst (AsyncMessageIter.__anext__ 5 Scenario.finished_iterator) = Return None /\
  AsyncMessageIter.receiving
    (snd (AsyncMessageIter.__anext__ 5 Scenario.finished_iterator)) = false.
Proof.
  assert (AsyncMessageIter.__anext__ 5 Scenario.finished_iterator
          = (Return None,
             snd (AsyncMessageIter.__anext__ 5 Scenario.finished_iterator))) as H
    by (vm_compute; reflexivity).
  split; [vm_compute; reflexivity|].
  destruct (anext_stop_closes_the_client 5 Scenario.finished_iterator _ H)
    as (H1 & _).
  exact H1.
Defined.

End MoreInstances.
